(** * assembla2github: the export-file interpreter and the wiki replay engine

    A shallow embedding of [assembla2github.py]: the line interpreter
    ([mapjsonlinetoassembblaobject], [filereadertoassemblaobjectgenerator]),
    the indexer ([genindex]), the wiki tree builder ([wikiparser] with its
    inner generator [_wikitraverse]) and the replay generator
    ([wikicommitgenerator], [wikiindexproducer], [getwikiblob]).

    Conventions of the embedding.
    - A Python [dict] is an insertion-ordered association list with distinct
      keys ([dict_set] overwrites in place, as Python does).
    - Exceptions are values of [exn]; a function that may raise returns a
      [result].  Log calls are collected as a list of [logrecord].
    - Row objects that the code mutates in place and aliases (the wiki pages)
      live in a store, a list indexed by object reference.
    - Library functions whose code is not part of the program
      ([json.loads], [datetime.fromisoformat], [str] of a datetime) are
      parameters of the definitions that call them.
    - A parsed timestamp is represented by its instant, an integer.
    - Non-integer JSON numbers and JSON objects are not represented. *)

From Stdlib Require Import List String Ascii ZArith Lia Bool Arith.
From Stdlib Require Import Permutation Sorted DecimalString.
Import ListNotations.

Set Warnings "-register-all".

Local Open Scope list_scope.

(** String concatenation, written [+] in the source. *)
Notation "a +s+ b" := (String.append a b) (at level 60, right associativity).

(* ====================================================================== *)
(** * Part I: the embedding                                               *)
(* ====================================================================== *)

(** ** Python values and built-ins used by the program *)

Module Py.

(** Hashable scalar values up to Python equality: [True == 1] and
    [False == 0], so booleans are represented by their integer. *)
Inductive pykey : Type :=
| KNone
| KInt (z : Z)
| KStr (s : string).

(** Truth value testing, as in [if parent:] and [x or ''] . *)
Definition truthy (k : pykey) : bool :=
  match k with
  | KNone => false
  | KInt z => negb (Z.eqb z 0)
  | KStr s => negb (String.eqb s EmptyString)
  end.

Class EqDec (A : Type) := eq_dec : forall x y : A, {x = y} + {x <> y}.

#[export] Instance string_EqDec : EqDec string := string_dec.
#[export] Instance Z_EqDec : EqDec Z := Z.eq_dec.
#[export] Instance nat_EqDec : EqDec nat := Nat.eq_dec.

#[export] Instance pykey_EqDec : EqDec pykey.
Proof.
  intros x y. unfold EqDec in *.
  decide equality; try apply Z.eq_dec; try apply string_dec.
Defined.

#[export] Instance option_EqDec {A} `{EqDec A} : EqDec (option A).
Proof.
  intros x y. decide equality; try apply eq_dec.
Defined.

(** Exceptions raised by the modelled code. *)
Inductive exn : Type :=
| KeyError (key : pykey)
| TypeError
| ValueError
| JSONDecodeError
| RecursionError
| AssertionError (msg : string).

Inductive result (A : Type) : Type :=
| Ok (a : A)
| Raise (e : exn).
Arguments Ok {A} a.
Arguments Raise {A} e.

Definition bind {A B} (r : result A) (k : A -> result B) : result B :=
  match r with
  | Ok a => k a
  | Raise e => Raise e
  end.

Notation "x <- r ;; k" := (bind r (fun x => k))
  (at level 61, r at next level, right associativity).

(** The [logging] module: level and formatted message. *)
Inductive loglevel : Type := DEBUG | INFO | WARNING | ERROR.
Definition logrecord : Type := loglevel * string.

(** *** Strings *)

Definition nl : string := String (ascii_of_nat 10) EmptyString.

(** [str(n)] for a non-negative and for an arbitrary integer. *)
Definition str_of_nat (n : nat) : string :=
  NilZero.string_of_uint (Nat.to_uint n).

Definition str_of_Z (z : Z) : string :=
  NilZero.string_of_int (Z.to_int z).

(** [str(x)] on [None], an integer or a string.  A boolean has no
    [pykey] of its own (as a key it is the integer it equals), so the text
    [True] or [False] that Python prints for a boolean is not represented:
    [str] gives the text of a value that is not a boolean. *)
Definition str (k : pykey) : string :=
  match k with
  | KNone => "None"
  | KInt z => str_of_Z z
  | KStr s => s
  end.

(** [c.isspace()] on the characters of the 8-bit range. *)
Definition isspace (c : ascii) : bool :=
  let n := nat_of_ascii c in
  ((9 <=? n) && (n <=? 13)) || ((28 <=? n) && (n <=? 32))
  || (n =? 133) || (n =? 160).

(** [c in string.printable]: digits, letters, punctuation and the six
    ASCII whitespace characters. *)
Definition printable (c : ascii) : bool :=
  let n := nat_of_ascii c in
  ((32 <=? n) && (n <=? 126)) || ((9 <=? n) && (n <=? 13)).

Fixpoint filter_string (f : ascii -> bool) (s : string) : string :=
  match s with
  | EmptyString => EmptyString
  | String c s' =>
      if f c then String c (filter_string f s') else filter_string f s'
  end.

Fixpoint lstrip (s : string) : string :=
  match s with
  | EmptyString => EmptyString
  | String c s' => if isspace c then lstrip s' else s
  end.

Fixpoint rstrip (s : string) : string :=
  match s with
  | EmptyString => EmptyString
  | String c s' =>
      match rstrip s' with
      | EmptyString => if isspace c then EmptyString else String c EmptyString
      | r => String c r
      end
  end.

Definition strip (s : string) : string := rstrip (lstrip s).

Definition startswith (s p : string) : bool := String.prefix p s.

(** [s.split(sep)] for a non-empty separator: the pieces between the
    non-overlapping occurrences of [sep], found left to right.  [skip] counts
    the characters of a matched separator still to be dropped and [cur] is
    the piece being collected. *)
Fixpoint split_go (sep : string) (skip : nat) (cur s : string) : list string :=
  match s with
  | EmptyString => [cur]
  | String c s' =>
      match skip with
      | S k => split_go sep k cur s'
      | O =>
          if String.prefix sep s
          then cur :: split_go sep (String.length sep - 1) EmptyString s'
          else split_go sep 0 (cur +s+ String c EmptyString) s'
      end
  end.

Definition split (sep s : string) : list string := split_go sep 0 EmptyString s.

(** [s.replace(old, new)]: every non-overlapping occurrence of [old], found
    left to right, is replaced. *)
Fixpoint replace_go (old new : string) (skip : nat) (s : string) : string :=
  match s with
  | EmptyString => EmptyString
  | String c s' =>
      match skip with
      | S k => replace_go old new k s'
      | O =>
          if String.prefix old s
          then new +s+ replace_go old new (String.length old - 1) s'
          else String c (replace_go old new 0 s')
      end
  end.

Fixpoint intersperse (new s : string) : string :=
  match s with
  | EmptyString => new
  | String c s' => new +s+ String c (intersperse new s')
  end.

Definition replace (old new s : string) : string :=
  match old with
  | EmptyString => intersperse new s
  | _ => replace_go old new 0 s
  end.

(** [s * n] on strings. *)
Fixpoint str_repeat (s : string) (n : nat) : string :=
  match n with
  | O => EmptyString
  | S n' => s +s+ str_repeat s n'
  end.

(** *** Dictionaries *)

Section Dict.
Context {K V : Type} `{EqDec K}.

Definition dict : Type := list (K * V).

Fixpoint dict_get (k : K) (d : dict) : option V :=
  match d with
  | [] => None
  | (k', v) :: d' => if eq_dec k k' then Some v else dict_get k d'
  end.

Definition dict_contains (k : K) (d : dict) : bool :=
  match dict_get k d with Some _ => true | None => false end.

(** [d[k] = v] *)
Fixpoint dict_set (k : K) (v : V) (d : dict) : dict :=
  match d with
  | [] => [(k, v)]
  | (k', v') :: d' =>
      if eq_dec k k' then (k', v) :: d' else (k', v') :: dict_set k v d'
  end.

(** [d.setdefault(k, v)], for its effect on [d]. *)
Definition dict_setdefault (k : K) (v : V) (d : dict) : dict :=
  if dict_contains k d then d else dict_set k v d.

(** [{k: v for k, v in pairs}] and a dict display [{k1: v1, k2: v2}]. *)
Definition dict_of_pairs (pairs : list (K * V)) : dict :=
  fold_left (fun d kv => dict_set (fst kv) (snd kv) d) pairs [].

(** The binding a sequence of assignments leaves for [k]: the last one. *)
Fixpoint last_binding (k : K) (pairs : list (K * V)) : option V :=
  match pairs with
  | [] => None
  | (k', v) :: rest =>
      match last_binding k rest with
      | Some w => Some w
      | None => if eq_dec k' k then Some v else None
      end
  end.

End Dict.
Arguments dict K V : clear implicits.

(** *** Sorting *)

(** [sorted(l, key=key)] is a stable sort; on integer keys its result is
    determined by stability, and insertion from the right computes it. *)
Fixpoint insert_sorted {A} (key : A -> Z) (x : A) (l : list A) : list A :=
  match l with
  | [] => [x]
  | y :: l' =>
      if (key x <=? key y)%Z then x :: l else y :: insert_sorted key x l'
  end.

Definition sorted {A} (key : A -> Z) (l : list A) : list A :=
  fold_right (insert_sorted key) [] l.

(** The order [sorted] establishes. *)
Definition key_le {A} (key : A -> Z) (a b : A) : Prop := (key a <= key b)%Z.

(** [len(set(ids))] : the number of distinct values. *)
Fixpoint dedup {A} `{EqDec A} (l : list A) : list A :=
  match l with
  | [] => []
  | x :: l' => if in_dec eq_dec x l' then dedup l' else x :: dedup l'
  end.

End Py.
Export Py.

(** ** JSON values *)

Module Json.

(** What [json.loads] returns on the export format: [None], booleans,
    integers, strings and lists. *)
Inductive json : Type :=
| JNull
| JBool (b : bool)
| JInt (z : Z)
| JStr (s : string)
| JArr (l : list json).

(** [len(x)]; [None] stands for the [TypeError] of an unsized value. *)
Definition py_len (x : json) : option nat :=
  match x with
  | JArr l => Some (List.length l)
  | JStr s => Some (String.length s)
  | _ => None
  end.

Fixpoint chars (s : string) : list json :=
  match s with
  | EmptyString => []
  | String c s' => JStr (String c EmptyString) :: chars s'
  end.

(** Iteration over a value, as [zip] does. *)
Definition py_iter (x : json) : option (list json) :=
  match x with
  | JArr l => Some l
  | JStr s => Some (chars s)
  | _ => None
  end.

(** The value as a dictionary key; lists are unhashable. *)
Definition key_of_json (x : json) : option pykey :=
  match x with
  | JNull => Some KNone
  | JBool b => Some (KInt (if b then 1 else 0))
  | JInt z => Some (KInt z)
  | JStr s => Some (KStr s)
  | JArr _ => None
  end.

(** A decoder for the fragment of JSON the embedding represents: [null],
    [true], [false], integers, strings with the escapes of quote, backslash,
    slash, [n] and [t], and arrays.  It is used to run the examples; the
    definitions of the program take the decoder as a parameter. *)

Definition is_ws (c : ascii) : bool :=
  let n := nat_of_ascii c in (n =? 32) || (n =? 9) || (n =? 10) || (n =? 13).

Fixpoint skip_ws (s : string) : string :=
  match s with
  | EmptyString => EmptyString
  | String c s' => if is_ws c then skip_ws s' else s
  end.

Definition digit_of (c : ascii) : option Z :=
  let n := nat_of_ascii c in
  if (48 <=? n) && (n <=? 57) then Some (Z.of_nat (n - 48)) else None.

Fixpoint scan_digits (acc : Z) (s : string) : Z * string :=
  match s with
  | EmptyString => (acc, EmptyString)
  | String c s' =>
      match digit_of c with
      | Some d => scan_digits (10 * acc + d) s'
      | None => (acc, s)
      end
  end.

Definition starts_digit (s : string) : bool :=
  match s with
  | String c _ => match digit_of c with Some _ => true | None => false end
  | EmptyString => false
  end.

(** The integer is refused when a fraction or an exponent follows. *)
Definition ends_number (s : string) : bool :=
  match s with
  | String c _ =>
      let n := nat_of_ascii c in negb ((n =? 46) || (n =? 101) || (n =? 69))
  | EmptyString => true
  end.

Fixpoint scan_string (s : string) : option (string * string) :=
  match s with
  | EmptyString => None
  | String c s' =>
      let n := nat_of_ascii c in
      if n =? 34 then Some (EmptyString, s')
      else if n =? 92 then
        match s' with
        | String e s'' =>
            let m := nat_of_ascii e in
            let unescaped :=
              if (m =? 34) || (m =? 92) || (m =? 47) then Some e
              else if m =? 110 then Some (ascii_of_nat 10)
              else if m =? 116 then Some (ascii_of_nat 9)
              else None in
            match unescaped, scan_string s'' with
            | Some u, Some (body, rest) => Some (String u body, rest)
            | _, _ => None
            end
        | EmptyString => None
        end
      else if n <? 32 then None
      else
        match scan_string s' with
        | Some (body, rest) => Some (String c body, rest)
        | None => None
        end
  end.

Fixpoint parse_value (fuel : nat) (s : string) : option (json * string) :=
  match fuel with
  | O => None
  | S fuel' =>
      let s := skip_ws s in
      if String.prefix "null" s then Some (JNull, String.substring 4 (String.length s - 4) s)
      else if String.prefix "true" s then Some (JBool true, String.substring 4 (String.length s - 4) s)
      else if String.prefix "false" s then Some (JBool false, String.substring 5 (String.length s - 5) s)
      else
        match s with
        | EmptyString => None
        | String c rest =>
            let n := nat_of_ascii c in
            if n =? 34 then
              match scan_string rest with
              | Some (body, rest') => Some (JStr body, rest')
              | None => None
              end
            else if n =? 91 then
              match skip_ws rest with
              | String c' rest' =>
                  if nat_of_ascii c' =? 93 then Some (JArr [], rest')
                  else parse_items fuel' rest []
              | EmptyString => None
              end
            else if n =? 45 then
              if starts_digit rest then
                let '(z, rest') := scan_digits 0 rest in
                if ends_number rest' then Some (JInt (- z), rest') else None
              else None
            else if starts_digit s then
              let '(z, rest') := scan_digits 0 s in
              if ends_number rest' then Some (JInt z, rest') else None
            else None
        end
  end
with parse_items (fuel : nat) (s : string) (acc : list json)
  : option (json * string) :=
  match fuel with
  | O => None
  | S fuel' =>
      match parse_value fuel' s with
      | Some (v, rest) =>
          match skip_ws rest with
          | String c rest' =>
              let n := nat_of_ascii c in
              if n =? 44 then parse_items fuel' rest' (v :: acc)
              else if n =? 93 then Some (JArr (rev (v :: acc)), rest')
              else None
          | EmptyString => None
          end
      | None => None
      end
  end.

Definition loads (s : string) : option json :=
  match parse_value (S (String.length s)) s with
  | Some (v, rest) =>
      match skip_ws rest with
      | EmptyString => Some v
      | _ => None
      end
  | None => None
  end.

End Json.
Export Json.

(** ** The line interpreter *)

Module Lines.

(** A parsed row: field name to value. *)
Definition Row : Type := dict pykey json.

Section Interpreter.

(** [json.loads]; [None] stands for its [JSONDecodeError]. *)
Variable json_loads : string -> option json.

(** The dict comprehension [{field: value for field, value in zip(...)}];
    an unhashable field raises. *)
Fixpoint zip_to_dict (pairs : list (json * json)) (acc : Row) : result Row :=
  match pairs with
  | [] => Ok acc
  | (field, value) :: rest =>
      match key_of_json field with
      | Some k => zip_to_dict rest (dict_set k value acc)
      | None => Raise TypeError
      end
  end.

Definition assertion_message (linenum actual expected : nat)
  (linetype : string) : string :=
  "Assertion fail: " +s+ linetype +s+ " line [" +s+ str_of_nat linenum
  +s+ "] actual fields [" +s+ str_of_nat actual
  +s+ "] != expected fields [" +s+ str_of_nat expected +s+ "]".

(** [mapjsonlinetoassembblaobject(jsonstring, fieldlist, linenum, linetype)]:
    the log records it emits and its result. *)
Definition mapjsonlinetoassembblaobject (jsonstring : string)
  (fieldlist : json) (linenum : nat) (linetype : string)
  : list logrecord * result Row :=
  ([(DEBUG, "attempting to parse line #" +s+ str_of_nat linenum
            +s+ " as a " +s+ linetype)],
   match json_loads jsonstring with
   | None => Raise JSONDecodeError
   | Some arr =>
       match py_len arr, py_len fieldlist with
       | Some actual, Some expected =>
           if negb (actual =? expected)
           then Raise (AssertionError
                         (assertion_message linenum actual expected linetype))
           else
             match py_iter fieldlist, py_iter arr with
             | Some fields, Some values => zip_to_dict (combine fields values) []
             | _, _ => Raise TypeError
             end
       | _, _ => Raise TypeError
       end
   end).

(** What one iteration of the generator's loop does. *)
Inductive step : Type :=
| Continue                                   (* [continue] *)
| Yield (item : nat * string * string * Row) (* [yield (...)] *)
| Abort (e : exn).                           (* an exception escapes *)

(** The text handed to the row parser for a data line of [table]. *)
Definition currentline (line table : string) : string :=
  strip (replace (table +s+ ", ") EmptyString line).

(** The body of the [for] loop of [filereadertoassemblaobjectgenerator] on
    one raw line: the new [fieldmap], the log records and the step taken. *)
Definition interpret_line (fieldmap : dict string json) (linenum : nat)
  (rawline : string) : dict string json * list logrecord * step :=
  let _line := rstrip rawline in
  let line := filter_string printable _line in
  let log :=
    (if String.eqb line _line then []
     else [(DEBUG, "line #" +s+ str_of_nat linenum
                   +s+ ": Unprintable chars in '" +s+ line +s+ "'")])
    ++ [(DEBUG, "line #" +s+ str_of_nat linenum +s+ ": " +s+ line)] in
  let fields := split ":fields, " line in
  if 2 <? List.length fields then
    (fieldmap,
     log ++ [(ERROR, "line #" +s+ str_of_nat linenum
                     +s+ ": Unexpected field count in '" +s+ line +s+ "'")],
     Continue)
  else if 1 <? List.length fields then
    let key := nth 0 fields EmptyString in
    match json_loads (nth 1 fields EmptyString) with
    | Some schema => (dict_set key schema fieldmap, log, Continue)
    | None => (fieldmap, log, Abort JSONDecodeError)
    end
  else
    let heading := split ", [" line in
    if List.length heading <? 2 then
      (fieldmap,
       log ++ [(ERROR, "line #" +s+ str_of_nat linenum
                       +s+ ": Unexpected syntax in '" +s+ line +s+ "'")],
       Continue)
    else
      let table := nth 0 heading EmptyString in
      match dict_get table fieldmap with
      | None =>
          (* the message is not an f-string in the source *)
          (fieldmap,
           log ++ [(ERROR,
                    "line #{linenum}: Table '{table}' not defined before '{line}'"%string)],
           Continue)
      | Some fieldlist =>
          let '(log', r) :=
            mapjsonlinetoassembblaobject (currentline line table) fieldlist
              linenum table in
          match r with
          | Ok row => (fieldmap, log ++ log', Yield (linenum, line, table, row))
          | Raise e => (fieldmap, log ++ log', Abort e)
          end
      end.

(** How the loop body classifies a cleaned line: the line itself, whether
    it reaches the table lookup, and the table name it is looked up under. *)
Definition clean (rawline : string) : string :=
  filter_string printable (rstrip rawline).

Definition is_data_row (line : string) : bool :=
  (List.length (split ":fields, " line) <=? 1)
  && (2 <=? List.length (split ", [" line)).

Definition table_of (line : string) : string :=
  nth 0 (split ", [" line) EmptyString.

(** A run of the generator, consumed to its end as [main] does. *)
Record run : Type := {
  fieldmap_of : dict string json;
  log_of : list logrecord;
  yielded : list (nat * string * string * Row);
  raised : option exn
}.

Fixpoint generator_loop (fieldmap : dict string json) (linenum : nat)
  (lines : list string) : run :=
  match lines with
  | [] => {| fieldmap_of := fieldmap; log_of := []; yielded := []; raised := None |}
  | rawline :: rest =>
      let '(fieldmap', log, s) := interpret_line fieldmap linenum rawline in
      match s with
      | Abort e =>
          {| fieldmap_of := fieldmap'; log_of := log; yielded := [];
             raised := Some e |}
      | Continue =>
          let r := generator_loop fieldmap' (S linenum) rest in
          {| fieldmap_of := fieldmap_of r; log_of := log ++ log_of r;
             yielded := yielded r; raised := raised r |}
      | Yield item =>
          let r := generator_loop fieldmap' (S linenum) rest in
          {| fieldmap_of := fieldmap_of r; log_of := log ++ log_of r;
             yielded := item :: yielded r; raised := raised r |}
      end
  end.

(** [filereadertoassemblaobjectgenerator(filereader, fieldmap)] on the lines
    [filereader.readlines()] returns. *)
Definition filereadertoassemblaobjectgenerator (readlines : list string)
  (fieldmap : dict string json) : run :=
  generator_loop fieldmap 0 readlines.

End Interpreter.

End Lines.
Export Lines.

(** ** The indexer *)

Module Indexer.

(** [ids = [k[key] for k in objects]] *)
Fixpoint collect_ids (key : string) (objects : list Row) : result (list json) :=
  match objects with
  | [] => Ok []
  | k :: rest =>
      match dict_get (KStr key) k with
      | None => Raise (KeyError (KStr key))
      | Some v => ids <- collect_ids key rest ;; Ok (v :: ids)
      end
  end.

(** Hashing every id, as [set(ids)] and the dict comprehension do. *)
Fixpoint hash_ids (ids : list json) : result (list pykey) :=
  match ids with
  | [] => Ok []
  | v :: rest =>
      match key_of_json v with
      | None => Raise TypeError
      | Some k => ks <- hash_ids rest ;; Ok (k :: ks)
      end
  end.

Definition nonunique_message (table : string) (unique total : nat) : string :=
  "Non unique id in table '" +s+ table +s+ "', " +s+ str_of_nat unique
  +s+ " unique of " +s+ str_of_nat total +s+ " rows".

(** The part of the loop body of [genindex] that follows the [continue]:
    the log records and the map stored under [index[table]]. *)
Definition index_table (table key : string) (objects : list Row)
  : list logrecord * result (dict pykey Row) :=
  match collect_ids key objects with
  | Raise e => ([], Raise e)
  | Ok ids =>
      match hash_ids ids with
      | Raise e => ([], Raise e)
      | Ok keys =>
          ((if negb (List.length ids =? List.length (dedup keys))
            then [(WARNING,
                   nonunique_message table (List.length (dedup keys))
                     (List.length ids))]
            else []),
           Ok (dict_of_pairs (combine keys objects)))
      end
  end.

(** [keymap.get(table, default)] *)
Definition key_field (keymap : dict (option string) (option string))
  (default : option string) (table : string) : option string :=
  match dict_get (Some table) keymap with
  | Some k => k
  | None => default
  end.

Fixpoint genindex_loop (keymap : dict (option string) (option string))
  (default : option string) (items : list (string * list Row))
  (index : dict string (dict pykey Row))
  : list logrecord * result (dict string (dict pykey Row)) :=
  match items with
  | [] => ([], Ok index)
  | (table, objects) :: rest =>
      match key_field keymap default table with
      | None => genindex_loop keymap default rest index
      | Some key =>
          if startswith table "_"
          then genindex_loop keymap default rest index
          else
            match index_table table key objects with
            | (log, Raise e) => (log, Raise e)
            | (log, Ok m) =>
                let '(log', r) :=
                  genindex_loop keymap default rest (dict_set table m index) in
                (log ++ log', r)
            end
      end
  end.

(** [genindex(data, keymap)]; the key [None] of [keymap] holds the default
    key field. *)
Definition genindex (data : dict string (list Row))
  (keymap : dict (option string) (option string))
  : list logrecord * result (dict string (dict pykey Row)) :=
  match dict_get None keymap with
  | None => ([], Raise (KeyError KNone))
  | Some default => genindex_loop keymap default data []
  end.

(** The key map [main] passes. *)
Definition main_keymap : dict (option string) (option string) :=
  [ (None, Some "id"%string);
    (Some "wiki_page_blobs"%string, Some "version_id"%string);
    (Some "merge_requests"%string, None);
    (Some "merge_request_versions"%string, None);
    (Some "merge_request_votes"%string, None);
    (Some "tickets_merge_requests"%string, None);
    (Some "test_plan_tickets"%string, None) ].

(** The rows [objects] all have the field [key], with the hashable values
    [keys]. *)
Definition keyed (key : string) (objects : list Row) (keys : list pykey)
  : Prop :=
  Forall2 (fun row k =>
             exists v, dict_get (KStr key) row = Some v
                       /\ key_of_json v = Some k) objects keys.

(** The table is indexed: it has a key field and no leading underscore. *)
Definition indexed (keymap : dict (option string) (option string))
  (default : option string) (table key : string) : Prop :=
  key_field keymap default table = Some key /\ startswith table "_" = false.

(** A table with the id 42 twice. *)
Definition row_of (i : Z) (title : string) : Row :=
  [(KStr "id", JInt i); (KStr "title", JStr title)].

Definition sample_data : dict string (list Row) :=
  [ ("tickets"%string,
     [row_of 42 "first"; row_of 7 "other"; row_of 42 "second"]);
    ("merge_requests"%string, [[(KStr "title", JStr "no id")]]) ].

End Indexer.
Export Indexer.

(** ** The wiki tables *)

(** A user record of [data["_index"]["_users"]]. *)
Module User.
Record t : Type := {
  id : option pykey;
  name : option pykey;
  email : option pykey
}.
End User.

(** What a page's [_children] refers to: the empty list [setdefault] gave
    it, or the list object [wikitree[k]] it was aliased to. *)
Inductive listref : Type :=
| FreshList
| TreeList (k : pykey).

(** A row of [wiki_pages].  The fields after [updated_at] are the ones
    [wikiparser] adds; [None] means the row does not have the field yet.  A
    reference to a row object is its index in the table. *)
Module Page.
Record t : Type := {
  id : pykey;
  parent_id : pykey;
  user_id : pykey;
  status : pykey;
  position : Z;
  page_name : string;
  created_at : string;
  updated_at : string;
  _parent_id : option (option nat);
  _children : option listref;
  _user_id : option User.t;
  _created_at : option Z;
  _updated_at : option Z;
  _level : option nat
}.

(** A row as the line interpreter delivers it. *)
Definition make (id parent_id user_id status : pykey) (position : Z)
  (page_name created_at updated_at : string) : t :=
  {| id := id; parent_id := parent_id; user_id := user_id; status := status;
     position := position; page_name := page_name; created_at := created_at;
     updated_at := updated_at; _parent_id := None; _children := None;
     _user_id := None; _created_at := None; _updated_at := None;
     _level := None |}.

Definition set_parent_id (x : option nat) (v : t) : t :=
  {| id := id v; parent_id := parent_id v; user_id := user_id v;
     status := status v; position := position v; page_name := page_name v;
     created_at := created_at v; updated_at := updated_at v;
     _parent_id := Some x; _children := _children v; _user_id := _user_id v;
     _created_at := _created_at v; _updated_at := _updated_at v;
     _level := _level v |}.

Definition set_children (x : listref) (v : t) : t :=
  {| id := id v; parent_id := parent_id v; user_id := user_id v;
     status := status v; position := position v; page_name := page_name v;
     created_at := created_at v; updated_at := updated_at v;
     _parent_id := _parent_id v; _children := Some x; _user_id := _user_id v;
     _created_at := _created_at v; _updated_at := _updated_at v;
     _level := _level v |}.

(** [v.setdefault('_children', [])] *)
Definition setdefault_children (v : t) : t :=
  match _children v with
  | Some _ => v
  | None => set_children FreshList v
  end.

Definition set_user_id (x : User.t) (v : t) : t :=
  {| id := id v; parent_id := parent_id v; user_id := user_id v;
     status := status v; position := position v; page_name := page_name v;
     created_at := created_at v; updated_at := updated_at v;
     _parent_id := _parent_id v; _children := _children v; _user_id := Some x;
     _created_at := _created_at v; _updated_at := _updated_at v;
     _level := _level v |}.

Definition set_dates (c u : Z) (v : t) : t :=
  {| id := id v; parent_id := parent_id v; user_id := user_id v;
     status := status v; position := position v; page_name := page_name v;
     created_at := created_at v; updated_at := updated_at v;
     _parent_id := _parent_id v; _children := _children v;
     _user_id := _user_id v; _created_at := Some c; _updated_at := Some u;
     _level := _level v |}.

Definition set_level (x : nat) (v : t) : t :=
  {| id := id v; parent_id := parent_id v; user_id := user_id v;
     status := status v; position := position v; page_name := page_name v;
     created_at := created_at v; updated_at := updated_at v;
     _parent_id := _parent_id v; _children := _children v;
     _user_id := _user_id v; _created_at := _created_at v;
     _updated_at := _updated_at v; _level := Some x |}.
End Page.

(** A row of [wiki_page_blobs]. *)
Module Blob.
Record t : Type := {
  version_id : pykey;
  blob_id : pykey
}.
End Blob.

(** A row of [wiki_page_versions], with the fields [wikiparser] adds. *)
Module Version.
Record t : Type := {
  id : pykey;
  wiki_page_id : pykey;
  user_id : pykey;
  version : pykey;
  change_comment : pykey;
  created_at : string;
  updated_at : string;
  _blob_id : option pykey;
  _wiki_page_id : option nat;
  _user_id : option User.t;
  _created_at : option Z;
  _updated_at : option Z
}.

Definition make (id wiki_page_id user_id version change_comment : pykey)
  (created_at updated_at : string) : t :=
  {| id := id; wiki_page_id := wiki_page_id; user_id := user_id;
     version := version; change_comment := change_comment;
     created_at := created_at; updated_at := updated_at; _blob_id := None;
     _wiki_page_id := None; _user_id := None; _created_at := None;
     _updated_at := None |}.

Definition enriched (blob : pykey) (page : nat) (user : User.t) (c u : Z)
  (v : t) : t :=
  {| id := id v; wiki_page_id := wiki_page_id v; user_id := user_id v;
     version := version v; change_comment := change_comment v;
     created_at := created_at v; updated_at := updated_at v;
     _blob_id := Some blob; _wiki_page_id := Some page; _user_id := Some user;
     _created_at := Some c; _updated_at := Some u |}.
End Version.

(** The part of [data] that [wikiparser] reads: three tables, absent when
    the dump has no row of them, and the user index. *)
Record Data : Type := {
  wiki_pages : option (list Page.t);
  wiki_page_versions : option (list Version.t);
  wiki_page_blobs : option (list Blob.t);
  _users : dict pykey User.t
}.

(** ** The tree builder *)

Module Wiki.

(** Assignment to a field of the row object [i]. *)
Fixpoint update {A} (i : nat) (f : A -> A) (store : list A) : list A :=
  match store, i with
  | [], _ => []
  | x :: rest, O => f x :: rest
  | x :: rest, S j => x :: update j f rest
  end.

(** [{k[key]: k for k in objects}], the index [genindex] builds, with the
    row objects given by reference. *)
Definition index_refs (keys : list pykey) : dict pykey nat :=
  dict_of_pairs (combine keys (seq 0 (List.length keys))).

(** The store of page objects and the local [wikitree]. *)
Definition state : Type := (list Page.t * dict pykey (list nat))%type.

(** [obj.get('_level')] on the object [r]. *)
Definition level_of (store : list Page.t) (r : nat) : option nat :=
  match nth_error store r with
  | Some p => Page._level p
  | None => None
  end.

(** [v['position']] on the object [r]. *)
Definition position_of (store : list Page.t) (r : nat) : Z :=
  match nth_error store r with
  | Some p => Page.position p
  | None => 0%Z
  end.

(** [v['_children']] on the object [r]; [None] when the row has no such
    field. *)
Definition children_of (st : state) (r : nat) : option (list nat) :=
  match nth_error (fst st) r with
  | Some p =>
      match Page._children p with
      | Some FreshList => Some []
      | Some (TreeList k) =>
          Some (match dict_get k (snd st) with Some l => l | None => [] end)
      | None => None
      end
  | None => None
  end.

Section Parser.

(** [datetime.fromisoformat]; [None] stands for its [ValueError]. *)
Variable fromisoformat : string -> option Z.

(** The body of the first loop of [wikiparser], on the row [v] whose object
    is [i]. *)
Definition enrich_page (users : dict pykey User.t) (index : dict pykey nat)
  (i : nat) (v : Page.t) (st : state) : result state :=
  let '(store, wikitree) := st in
  let store := update i (Page.set_parent_id (dict_get (Page.parent_id v) index)) store in
  let store := update i Page.setdefault_children store in
  match dict_get (Page.user_id v) users with
  | None => Raise (KeyError (Page.user_id v))
  | Some user =>
      let store := update i (Page.set_user_id user) store in
      match fromisoformat (Page.created_at v), fromisoformat (Page.updated_at v) with
      | Some c, Some u =>
          let store := update i (Page.set_dates c u) store in
          let parent := Page.parent_id v in
          let wikitree := dict_setdefault parent [] wikitree in
          let wikitree :=
            dict_set parent
              (match dict_get parent wikitree with Some l => l | None => [] end
               ++ [i]) wikitree in
          if truthy parent then
            match dict_get parent index with
            | None => Raise (KeyError parent)
            | Some parentobj =>
                let store := update parentobj (Page.set_children (TreeList parent)) store in
                let level :=
                  match level_of store parentobj with
                  | Some l => l
                  | None => 0
                  end in
                Ok (update i (Page.set_level (level + 1)) store, wikitree)
            end
          else Ok (update i (Page.set_level 0) store, wikitree)
      | _, _ => Raise ValueError
      end
  end.

Fixpoint enrich_pages (users : dict pykey User.t) (index : dict pykey nat)
  (rows : list (nat * Page.t)) (st : state) : result state :=
  match rows with
  | [] => Ok st
  | (i, v) :: rest =>
      st' <- enrich_page users index i v st ;;
      enrich_pages users index rest st'
  end.

(** The body of the second loop, on a version row. *)
Definition enrich_version (users : dict pykey User.t)
  (index : dict pykey nat) (blobs : option (list Blob.t)) (v : Version.t)
  : result Version.t :=
  match blobs with
  | None => Raise (KeyError (KStr "wiki_page_blobs"))
  | Some bs =>
      match dict_get (Version.id v)
              (dict_of_pairs (map (fun b => (Blob.version_id b, b)) bs)) with
      | None => Raise (KeyError (Version.id v))
      | Some blob =>
          match dict_get (Version.wiki_page_id v) index with
          | None => Raise (KeyError (Version.wiki_page_id v))
          | Some page =>
              match dict_get (Version.user_id v) users with
              | None => Raise (KeyError (Version.user_id v))
              | Some user =>
                  match fromisoformat (Version.created_at v),
                        fromisoformat (Version.updated_at v) with
                  | Some c, Some u =>
                      Ok (Version.enriched (Blob.blob_id blob) page user c u v)
                  | _, _ => Raise ValueError
                  end
              end
          end
      end
  end.

Fixpoint enrich_versions (users : dict pykey User.t)
  (index : dict pykey nat) (blobs : option (list Blob.t))
  (vs : list Version.t) : result (list Version.t) :=
  match vs with
  | [] => Ok []
  | v :: rest =>
      v' <- enrich_version users index blobs v ;;
      rest' <- enrich_versions users index blobs rest ;;
      Ok (v' :: rest')
  end.

End Parser.

Section Traverse.

Variable position : nat -> Z.
Variable children : nat -> option (list nat).

(** The [for] loop of [_wikitraverse] over the sorted siblings; [recurse]
    is the nested generator. *)
Fixpoint visit (recurse : list nat -> option (list nat)) (vs : list nat)
  : option (list nat) :=
  match vs with
  | [] => Some []
  | v :: rest =>
      match children v with
      | Some kids =>
          match recurse kids, visit recurse rest with
          | Some sub, Some out => Some (v :: sub ++ out)
          | _, _ => None
          end
      | None =>
          match visit recurse rest with
          | Some out => Some (v :: out)
          | None => None
          end
      end
  end.

(** [list(_wikitraverse(tree))].  Every nested generator takes one unit of
    [fuel]; [None] means the nesting went deeper than [fuel]. *)
Fixpoint _wikitraverse (fuel : nat) (tree : list nat) : option (list nat) :=
  match fuel with
  | O => None
  | S fuel' => visit (_wikitraverse fuel') (sorted position tree)
  end.

End Traverse.

(** [wikiparser(data)]: the enriched page objects, the enriched version
    rows and the pages in presentation order, by reference. *)
Definition wikiparser (fromisoformat : string -> option Z) (data : Data)
  : result (list Page.t * list Version.t * list nat) :=
  match wiki_pages data with
  | None => Raise (KeyError (KStr "wiki_pages"))
  | Some pages =>
      let index := index_refs (map Page.id pages) in
      st <- enrich_pages fromisoformat (_users data) index
              (combine (seq 0 (List.length pages)) pages) (pages, []) ;;
      match wiki_page_versions data with
      | None => Raise (KeyError (KStr "wiki_page_versions"))
      | Some vs =>
          vs' <- enrich_versions fromisoformat (_users data) index
                   (wiki_page_blobs data) vs ;;
          match dict_get KNone (snd st) with
          | None => Raise (KeyError KNone)
          | Some roots =>
              match _wikitraverse (position_of (fst st)) (children_of st)
                      (S (List.length (fst st))) roots with
              | Some order => Ok (fst st, vs', order)
              | None => Raise RecursionError
              end
          end
      end
  end.

End Wiki.
Export Wiki.

(** ** The replay generator *)

(** The generator reads rows that [wikiparser] has enriched.  A page of
    [order] is read through [page_name], [status], [_created_at] and
    [_level]; a version through [version], [change_comment], [_updated_at],
    the page object [_wiki_page_id] refers to and the user object
    [_user_id]. *)
Module EPage.
Record t : Type := {
  page_name : string;
  status : pykey;
  _created_at : Z;
  _level : nat
}.
End EPage.

Module EVersion.
Record t : Type := {
  version : pykey;
  change_comment : pykey;
  _updated_at : Z;
  _wiki_page_id : EPage.t;
  _user_id : User.t
}.
End EVersion.

(** The dict a commit is yielded as. *)
Module Commit.
Record t : Type := {
  name : string;
  files : dict string string;
  author_name : pykey;
  author_email : pykey;
  date : Z;
  message : pykey
}.
End Commit.

Module Replay.

(** The enriched page object [r] of the store, by value. *)
Definition page_view (store : list Page.t) (r : nat) : option EPage.t :=
  match nth_error store r with
  | Some p =>
      match Page._created_at p, Page._level p with
      | Some c, Some l =>
          Some {| EPage.page_name := Page.page_name p;
                  EPage.status := Page.status p;
                  EPage._created_at := c;
                  EPage._level := l |}
      | _, _ => None
      end
  | None => None
  end.

Definition version_view (store : list Page.t) (v : Version.t)
  : option EVersion.t :=
  match Version._updated_at v, Version._wiki_page_id v, Version._user_id v with
  | Some u, Some r, Some a =>
      match page_view store r with
      | Some p =>
          Some {| EVersion.version := Version.version v;
                  EVersion.change_comment := Version.change_comment v;
                  EVersion._updated_at := u;
                  EVersion._wiki_page_id := p;
                  EVersion._user_id := a |}
      | None => None
      end
  | _, _, _ => None
  end.

Definition header : string := "**PortAudio**" +s+ nl.

(** One line of the index: the text appended to [out] for the page [v]. *)
Definition index_line (v : EPage.t) : string :=
  str_repeat "  " (EPage._level v) +s+ "* [[" +s+ EPage.page_name v +s+ "]]" +s+ nl.

(** [wikiindexproducer(index)] *)
Definition wikiindexproducer (index : list EPage.t) : string :=
  fold_left (fun out v => out +s+ index_line v) index header.

(** [a.get('name', a.get('id'))] *)
Definition display_name (a : User.t) : pykey :=
  match User.name a with
  | Some n => n
  | None => match User.id a with Some i => i | None => KNone end
  end.

Section Generator.

(** [str] of a datetime, as the f-string of [getwikiblob] formats it. *)
Variable datetime_str : Z -> string.

(** [getwikiblob(wikiobj)] *)
Definition getwikiblob (v : EVersion.t) : string :=
  let p := EVersion._wiki_page_id v in
  let a := EVersion._user_id v in
  let name := display_name a in
  nl +s+ "# " +s+ EPage.page_name p +s+ nl +s+ nl
  +s+ "This is revision " +s+ str (EVersion.version v) +s+ " by " +s+ str name
  +s+ " at " +s+ datetime_str (EVersion._updated_at v) +s+ "." +s+ nl +s+ nl
  +s+ "## Placeholder page" +s+ nl.

(** The predicate of the [filter] call: present at [now] and active. *)
Definition present_at (now : Z) (w : EPage.t) : bool :=
  (EPage._created_at w <=? now)%Z
  && (if eq_dec (EPage.status w) (KInt 1) then true else false).

(** The dict yielded for the version [v]. *)
Definition commit_of (order : list EPage.t) (v : EVersion.t) : Commit.t :=
  let p := EVersion._wiki_page_id v in
  let now := EVersion._updated_at v in
  let indexpages := filter (present_at now) order in
  let fname := EPage.page_name p +s+ ".md" in
  let author := EVersion._user_id v in
  {| Commit.name := EPage.page_name p +s+ ":" +s+ str (EVersion.version v);
     Commit.files :=
       dict_of_pairs
         [ ("_Sidebar.md"%string, wikiindexproducer indexpages);
           (fname, getwikiblob v) ];
     Commit.author_name := display_name author;
     Commit.author_email :=
       match User.email author with
       | Some e => e
       | None => KStr "none@localhost"
       end;
     Commit.date := now;
     Commit.message :=
       if truthy (EVersion.change_comment v)
       then EVersion.change_comment v
       else KStr EmptyString |}.

(** [list(wikicommitgenerator(wikiversions, order))] *)
Definition wikicommitgenerator (wikiversions : list EVersion.t)
  (order : list EPage.t) : list Commit.t :=
  map (commit_of order) (sorted EVersion._updated_at wikiversions).

End Generator.

End Replay.
Export Replay.

(** ** Timestamps for the examples *)

(** A reader and a printer for timestamps written [YYYY-MM-DD] or
    [YYYY-MM-DD], one separator character, [HH:MM:SS], both of which
    [datetime.fromisoformat] accepts.  The instant is counted in seconds
    from 1970-01-01.  They are used to run the examples; the definitions of
    the program take the library functions as parameters. *)
Module Iso.

Definition digits (n : nat) (s : string) : option (Z * string) :=
  (fix go (n : nat) (acc : Z) (s : string) : option (Z * string) :=
     match n with
     | O => Some (acc, s)
     | S n' =>
         match s with
         | String c s' =>
             match digit_of c with
             | Some d => go n' (10 * acc + d)%Z s'
             | None => None
             end
         | EmptyString => None
         end
     end) n 0%Z s.

Definition expect (c : ascii) (s : string) : option string :=
  match s with
  | String c' s' => if Ascii.eqb c c' then Some s' else None
  | EmptyString => None
  end.

Definition leap (y : Z) : bool :=
  ((y mod 4 =? 0) && negb (y mod 100 =? 0) || (y mod 400 =? 0))%Z.

Definition days_in_month (y m : Z) : Z :=
  if (m =? 2)%Z then (if leap y then 29 else 28)%Z
  else if ((m =? 4) || (m =? 6) || (m =? 9) || (m =? 11))%Z then 30%Z
  else 31%Z.

Definition days_from_civil (y m d : Z) : Z :=
  let y' := (if m <=? 2 then y - 1 else y)%Z in
  let era := (y' / 400)%Z in
  let yoe := (y' mod 400)%Z in
  let mp := ((m + 9) mod 12)%Z in
  let doy := ((153 * mp + 2) / 5 + d - 1)%Z in
  let doe := (yoe * 365 + yoe / 4 - yoe / 100 + doy)%Z in
  (era * 146097 + doe - 719468)%Z.

Definition parse_date (s : string) : option (Z * string) :=
  match digits 4 s with
  | Some (y, s1) =>
      match expect "-" s1 with
      | Some s2 =>
          match digits 2 s2 with
          | Some (m, s3) =>
              match expect "-" s3 with
              | Some s4 =>
                  match digits 2 s4 with
                  | Some (d, s5) =>
                      if ((1 <=? y) && (1 <=? m) && (m <=? 12) && (1 <=? d)
                          && (d <=? days_in_month y m))%Z
                      then Some (days_from_civil y m d, s5)
                      else None
                  | None => None
                  end
              | None => None
              end
          | None => None
          end
      | None => None
      end
  | None => None
  end.

Definition parse_time (s : string) : option Z :=
  match digits 2 s with
  | Some (h, s1) =>
      match expect ":" s1 with
      | Some s2 =>
          match digits 2 s2 with
          | Some (mi, s3) =>
              match expect ":" s3 with
              | Some s4 =>
                  match digits 2 s4 with
                  | Some (se, EmptyString) =>
                      if ((h <=? 23) && (mi <=? 59) && (se <=? 59))%Z
                      then Some (h * 3600 + mi * 60 + se)%Z
                      else None
                  | _ => None
                  end
              | None => None
              end
          | None => None
          end
      | None => None
      end
  | None => None
  end.

Definition fromisoformat (s : string) : option Z :=
  match parse_date s with
  | Some (days, EmptyString) => Some (days * 86400)%Z
  | Some (days, String _ rest) =>
      match parse_time rest with
      | Some secs => Some (days * 86400 + secs)%Z
      | None => None
      end
  | None => None
  end.

Definition pad (width : nat) (z : Z) : string :=
  let s := str_of_Z z in
  str_repeat "0" (width - String.length s) +s+ s.

(** [str(dt)] : the date, a space, the time. *)
Definition datetime_str (t : Z) : string :=
  let z := (t / 86400 + 719468)%Z in
  let secs := (t mod 86400)%Z in
  let era := (z / 146097)%Z in
  let doe := (z mod 146097)%Z in
  let yoe := ((doe - doe / 1460 + doe / 36524 - doe / 146096) / 365)%Z in
  let doy := (doe - (365 * yoe + yoe / 4 - yoe / 100))%Z in
  let mp := ((5 * doy + 2) / 153)%Z in
  let d := (doy - (153 * mp + 2) / 5 + 1)%Z in
  let m := (if mp <? 10 then mp + 3 else mp - 9)%Z in
  let y := (yoe + era * 400 + (if m <=? 2 then 1 else 0))%Z in
  pad 4 y +s+ "-" +s+ pad 2 m +s+ "-" +s+ pad 2 d +s+ " "
  +s+ pad 2 (secs / 3600) +s+ ":" +s+ pad 2 (secs mod 3600 / 60) +s+ ":"
  +s+ pad 2 (secs mod 60).

End Iso.

(** ** The document forest of the input, and sample tables *)

Module WikiWords.

(** The source fields of a row, and a row that has only those. *)
Definition source (v : Page.t) : Page.t :=
  Page.make (Page.id v) (Page.parent_id v) (Page.user_id v) (Page.status v)
    (Page.position v) (Page.page_name v) (Page.created_at v)
    (Page.updated_at v).

Definition fresh (v : Page.t) : Prop := source v = v.

(** [v['_children']] as stored, before it is followed. *)
Definition children_field (store : list Page.t) (r : nat) : option listref :=
  match nth_error store r with
  | Some p => Page._children p
  | None => None
  end.

(** The rows among the first [m] whose [parent_id] is [k], in file order. *)
Definition group (pages : list Page.t) (k : pykey) (m : nat) : list nat :=
  filter (fun j =>
            match nth_error pages j with
            | Some v => if eq_dec (Page.parent_id v) k then true else false
            | None => false
            end) (seq 0 m).

(** The parent of the page [c]: the row its [parent_id] is resolved to when
    that id is truthy; no parent otherwise. *)
Definition parent_of (pages : list Page.t) (c : nat) : option nat :=
  match nth_error pages c with
  | Some v =>
      if truthy (Page.parent_id v)
      then dict_get (Page.parent_id v) (index_refs (map Page.id pages))
      else None
  | None => None
  end.

(** [w] is a proper descendant of [v] in the forest of the parent links
    [parent]. *)
Inductive descendant (parent : nat -> option nat) : nat -> nat -> Prop :=
| descendant_child v c :
    parent c = Some v -> descendant parent v c
| descendant_step v c w :
    parent c = Some v -> descendant parent c w ->
    descendant parent v w.

(** The ancestor [k] links above [x]. *)
Fixpoint up (parent : nat -> option nat) (k x : nat) : option nat :=
  match k with
  | O => Some x
  | S k' =>
      match parent x with
      | Some p => up parent k' p
      | None => None
      end
  end.

(** The depth of a page below the pages [roots]. *)
Inductive depth (parent : nat -> option nat) (roots : list nat)
  : nat -> nat -> Prop :=
| depth_root c : In c roots -> depth parent roots c 0
| depth_kid v c d :
    depth parent roots v d -> parent c = Some v ->
    depth parent roots c (S d).

(** The list a page's [_children] refers to, empty when it has none. *)
Definition kids (children : nat -> option (list nat)) (v : nat) : list nat :=
  match children v with
  | Some l => l
  | None => []
  end.

(** [out] lays out the siblings [vs] in the given order, each followed by
    the layout of its children sorted by position. *)
Inductive Lay (position : nat -> Z) (children : nat -> option (list nat))
  : list nat -> list nat -> Prop :=
| Lay_nil : Lay position children [] []
| Lay_cons v vs sub rest :
    Lay position children (sorted position (kids children v)) sub ->
    Lay position children vs rest ->
    Lay position children (v :: vs) (v :: sub ++ rest).

(** The pages under the root key: those whose [parent_id] is [None]. *)
Definition is_root (pages : list Page.t) (c : nat) : Prop :=
  exists v, nth_error pages c = Some v /\ Page.parent_id v = KNone.

(** The object [r] of the store satisfies [Q]; a page that has its parsed
    dates; a page that has its level. *)
Definition holds (Q : Page.t -> Prop) (store : list Page.t) (r : nat) : Prop :=
  exists p, nth_error store r = Some p /\ Q p.

Definition dated (p : Page.t) : Prop :=
  Page._created_at p <> None /\ Page._updated_at p <> None.

Definition levelled (p : Page.t) : Prop := Page._level p <> None.

(** Sample tables. *)
Definition bob : User.t :=
  {| User.id := Some (KStr "u1"); User.name := None; User.email := None |}.

Definition sample_users : dict pykey User.t := [(KStr "u1", bob)].

Definition page (i : Z) (parent : pykey) (pos : Z) : Page.t :=
  Page.make (KInt i) parent (KStr "u1") (KInt 1) pos "Title" "2020-01-01"
    "2020-01-02T10:00:00".

Definition data_of (pages : list Page.t) : Data :=
  {| wiki_pages := Some pages; wiki_page_versions := Some [];
     wiki_page_blobs := None; _users := sample_users |}.

(** A grandchild, its parent and the root, in that file order. *)
Definition child_first : list Page.t :=
  [page 3 (KInt 2) 0; page 2 (KInt 1) 0; page 1 KNone 0].

(** The same pages, parents first. *)
Definition parent_first : list Page.t :=
  [page 1 KNone 0; page 2 (KInt 1) 0; page 3 (KInt 2) 0].


(** A forest: roots 1 and 4, children 2 and 3 of 1, child 5 of 3. *)
Definition forest : list Page.t :=
  [page 1 KNone 5; page 2 (KInt 1) 3; page 3 (KInt 1) 1; page 4 KNone 2;
   page 5 (KInt 3) 0].

End WikiWords.
Export WikiWords.

(** ** Sample export lines *)

Module SampleLines.

Definition dq : string := String (ascii_of_nat 34) EmptyString.

(** A JSON string literal. *)
Definition q (s : string) : string := dq +s+ s +s+ dq.

(** [wiki_pages:fields, ["id","parent_id","position"]] *)
Definition schema_line : string :=
  "wiki_pages:fields, [" +s+ q "id" +s+ "," +s+ q "parent_id" +s+ ","
  +s+ q "position" +s+ "]".

Definition wiki_fields : json :=
  JArr [JStr "id"; JStr "parent_id"; JStr "position"].

(** [tickets:fields, ["summary"]] and a ticket whose summary mentions the
    table name: [tickets, ["move tickets, then close"]] *)
Definition tickets_schema : string := "tickets:fields, [" +s+ q "summary" +s+ "]".

Definition ticket_line : string :=
  "tickets, [" +s+ q "move tickets, then close" +s+ "]".

End SampleLines.
Export SampleLines.

(** ** The replay generator in the words of the specification, and sample rows *)

Module ReplayWords.

(** The index as the specification words it: the header, then one line per
    page of [order] that was created at or before [now] and whose status is
    1, each indented by two spaces per level and linking the page title.
    The text is spelled out character by character: a line is twice as
    many spaces as the level, the link, and the line feed (character 10);
    the header is the title and the line feed. *)
Definition spec_active (now : Z) (w : EPage.t) : bool :=
  (EPage._created_at w <=? now)%Z
  && match EPage.status w with KInt 1 => true | _ => false end.

Definition spec_line (w : EPage.t) : string :=
  string_of_list_ascii (repeat " "%char (2 * EPage._level w))
  +s+ "* [[" +s+ EPage.page_name w +s+ "]]" +s+ String "010"%char EmptyString.

Definition spec_index (now : Z) (order : list EPage.t) : string :=
  ("**PortAudio**" +s+ String "010"%char EmptyString)
  +s+ fold_right String.append EmptyString
        (map spec_line (filter (spec_active now) order)).

(** Sample rows: three pages and three versions. *)
Definition alice : User.t :=
  {| User.id := Some (KStr "u1"); User.name := Some (KStr "Alice");
     User.email := None |}.

Definition home : EPage.t :=
  {| EPage.page_name := "Home"; EPage.status := KInt 1;
     EPage._created_at := 100; EPage._level := 0 |}.

Definition build : EPage.t :=
  {| EPage.page_name := "Build"; EPage.status := KInt 1;
     EPage._created_at := 200; EPage._level := 1 |}.

Definition old : EPage.t :=
  {| EPage.page_name := "Old"; EPage.status := KInt 2;
     EPage._created_at := 100; EPage._level := 1 |}.

Definition sample_order : list EPage.t := [home; build; old].

Definition rev_of (p : EPage.t) (n t : Z) : EVersion.t :=
  {| EVersion.version := KInt n; EVersion.change_comment := KNone;
     EVersion._updated_at := t; EVersion._wiki_page_id := p;
     EVersion._user_id := alice |}.

Definition sample_versions : list EVersion.t :=
  [rev_of build 1 200; rev_of home 2 200; rev_of home 1 100].

End ReplayWords.
Export ReplayWords.

(** ** The rest of the pipeline of [main] *)

(** [main] collects the yielded rows per table, indexes them and scrapes the
    users; [transpose] prepares rows for printing. *)
Module Pipeline.

(** [old] occurs somewhere in [s]. *)
Fixpoint occurs (old s : string) : bool :=
  String.prefix old s
  || match s with
     | EmptyString => false
     | String _ s' => occurs old s'
     end.

(** The body of the reading loop of [main]:
    [data.setdefault(table, [])] then [data.get(table).append(row)]. *)
Definition store_row (data : dict string (list Row))
  (item : nat * string * string * Row) : dict string (list Row) :=
  let '(_, _, table, row) := item in
  let data := dict_setdefault table [] data in
  dict_set table
    (match dict_get table data with Some l => l | None => [] end ++ [row])
    data.

Definition snapshot (items : list (nat * string * string * Row))
  : dict string (list Row) :=
  fold_left store_row items [].

(** Truth value testing on a decoded value, as in [if not uid]. *)
Definition json_truthy (x : json) : bool :=
  match x with
  | JNull => false
  | JBool b => b
  | JInt z => negb (Z.eqb z 0)
  | JStr s => negb (String.eqb s EmptyString)
  | JArr l => match l with [] => false | _ => true end
  end.

(** A value of the dict [scrapeusers] returns: the user fields the
    replay generator reads, and the set under the key [tables], absent
    until the user is met in a table. *)
Record scraped : Type := {
  user : User.t;
  tables : option (list string)
}.

(** [s.add(table)] on a set kept as a list without repetition. *)
Definition set_add (table : string) (s : list string) : list string :=
  if in_dec string_dec table s then s else s ++ [table].

(** [u.setdefault('id', uid)] *)
Definition setdefault_id (k : pykey) (u : User.t) : User.t :=
  match User.id u with
  | Some _ => u
  | None => {| User.id := Some k; User.name := User.name u;
               User.email := User.email u |}
  end.

(** The body of the inner loop of [scrapeusers] on the row [v]. *)
Definition scrape_row (table : string) (users : dict pykey scraped) (v : Row)
  : result (dict pykey scraped) :=
  match dict_get (KStr "user_id") v with
  | None => Ok users
  | Some uid =>
      if json_truthy uid then
        match key_of_json uid with
        | None => Raise TypeError
        | Some k =>
            let u :=
              match dict_get k users with
              | Some u => u
              | None =>
                  {| user := {| User.id := None; User.name := None;
                                User.email := None |};
                     tables := None |}
              end in
            Ok (dict_set k
                  {| user := setdefault_id k (user u);
                     tables :=
                       Some (set_add table
                               (match tables u with
                                | Some s => s
                                | None => []
                                end)) |}
                  users)
        end
      else Ok users
  end.

Fixpoint scrape_rows (table : string) (users : dict pykey scraped)
  (entries : list Row) : result (dict pykey scraped) :=
  match entries with
  | [] => Ok users
  | v :: rest =>
      users' <- scrape_row table users v ;;
      scrape_rows table users' rest
  end.

Fixpoint scrape_tables (users : dict pykey scraped)
  (items : list (string * list Row)) : result (dict pykey scraped) :=
  match items with
  | [] => Ok users
  | (table, entries) :: rest =>
      if startswith table "_" then scrape_tables users rest
      else
        users' <- scrape_rows table users entries ;;
        scrape_tables users' rest
  end.

(** [scrapeusers(data)]; [assembla_userid] is the module constant
    [ASSEMBLA_USERID], whose entries are copied first. *)
Definition scrapeusers (assembla_userid : dict pykey User.t)
  (data : dict string (list Row)) : result (dict pykey scraped) :=
  scrape_tables
    (map (fun kv => (fst kv, {| user := snd kv; tables := None |}))
       assembla_userid)
    data.

(** [v.get(k)]: [None] for a missing key. *)
Definition get_cell (v : Row) (k : pykey) : json :=
  match dict_get k v with
  | Some x => x
  | None => JNull
  end.

(** One step of [zip] over the unpacked rows: the first element of every row, if every row
    has one. *)
Fixpoint heads {A} (rows : list (list A)) : option (list A) :=
  match rows with
  | [] => Some []
  | r :: rest =>
      match r, heads rest with
      | x :: _, Some hs => Some (x :: hs)
      | _, _ => None
      end
  end.

Fixpoint zip_star_go {A} (fuel : nat) (rows : list (list A)) : list (list A) :=
  match fuel with
  | O => []
  | S fuel' =>
      match heads rows with
      | Some hs => hs :: zip_star_go fuel' (map (@tl A) rows)
      | None => []
      end
  end.

(** [list(map(list, zip( *rows)))]: it stops at the shortest row, so the
    length of the first row bounds it. *)
Definition zip_star {A} (rows : list (list A)) : list (list A) :=
  match rows with
  | [] => []
  | r :: _ => zip_star_go (List.length r) rows
  end.

(** [{k: transposed[i] for i, k in enumerate(keys)}]; [None] stands for the
    [IndexError] of [transposed[i]]. *)
Fixpoint enumerate_columns (transposed : list (list json)) (i : nat)
  (keys : list pykey) (acc : dict pykey (list json))
  : option (dict pykey (list json)) :=
  match keys with
  | [] => Some acc
  | k :: rest =>
      match nth_error transposed i with
      | Some column => enumerate_columns transposed (S i) rest (dict_set k column acc)
      | None => None
      end
  end.

(** [transpose(data, keys)] on a list of rows; the empty list of keys
    stands for [keys=None] as well, both being falsy. *)
Definition transpose (data : list Row) (keys : list pykey)
  : option (dict pykey (list json)) :=
  match data with
  | [] => Some []
  | first :: _ =>
      let keys := match keys with [] => map fst first | _ => keys end in
      let rawlist := map (fun v => map (get_cell v) keys) data in
      enumerate_columns (zip_star rawlist) 0 keys []
  end.

(** The keys [transpose] works with: the ones given, or the keys of the
    first row when none is given. *)
Definition columns_of (data : list Row) (keys : list pykey) : list pykey :=
  match keys, data with
  | [], first :: _ => map fst first
  | _, _ => keys
  end.

(** [DictPlus.find(table, id, default)] on the index [self['_index']].
    The argument [default] is [None] when it is omitted (or is the
    sentinel string the parameter defaults to) and [Some d] when the value
    [d] is given, [d = None] being Python's [None]; so is the result. *)
Definition find {V} (index : dict string (dict pykey V)) (table : string)
  (id : pykey) (default : option (option V)) : result (option V) :=
  match dict_get table index with
  | None => Raise (KeyError (KStr table))
  | Some m =>
      match default with
      | Some d =>
          Ok (match dict_get id m with Some v => Some v | None => d end)
      | None =>
          match dict_get id m with
          | Some v => Ok (Some v)
          | None => Raise (KeyError id)
          end
      end
  end.

(** The declaration a raw line makes: the table and the decoded field
    list of a line that [:fields, ] splits in two. *)
Definition declaration (json_loads : string -> option json)
  (rawline : string) : option (string * json) :=
  match split ":fields, " (clean rawline) with
  | [key; payload] =>
      match json_loads payload with
      | Some schema => Some (key, schema)
      | None => None
      end
  | _ => None
  end.

(** The declarations of a file, in file order. *)
Definition declarations (json_loads : string -> option json)
  (lines : list string) : list (string * json) :=
  flat_map (fun rawline =>
              match declaration json_loads rawline with
              | Some d => [d]
              | None => []
              end) lines.

(** Sample rows with users. *)
Definition ticket (i : Z) (uid : json) : Row :=
  [(KStr "id", JInt i); (KStr "user_id", uid)].

Definition scrape_data : dict string (list Row) :=
  [ ("tickets"%string, [ticket 1 (JStr "u1"); ticket 2 JNull]);
    ("_private"%string, [ticket 3 (JStr "u9")]);
    ("wiki_pages"%string, [ticket 4 (JStr "u1"); ticket 5 (JStr "u2")]) ].

(** The rows yielded for [table], in the order of the file. *)
Definition rows_of (table : string)
  (items : list (nat * string * string * Row)) : list Row :=
  map snd
    (filter (fun item => if string_dec (snd (fst item)) table then true else false)
       items).

(** The tables recorded for a scraped user. *)
Definition tables_of (u : scraped) : list string :=
  match tables u with
  | Some s => s
  | None => []
  end.

(** What a later state of an entry keeps of an earlier one. *)
Definition keeps (u u' : scraped) : Prop :=
  User.name (user u') = User.name (user u)
  /\ User.email (user u') = User.email (user u)
  /\ (User.id (user u) <> None -> User.id (user u') = User.id (user u))
  /\ (forall t, In t (tables_of u) -> In t (tables_of u')).

(** Every user of [users] satisfies [B] or has nothing but an [id], its
    key, and a set of tables. *)
Definition bare_unless (B : pykey -> Prop) (users : dict pykey scraped)
  : Prop :=
  forall k u, dict_get k users = Some u ->
    B k
    \/ (user u = {| User.id := Some k; User.name := None; User.email := None |}
        /\ tables u <> None).

(** The row [v] of a table that is not private names the user [k]. *)
Definition names_user (data : dict string (list Row)) (table : string)
  (k : pykey) : Prop :=
  exists entries v uid,
    In (table, entries) data
    /\ startswith table "_" = false
    /\ In v entries
    /\ dict_get (KStr "user_id") v = Some uid
    /\ json_truthy uid = true
    /\ key_of_json uid = Some k.

End Pipeline.
Export Pipeline.

(** ** Outcomes of the tree builder *)

Module WikiOutcome.

(** What the body of the first loop of [wikiparser] raises on the row [v]:
    the user is looked up first, then the two dates are parsed, then a
    truthy [parent_id] is resolved. *)
Definition page_error (fromisoformat : string -> option Z)
  (users : dict pykey User.t) (index : dict pykey nat) (v : Page.t)
  : option exn :=
  match dict_get (Page.user_id v) users with
  | None => Some (KeyError (Page.user_id v))
  | Some _ =>
      match fromisoformat (Page.created_at v),
            fromisoformat (Page.updated_at v) with
      | Some _, Some _ =>
          if truthy (Page.parent_id v) then
            match dict_get (Page.parent_id v) index with
            | None => Some (KeyError (Page.parent_id v))
            | Some _ => None
            end
          else None
      | _, _ => Some ValueError
      end
  end.

(** The error of the first row that has one. *)
Fixpoint first_error (fromisoformat : string -> option Z)
  (users : dict pykey User.t) (index : dict pykey nat) (pages : list Page.t)
  : option exn :=
  match pages with
  | [] => None
  | v :: rest =>
      match page_error fromisoformat users index v with
      | Some e => Some e
      | None => first_error fromisoformat users index rest
      end
  end.

(** The pages whose parent is the page [v], in file order. *)
Definition kids_of (pages : list Page.t) (v : nat) : list nat :=
  filter (fun c =>
            match parent_of pages c with
            | Some p => p =? v
            | None => false
            end) (seq 0 (List.length pages)).

(** The users [scrapeusers] returns, as the objects [wikiparser] looks
    up. *)
Definition plain_users (users : dict pykey scraped) : dict pykey User.t :=
  map (fun kv => (fst kv, user (snd kv))) users.

(** A page whose user is unknown, after a page that is in order. *)
Definition unknown_user : list Page.t :=
  [ page 1 KNone 0;
    Page.make (KInt 2) (KInt 1) (KStr "nobody") (KInt 1) 0 "Title"
      "2020-01-01" "2020-01-02" ].

(** A root, a page whose [parent_id] is 0 and a page that names itself as
    parent. *)
Definition orphans : list Page.t :=
  [page 1 KNone 0; page 2 (KInt 0) 0; page 3 (KInt 3) 0].

(** Two revisions of the page 2 of [parent_first], with their blobs. *)
Definition revisions : list Version.t :=
  [ Version.make (KInt 11) (KInt 2) (KStr "u1") (KInt 2) KNone
      "2020-01-01" "2020-01-03";
    Version.make (KInt 10) (KInt 2) (KStr "u1") (KInt 1) (KStr "first")
      "2020-01-01" "2020-01-02" ].

Definition revision_blobs : list Blob.t :=
  [ {| Blob.version_id := KInt 10; Blob.blob_id := KStr "b10" |};
    {| Blob.version_id := KInt 11; Blob.blob_id := KStr "b11" |} ].

Definition revised : Data :=
  {| wiki_pages := Some parent_first;
     wiki_page_versions := Some revisions;
     wiki_page_blobs := Some revision_blobs;
     _users := sample_users |}.

(** A page without user, and the data [scrapeusers] sees it in. *)
Definition anonymous : list Page.t :=
  [ Page.make (KInt 1) KNone KNone (KInt 1) 0 "Title" "2020-01-01"
      "2020-01-02" ].

Definition anonymous_rows : dict string (list Row) :=
  [ ("wiki_pages"%string,
     [[(KStr "id", JInt 1); (KStr "user_id", JNull)]]) ].

(** The order of the siblings in a traversal: by position, and by place
    in the file for equal positions. *)
Definition before (position : nat -> Z) (a b : nat) : Prop :=
  (position a < position b)%Z \/ (position a = position b /\ a < b).

(** Three roots of position 1, 0 and 1. *)
Definition tied : list Page.t :=
  [page 1 KNone 1; page 2 KNone 0; page 3 KNone 1].

End WikiOutcome.
Export WikiOutcome.

(* ====================================================================== *)
(** * Part II: properties                                                 *)
(* ====================================================================== *)

(** ** Facts about the built-ins *)

Module PyFacts.

Lemma append_assoc (a b c : string) : (a +s+ b) +s+ c = a +s+ (b +s+ c).
Proof. induction a as [|x a IH]; simpl; [reflexivity | now rewrite IH]. Qed.

Lemma append_nil_r (a : string) : a +s+ EmptyString = a.
Proof. induction a as [|x a IH]; simpl; [reflexivity | now rewrite IH]. Qed.

Section DictFacts.
Context {K V : Type} `{EqDec K}.

Lemma dict_get_set_eq (k : K) (v : V) (d : dict K V) :
  dict_get k (dict_set k v d) = Some v.
Proof.
  induction d as [|[k' v'] d IH]; simpl.
  - destruct (eq_dec k k); congruence.
  - destruct (eq_dec k k') as [->|Hne]; simpl.
    + destruct (eq_dec k' k'); congruence.
    + destruct (eq_dec k k'); [contradiction | exact IH].
Qed.

Lemma dict_get_set_ne (k k' : K) (v : V) (d : dict K V) :
  k <> k' -> dict_get k' (dict_set k v d) = dict_get k' d.
Proof.
  intros Hne. induction d as [|[k0 v0] d IH]; simpl.
  - destruct (eq_dec k' k); congruence.
  - destruct (eq_dec k k0) as [->|Hk]; simpl.
    + destruct (eq_dec k' k0); congruence.
    + destruct (eq_dec k' k0); [reflexivity | exact IH].
Qed.

Lemma dict_get_set (k k' : K) (v : V) (d : dict K V) :
  dict_get k' (dict_set k v d) =
  if eq_dec k k' then Some v else dict_get k' d.
Proof.
  destruct (eq_dec k k') as [->|Hne].
  - apply dict_get_set_eq.
  - now apply dict_get_set_ne.
Qed.

Lemma dict_get_fold_set (k : K) (pairs : list (K * V)) (d : dict K V) :
  dict_get k (fold_left (fun d kv => dict_set (fst kv) (snd kv) d) pairs d) =
  match last_binding k pairs with
  | Some v => Some v
  | None => dict_get k d
  end.
Proof.
  revert d. induction pairs as [|[k' v] rest IH]; intros d; simpl.
  - reflexivity.
  - rewrite IH. destruct (last_binding k rest); [reflexivity|].
    rewrite dict_get_set. now destruct (eq_dec k' k).
Qed.

Lemma dict_get_of_pairs (k : K) (pairs : list (K * V)) :
  dict_get k (dict_of_pairs pairs) = last_binding k pairs.
Proof.
  unfold dict_of_pairs. rewrite dict_get_fold_set.
  now destruct (last_binding k pairs).
Qed.

Lemma last_binding_None (k : K) (pairs : list (K * V)) :
  last_binding k pairs = None <-> ~ In k (map fst pairs).
Proof.
  induction pairs as [|[k' v] rest IH]; simpl.
  - tauto.
  - destruct (last_binding k rest) eqn:E.
    + split; [discriminate|]. intros Hn. exfalso.
      assert (Hx : ~ In k (map fst rest)) by tauto.
      apply IH in Hx. discriminate.
    + destruct (eq_dec k' k) as [->|Hne].
      * split; [discriminate | tauto].
      * split; [|reflexivity]. intros _ [Hk|Hk]; [congruence|].
        now apply (proj1 IH).
Qed.

(** Position-wise reading of [last_binding] on zipped keys and values. *)
Lemma last_binding_combine (k : K) (keys : list K) (vals : list V)
  (i : nat) (v : V) :
  nth_error keys i = Some k ->
  nth_error vals i = Some v ->
  (forall j, i < j -> nth_error keys j <> Some k) ->
  last_binding k (combine keys vals) = Some v.
Proof.
  revert vals i. induction keys as [|k0 keys IH]; intros vals i Hk Hv Hlast.
  - destruct i; discriminate.
  - destruct vals as [|v0 vals]; [destruct i; discriminate|].
    destruct i as [|i]; simpl in *.
    + injection Hk as ->. injection Hv as ->.
      assert (Hn : last_binding k (combine keys vals) = None).
      { apply last_binding_None. intros Hin.
        apply in_map_iff in Hin. destruct Hin as [[k1 v1] [Hf Hin]].
        simpl in Hf. subst k1. apply in_combine_l in Hin.
        apply In_nth_error in Hin. destruct Hin as [j Hj].
        apply (Hlast (S j)); [lia | exact Hj]. }
      rewrite Hn. destruct (eq_dec k k); congruence.
    + rewrite (IH vals i Hk Hv); [reflexivity|].
      intros j Hj. apply (Hlast (S j)). lia.
Qed.

Lemma last_binding_combine_inv (k : K) (keys : list K) (vals : list V)
  (v : V) :
  last_binding k (combine keys vals) = Some v ->
  exists i, nth_error keys i = Some k /\ nth_error vals i = Some v /\
            (forall j, i < j -> j < List.length vals -> nth_error keys j <> Some k).
Proof.
  revert vals. induction keys as [|k0 keys IH]; intros vals Hl.
  - discriminate.
  - destruct vals as [|v0 vals]; [discriminate|]. simpl in Hl.
    destruct (last_binding k (combine keys vals)) eqn:E.
    + injection Hl as ->. destruct (IH vals E) as [i [Hk [Hv Hlast]]].
      exists (S i). repeat split; auto.
      intros [|j] Hj Hlen; [lia|]. simpl. apply Hlast; simpl in Hlen; lia.
    + destruct (eq_dec k0 k) as [->|Hne]; [|discriminate].
      injection Hl as ->. exists 0. repeat split; auto.
      intros [|j] Hj Hlen; [lia|]. simpl. intros Hkj.
      apply last_binding_None in E. apply E.
      simpl in Hlen.
      destruct (nth_error vals j) as [w|] eqn:Ew.
      * apply in_map_iff. exists (k, w). split; [reflexivity|].
        clear - Hkj Ew. revert vals j Hkj Ew.
        induction keys as [|a keys IHk]; intros vals j Hkj Ew;
          [destruct j; discriminate|].
        destruct vals as [|b vals]; [destruct j; discriminate|].
        destruct j as [|j]; simpl in *.
        -- left. congruence.
        -- right. eapply IHk; eauto.
      * apply nth_error_None in Ew. lia.
Qed.

End DictFacts.

Section SortedFacts.
Context {A : Type} (key : A -> Z).

Lemma insert_sorted_perm (x : A) (l : list A) :
  Permutation (insert_sorted key x l) (x :: l).
Proof.
  induction l as [|y l IH]; simpl.
  - apply Permutation_refl.
  - destruct (key x <=? key y)%Z.
    + apply Permutation_refl.
    + eapply Permutation_trans; [apply perm_skip, IH | apply perm_swap].
Qed.

Lemma sorted_perm (l : list A) : Permutation (sorted key l) l.
Proof.
  induction l as [|x l IH]; simpl.
  - apply perm_nil.
  - eapply Permutation_trans; [apply insert_sorted_perm|].
    now apply perm_skip.
Qed.

Lemma sorted_In (l : list A) (x : A) : In x (sorted key l) <-> In x l.
Proof.
  split; apply Permutation_in;
    [apply sorted_perm | apply Permutation_sym, sorted_perm].
Qed.

Lemma sorted_length (l : list A) : List.length (sorted key l) = List.length l.
Proof. apply Permutation_length, sorted_perm. Qed.

Local Abbreviation key_le := (Py.key_le key).

Lemma insert_sorted_ordered (x : A) (l : list A) :
  StronglySorted key_le l -> StronglySorted key_le (insert_sorted key x l).
Proof.
  induction l as [|y l IH]; intros Hs; simpl.
  - constructor; [constructor | constructor].
  - destruct (key x <=? key y)%Z eqn:E.
    + apply Z.leb_le in E. constructor; [exact Hs|].
      apply StronglySorted_inv in Hs. destruct Hs as [_ Hall].
      constructor; [exact E|].
      eapply Forall_impl; [|exact Hall]. unfold Py.key_le. intros a Ha. lia.
    + apply Z.leb_gt in E.
      apply StronglySorted_inv in Hs. destruct Hs as [Hs Hall].
      constructor; [now apply IH|].
      rewrite Forall_forall. intros a Ha.
      apply (Permutation_in _ (insert_sorted_perm x l)) in Ha.
      destruct Ha as [<-|Ha]; [unfold Py.key_le; lia|].
      rewrite Forall_forall in Hall. now apply Hall.
Qed.

Lemma sorted_ordered (l : list A) : StronglySorted key_le (sorted key l).
Proof.
  induction l as [|x l IH]; simpl; [constructor|].
  now apply insert_sorted_ordered.
Qed.

(** Stability: an insertion passes only over elements of smaller key. *)
Lemma insert_sorted_filter (t : Z) (x : A) (l : list A) :
  filter (fun a => (key a =? t)%Z) (insert_sorted key x l) =
  filter (fun a => (key a =? t)%Z) (x :: l).
Proof.
  induction l as [|y l IH]; [reflexivity|].
  simpl insert_sorted. destruct (key x <=? key y)%Z eqn:E; [reflexivity|].
  apply Z.leb_gt in E. simpl in *. rewrite IH.
  destruct (key x =? t)%Z eqn:Ex, (key y =? t)%Z eqn:Ey; try reflexivity.
  apply Z.eqb_eq in Ex, Ey. lia.
Qed.

Lemma sorted_stable (t : Z) (l : list A) :
  filter (fun a => (key a =? t)%Z) (sorted key l) =
  filter (fun a => (key a =? t)%Z) l.
Proof.
  induction l as [|x l IH]; [reflexivity|].
  simpl sorted. rewrite insert_sorted_filter. simpl. now rewrite IH.
Qed.

End SortedFacts.

Lemma filter_map_comm {A B} (f : A -> B) (p : B -> bool) (l : list A) :
  filter p (map f l) = map f (filter (fun a => p (f a)) l).
Proof.
  induction l as [|x l IH]; simpl; [reflexivity|].
  destruct (p (f x)); simpl; now rewrite IH.
Qed.

Lemma StronglySorted_map {A B} (f : A -> B) (R : B -> B -> Prop)
  (l : list A) :
  StronglySorted (fun a b => R (f a) (f b)) l -> StronglySorted R (map f l).
Proof.
  induction 1 as [|a l Hs IH Hall]; simpl; constructor; auto.
  rewrite Forall_forall in *. intros b Hb.
  apply in_map_iff in Hb. destruct Hb as [a' [<- Ha']]. now apply Hall.
Qed.

End PyFacts.
Import PyFacts.

(** ** The replay generator *)

Module ReplaySpec.

Lemma present_at_spec (now : Z) (w : EPage.t) :
  present_at now w = spec_active now w.
Proof.
  unfold present_at, spec_active. f_equal.
  destruct (eq_dec (EPage.status w) (KInt 1)) as [->|Hne]; [reflexivity|].
  destruct (EPage.status w) as [|z|s]; try reflexivity.
  destruct z as [|p|p]; try reflexivity.
  destruct p; try reflexivity. congruence.
Qed.

Lemma wikiindexproducer_fold (index : list EPage.t) (out : string) :
  fold_left (fun out v => out +s+ index_line v) index out =
  out +s+ fold_right String.append EmptyString (map index_line index).
Proof.
  revert out. induction index as [|v index IH]; intros out; simpl.
  - now rewrite append_nil_r.
  - rewrite IH. now rewrite append_assoc.
Qed.

(** The code's line feed and indentation, character by character. *)
Lemma nl_is_line_feed : nl = String "010"%char EmptyString.
Proof. reflexivity. Qed.

Lemma str_repeat_two_spaces (n : nat) :
  str_repeat "  " n = string_of_list_ascii (repeat " "%char (2 * n)).
Proof.
  induction n as [|n IH]; [reflexivity|].
  replace (2 * S n) with (S (S (2 * n))) by lia.
  simpl str_repeat. rewrite IH. reflexivity.
Qed.

Lemma index_line_spec (v : EPage.t) : index_line v = spec_line v.
Proof.
  unfold index_line, spec_line.
  now rewrite str_repeat_two_spaces, nl_is_line_feed.
Qed.

Lemma wikiindexproducer_spec (now : Z) (order : list EPage.t) :
  wikiindexproducer (filter (present_at now) order) = spec_index now order.
Proof.
  unfold wikiindexproducer, spec_index, header.
  rewrite wikiindexproducer_fold, nl_is_line_feed. f_equal.
  rewrite (filter_ext _ _ (present_at_spec now)).
  now rewrite (map_ext _ _ index_line_spec).
Qed.

(** C1. The commits come in non-decreasing order of their date over the
    whole generated sequence; the commits of one date are those of the
    versions of that date in their input order; and there is one commit
    per version. *)
Theorem C1_replay_nondecreasing_stable (datetime_str : Z -> string)
  (wikiversions : list EVersion.t) (order : list EPage.t) :
  let commits := wikicommitgenerator datetime_str wikiversions order in
  StronglySorted Z.le (map Commit.date commits)
  /\ (forall t,
        filter (fun c => (Commit.date c =? t)%Z) commits =
        map (commit_of datetime_str order)
          (filter (fun v => (EVersion._updated_at v =? t)%Z) wikiversions))
  /\ Permutation commits (map (commit_of datetime_str order) wikiversions).
Proof.
  unfold wikicommitgenerator. cbv zeta. repeat split.
  - rewrite map_map. simpl. apply StronglySorted_map.
    apply (sorted_ordered EVersion._updated_at).
  - intros t. rewrite filter_map_comm. simpl. f_equal.
    apply sorted_stable.
  - apply Permutation_map. apply sorted_perm.
Qed.

(** C6. Every commit belongs to a version; its files are the dict display
    whose first entry binds [_Sidebar.md] to the index of the pages present
    and active at the date of that commit, and whose second entry is the
    page body; the index is looked up under [_Sidebar.md] unless the page
    itself is titled [_Sidebar].  The index is the text [spec_index]
    spells out: the header line, then, for each page of the order created
    at or before the date of the commit and of status 1, in that order,
    one line of two spaces per level, the link to the title and a line
    feed. *)
Theorem C6_index_artifact (datetime_str : Z -> string)
  (wikiversions : list EVersion.t) (order : list EPage.t) (c : Commit.t) :
  In c (wikicommitgenerator datetime_str wikiversions order) ->
  exists v,
    In v wikiversions
    /\ Commit.date c = EVersion._updated_at v
    /\ Commit.files c =
       dict_of_pairs
         [ ("_Sidebar.md"%string, spec_index (Commit.date c) order);
           (EPage.page_name (EVersion._wiki_page_id v) +s+ ".md",
            getwikiblob datetime_str v) ]
    /\ (EPage.page_name (EVersion._wiki_page_id v) +s+ ".md"
          <> "_Sidebar.md"%string ->
        dict_get "_Sidebar.md"%string (Commit.files c) =
        Some (spec_index (Commit.date c) order)).
Proof.
  intros Hin. unfold wikicommitgenerator in Hin.
  apply in_map_iff in Hin. destruct Hin as [v [<- Hv]].
  apply sorted_In in Hv. exists v.
  assert (Hfiles :
    Commit.files (commit_of datetime_str order v) =
    dict_of_pairs
      [ ("_Sidebar.md"%string, spec_index (EVersion._updated_at v) order);
        (EPage.page_name (EVersion._wiki_page_id v) +s+ ".md",
         getwikiblob datetime_str v) ]).
  { simpl. now rewrite wikiindexproducer_spec. }
  repeat split; try assumption; try reflexivity.
  intros Hne. simpl Commit.date. rewrite Hfiles.
  rewrite dict_get_of_pairs. simpl.
  destruct (eq_dec _ "_Sidebar.md"%string) as [E|_]; [contradiction|].
  destruct (eq_dec "_Sidebar.md"%string "_Sidebar.md"%string); congruence.
Qed.

Lemma C6_index_artifact_witness :
  exists v,
    In v sample_versions
    /\ Commit.date (commit_of Iso.datetime_str sample_order (rev_of home 2 200))
       = EVersion._updated_at v
    /\ dict_get "_Sidebar.md"%string
         (Commit.files (commit_of Iso.datetime_str sample_order (rev_of home 2 200)))
       = Some ("**PortAudio**"
               +s+ String "010"%char
                     ("* [[Home]]"
                      +s+ String "010"%char
                            ("  * [[Build]]"
                             +s+ String "010"%char EmptyString)))
    /\ dict_get "_Sidebar.md"%string
         (Commit.files (commit_of Iso.datetime_str sample_order (rev_of home 1 100)))
       = Some ("**PortAudio**"
               +s+ String "010"%char
                     ("* [[Home]]" +s+ String "010"%char EmptyString)).
Proof.
  destruct (C6_index_artifact Iso.datetime_str sample_versions sample_order
              (commit_of Iso.datetime_str sample_order (rev_of home 2 200)))
    as [v [Hin [Hd [_ Hget]]]].
  - vm_compute. auto 10.
  - exists v. split; [exact Hin|]. split; [exact Hd|]. split.
    + rewrite Hget; [reflexivity|]. rewrite Hd in *. clear Hget.
      destruct Hin as [<-|[<-|[<-|[]]]]; vm_compute; discriminate.
    + reflexivity.
Defined.

End ReplaySpec.

(** ** The line interpreter *)

Module LinesSpec.

Section WithDecoder.
Variable json_loads : string -> option json.

Lemma zip_to_dict_fields (S : list string) (V : list json) (acc : Row) :
  zip_to_dict (combine (map JStr S) V) acc =
  Ok (fold_left (fun d kv => dict_set (fst kv) (snd kv) d)
        (combine (map KStr S) V) acc).
Proof.
  revert V acc. induction S as [|f S IH]; intros V acc; [reflexivity|].
  destruct V as [|v V]; [reflexivity|]. simpl. apply IH.
Qed.

(** A row of as many values as the schema has names is zipped with it. *)
Lemma mapjson_equal_length (jsonstring : string) (S : list string)
  (V : list json) (linenum : nat) (linetype : string) :
  json_loads jsonstring = Some (JArr V) ->
  List.length V = List.length S ->
  snd (mapjsonlinetoassembblaobject json_loads jsonstring
         (JArr (map JStr S)) linenum linetype)
  = Ok (dict_of_pairs (combine (map KStr S) V)).
Proof.
  intros Hdec Hlen. unfold mapjsonlinetoassembblaobject. simpl.
  rewrite Hdec. simpl. rewrite length_map, Hlen, Nat.eqb_refl. simpl.
  apply zip_to_dict_fields.
Qed.

(** A row whose length differs from the schema's raises. *)
Lemma mapjson_mismatch (jsonstring : string) (fields arr : list json)
  (linenum : nat) (linetype : string) :
  json_loads jsonstring = Some (JArr arr) ->
  List.length arr <> List.length fields ->
  snd (mapjsonlinetoassembblaobject json_loads jsonstring (JArr fields)
         linenum linetype)
  = Raise (AssertionError
             (assertion_message linenum (List.length arr)
                (List.length fields) linetype)).
Proof.
  intros Hdec Hlen. unfold mapjsonlinetoassembblaobject. simpl.
  rewrite Hdec. simpl.
  destruct (Nat.eqb_spec (List.length arr) (List.length fields));
    [contradiction | reflexivity].
Qed.

(** The loop body on a line that reaches the table lookup. *)
Lemma interpret_data_row (fieldmap : dict string json) (linenum : nat)
  (rawline : string) :
  is_data_row (clean rawline) = true ->
  exists log,
    interpret_line json_loads fieldmap linenum rawline =
    match dict_get (table_of (clean rawline)) fieldmap with
    | None =>
        (fieldmap,
         log ++ [(ERROR,
                  "line #{linenum}: Table '{table}' not defined before '{line}'"%string)],
         Continue)
    | Some fieldlist =>
        let '(log', r) :=
          mapjsonlinetoassembblaobject json_loads
            (currentline (clean rawline) (table_of (clean rawline)))
            fieldlist linenum (table_of (clean rawline)) in
        match r with
        | Ok row =>
            (fieldmap, log ++ log',
             Yield (linenum, clean rawline, table_of (clean rawline), row))
        | Raise e => (fieldmap, log ++ log', Abort e)
        end
    end.
Proof.
  unfold is_data_row, clean, table_of. intros Hrow.
  apply andb_true_iff in Hrow. destruct Hrow as [Hf Hh].
  apply Nat.leb_le in Hf. apply Nat.leb_le in Hh.
  unfold interpret_line. cbv zeta.
  set (line := filter_string printable (rstrip rawline)) in *.
  destruct (Nat.ltb_spec 2 (List.length (split ":fields, " line))); [lia|].
  destruct (Nat.ltb_spec 1 (List.length (split ":fields, " line))); [lia|].
  destruct (Nat.ltb_spec (List.length (split ", [" line)) 2); [lia|].
  eexists. reflexivity.
Qed.

End WithDecoder.

(** C4. When the text decodes to an array [V] as long as the schema [S],
    the row is the dict [{S[i]: V[i]}]: its keys are the names of [S], and
    it binds [S[i]] to [V[i]] at every index [i] that carries the last
    occurrence of its name, hence at every index of a schema of distinct
    names. *)
Theorem C4_parsing_inverts_zipping (json_loads : string -> option json)
  (jsonstring : string) (S : list string) (V : list json) (linenum : nat)
  (linetype : string) :
  json_loads jsonstring = Some (JArr V) ->
  List.length V = List.length S ->
  exists row,
    snd (mapjsonlinetoassembblaobject json_loads jsonstring
           (JArr (map JStr S)) linenum linetype) = Ok row
    /\ row = dict_of_pairs (combine (map KStr S) V)
    /\ (forall i f, nth_error S i = Some f ->
          (forall j, i < j -> nth_error S j <> Some f) ->
          dict_get (KStr f) row = nth_error V i)
    /\ (NoDup S -> forall i f, nth_error S i = Some f ->
          dict_get (KStr f) row = nth_error V i)
    /\ (forall k, dict_get k row <> None <-> exists f, k = KStr f /\ In f S).
Proof.
  intros Hdec Hlen. eexists.
  split; [apply (mapjson_equal_length json_loads jsonstring S V); assumption|].
  split; [reflexivity|].
  assert (Hlast : forall i f, nth_error S i = Some f ->
            (forall j, i < j -> nth_error S j <> Some f) ->
            dict_get (KStr f) (dict_of_pairs (combine (map KStr S) V))
            = nth_error V i).
  { intros i f Hi Hl. rewrite dict_get_of_pairs.
    assert (Hlt : i < List.length V).
    { rewrite Hlen. apply nth_error_Some. congruence. }
    destruct (nth_error V i) as [v|] eqn:Ev;
      [|apply nth_error_None in Ev; lia].
    apply (last_binding_combine _ _ _ i); auto.
    - rewrite nth_error_map, Hi. reflexivity.
    - intros j Hj Hc. rewrite nth_error_map in Hc.
      destruct (nth_error S j) as [g|] eqn:Eg; [|discriminate].
      simpl in Hc. injection Hc as ->. now apply (Hl j). }
  split; [exact Hlast|]. split.
  - intros Hnd i f Hi. apply Hlast; [exact Hi|].
    intros j Hj Hc.
    assert (i = j); [|lia].
    eapply NoDup_nth_error; eauto.
    + apply nth_error_Some. congruence.
    + congruence.
  - intros k. rewrite dict_get_of_pairs. split.
    + intros Hk.
      destruct (last_binding k (combine (map KStr S) V)) as [v|] eqn:E;
        [|congruence].
      apply last_binding_combine_inv in E. destruct E as [i [Hi _]].
      rewrite nth_error_map in Hi.
      destruct (nth_error S i) as [f|] eqn:Ef; [|discriminate].
      simpl in Hi. injection Hi as <-. exists f. split; [reflexivity|].
      eapply nth_error_In; eauto.
    + intros [f [-> Hf]] Hc. apply last_binding_None in Hc. apply Hc.
      apply in_map_iff. apply In_nth_error in Hf. destruct Hf as [i Hi].
      assert (Hlt : i < List.length V).
      { rewrite Hlen. apply nth_error_Some. congruence. }
      destruct (nth_error V i) as [v|] eqn:Ev;
        [|apply nth_error_None in Ev; lia].
      exists (KStr f, v). split; [reflexivity|].
      clear - Hi Ev. revert V i Hi Ev.
      induction S as [|a S IH]; intros V i Hi Ev; [destruct i; discriminate|].
      destruct V as [|b V]; [destruct i; discriminate|].
      destruct i as [|i]; simpl in *.
      * left. congruence.
      * right. eapply IH; eauto.
Qed.

Lemma C4_parsing_inverts_zipping_witness :
  exists row,
    snd (mapjsonlinetoassembblaobject Json.loads "[2,1,0]" wiki_fields 3
           "wiki_pages") = Ok row
    /\ dict_get (KStr "parent_id") row = Some (JInt 1).
Proof.
  destruct (C4_parsing_inverts_zipping Json.loads "[2,1,0]"
              ["id"; "parent_id"; "position"]%string
              [JInt 2; JInt 1; JInt 0] 3 "wiki_pages")
    as [row [Hrow [_ [_ [Hnd _]]]]].
  - vm_compute. reflexivity.
  - reflexivity.
  - exists row. split; [exact Hrow|].
    apply (Hnd ltac:(repeat constructor; simpl; intuition discriminate) 1).
    reflexivity.
Defined.

(** C5. A data row whose decoded array is not as long as the declared field
    list makes the row parser raise the assertion error that names the
    table, the line number and the two counts; the error leaves the
    generator, which yields neither this row nor anything after it. *)
Theorem C5_field_count_mismatch_is_fatal (json_loads : string -> option json)
  (fieldmap : dict string json) (linenum : nat) (rawline : string)
  (rest : list string) (fields arr : list json) :
  is_data_row (clean rawline) = true ->
  dict_get (table_of (clean rawline)) fieldmap = Some (JArr fields) ->
  json_loads (currentline (clean rawline) (table_of (clean rawline)))
    = Some (JArr arr) ->
  List.length arr <> List.length fields ->
  let r := generator_loop json_loads fieldmap linenum (rawline :: rest) in
  raised r =
    Some (AssertionError
            ("Assertion fail: " +s+ table_of (clean rawline) +s+ " line ["
             +s+ str_of_nat linenum +s+ "] actual fields ["
             +s+ str_of_nat (List.length arr) +s+ "] != expected fields ["
             +s+ str_of_nat (List.length fields) +s+ "]"))
  /\ yielded r = [].
Proof.
  intros Hrow Hschema Hdec Hlen. cbv zeta. simpl generator_loop.
  destruct (interpret_data_row json_loads fieldmap linenum rawline Hrow)
    as [log Hstep].
  rewrite Hstep, Hschema.
  pose proof (mapjson_mismatch json_loads _ fields arr linenum
                (table_of (clean rawline)) Hdec Hlen) as Hraise.
  destruct (mapjsonlinetoassembblaobject json_loads _ _ _ _) as [log' res].
  simpl in Hraise. subst res. simpl. split; reflexivity.
Qed.

Lemma C5_field_count_mismatch_is_fatal_witness :
  let r := generator_loop Json.loads [("wiki_pages"%string, wiki_fields)] 4
             ["wiki_pages, [2,1]"; "wiki_pages, [3,1,0]"]%string in
  raised r =
    Some (AssertionError
            "Assertion fail: wiki_pages line [4] actual fields [2] != expected fields [3]")
  /\ yielded r = [].
Proof.
  apply (C5_field_count_mismatch_is_fatal Json.loads
           [("wiki_pages"%string, wiki_fields)] 4 "wiki_pages, [2,1]"
           ["wiki_pages, [3,1,0]"%string]
           [JStr "id"; JStr "parent_id"; JStr "position"]
           [JInt 2; JInt 1]).
  - vm_compute. reflexivity.
  - vm_compute. reflexivity.
  - vm_compute. reflexivity.
  - simpl. lia.
Defined.

(** C8, as the code has it. A data row whose table has no declared schema
    is logged at error level and skipped: the generator goes on with the
    next line, and what it yields and whether it raises are decided by the
    remaining lines alone. *)
Theorem C8_undeclared_table_is_skipped (json_loads : string -> option json)
  (fieldmap : dict string json) (linenum : nat) (rawline : string)
  (rest : list string) :
  is_data_row (clean rawline) = true ->
  dict_get (table_of (clean rawline)) fieldmap = None ->
  let r := generator_loop json_loads fieldmap linenum (rawline :: rest) in
  let r' := generator_loop json_loads fieldmap (S linenum) rest in
  raised r = raised r'
  /\ yielded r = yielded r'
  /\ fieldmap_of r = fieldmap_of r'
  /\ exists log,
       log_of r =
       log ++ [(ERROR,
                "line #{linenum}: Table '{table}' not defined before '{line}'"%string)]
           ++ log_of r'.
Proof.
  intros Hrow Hschema. cbv zeta. simpl generator_loop.
  destruct (interpret_data_row json_loads fieldmap linenum rawline Hrow)
    as [log Hstep].
  rewrite Hstep, Hschema. simpl. repeat split.
  exists log. now rewrite <- app_assoc.
Qed.

Lemma C8_undeclared_table_is_skipped_witness :
  let r := generator_loop Json.loads [] 0
             ["tickets, [7]"%string; schema_line; "wiki_pages, [1,null,0]"%string] in
  raised r = None /\ List.length (yielded r) = 1.
Proof.
  destruct (C8_undeclared_table_is_skipped Json.loads [] 0 "tickets, [7]"
              [schema_line; "wiki_pages, [1,null,0]"%string])
    as [Hr [Hy _]].
  - vm_compute. reflexivity.
  - vm_compute. reflexivity.
  - cbv zeta. rewrite Hr, Hy. vm_compute. split; reflexivity.
Defined.

(** C8, as stated, fails: the run below meets a row of the undeclared table
    [tickets] first, raises nothing and still yields the later row. *)
Lemma C8_counterexample :
  let r := filereadertoassemblaobjectgenerator Json.loads
             ["tickets, [7]"%string; schema_line; "wiki_pages, [1,null,0]"%string]
             [] in
  is_data_row (clean "tickets, [7]") = true
  /\ dict_get (table_of (clean "tickets, [7]")) (@nil (string * json)) = None
  /\ raised r = None
  /\ yielded r =
     [ (2, "wiki_pages, [1,null,0]"%string, "wiki_pages"%string,
        [(KStr "id", JInt 1); (KStr "parent_id", JNull);
         (KStr "position", JInt 0)]) ].
Proof. vm_compute. repeat split; reflexivity. Qed.

(** C9. The text handed to the row parser has lost every occurrence of the
    table name followed by a comma and a space, the one inside the ticket
    summary too, and the row that is yielded carries the shortened
    summary. *)
Theorem C9_replace_reaches_into_payload :
  ticket_line = "tickets, [" +s+ q "move tickets, then close" +s+ "]"
  /\ currentline (clean ticket_line) (table_of (clean ticket_line))
     = "[" +s+ q "move then close" +s+ "]"
  /\ yielded (filereadertoassemblaobjectgenerator Json.loads
               [tickets_schema; ticket_line] [])
     = [ (1, ticket_line, "tickets"%string,
          [(KStr "summary", JStr "move then close")]) ].
Proof. vm_compute. repeat split; reflexivity. Qed.

End LinesSpec.

(** ** The indexer *)

Module IndexerSpec.

Lemma dedup_In {A} `{EqDec A} (l : list A) (x : A) :
  In x (dedup l) <-> In x l.
Proof.
  induction l as [|y l IH]; simpl; [tauto|].
  destruct (in_dec eq_dec y l) as [Hy|Hy]; simpl; rewrite IH.
  - split; [tauto|]. intros [->|Hx]; assumption.
  - tauto.
Qed.

Lemma dedup_NoDup {A} `{EqDec A} (l : list A) : NoDup (dedup l).
Proof.
  induction l as [|y l IH]; simpl; [constructor|].
  destruct (in_dec eq_dec y l) as [Hy|Hy]; [exact IH|].
  constructor; [now rewrite dedup_In | exact IH].
Qed.

Lemma dedup_length_le {A} `{EqDec A} (l : list A) :
  List.length (dedup l) <= List.length l.
Proof.
  induction l as [|y l IH]; simpl; [lia|].
  destruct (in_dec eq_dec y l); simpl; lia.
Qed.

Lemma dedup_length_eq {A} `{EqDec A} (l : list A) :
  List.length (dedup l) = List.length l <-> NoDup l.
Proof.
  induction l as [|y l IH]; simpl.
  - split; [constructor | reflexivity].
  - destruct (in_dec eq_dec y l) as [Hy|Hy]; simpl.
    + pose proof (dedup_length_le l). split; [lia|].
      intros Hn. inversion Hn. contradiction.
    + split.
      * intros Hl. constructor; [exact Hy | apply IH; lia].
      * intros Hn. inversion Hn. f_equal. now apply IH.
Qed.

Lemma keyed_length (key : string) (objects : list Row) (keys : list pykey) :
  keyed key objects keys -> List.length objects = List.length keys.
Proof. apply Forall2_length. Qed.

Lemma keyed_collect (key : string) (objects : list Row) (keys : list pykey) :
  keyed key objects keys ->
  exists ids, collect_ids key objects = Ok ids
              /\ hash_ids ids = Ok keys
              /\ List.length ids = List.length objects.
Proof.
  induction 1 as [|row k objects keys [v [Hv Hk]] _ [ids [Hc [Hh Hl]]]].
  - exists []. repeat split.
  - exists (v :: ids). simpl. rewrite Hv, Hc, Hk, Hh. simpl.
    repeat split. now rewrite Hl.
Qed.

(** The loop body on a table all of whose rows carry a hashable key. *)
Lemma index_table_keyed (table key : string) (objects : list Row)
  (keys : list pykey) :
  keyed key objects keys ->
  index_table table key objects =
  ((if negb (List.length objects =? List.length (dedup keys))
    then [(WARNING,
           nonunique_message table (List.length (dedup keys))
             (List.length objects))]
    else []),
   Ok (dict_of_pairs (combine keys objects))).
Proof.
  intros Hk. destruct (keyed_collect _ _ _ Hk) as [ids [Hc [Hh Hl]]].
  unfold index_table. rewrite Hc, Hh, Hl. reflexivity.
Qed.

Section Loop.
Variable keymap : dict (option string) (option string).
Variable default : option string.

Local Abbreviation indexed := (Indexer.indexed keymap default).

Lemma genindex_loop_other (items : list (string * list Row))
  (index index' : dict string (dict pykey Row)) (log : list logrecord)
  (t : string) :
  genindex_loop keymap default items index = (log, Ok index') ->
  ~ In t (map fst items) ->
  dict_get t index' = dict_get t index.
Proof.
  revert index log. induction items as [|[table objects] items IH];
    intros index log Hrun Hnot; simpl in *.
  - now injection Hrun as _ <-.
  - assert (Hne : table <> t) by tauto.
    assert (Hnot' : ~ In t (map fst items)) by tauto.
    destruct (key_field keymap default table) as [key|]; [|eauto].
    destruct (startswith table "_"); [eauto|].
    destruct (index_table table key objects) as [l [m|e]]; [|discriminate].
    destruct (genindex_loop keymap default items (dict_set table m index))
      as [l' r] eqn:E.
    injection Hrun as _ ->.
    rewrite (IH _ _ E Hnot'). now apply dict_get_set_ne.
Qed.

Lemma genindex_loop_keyed (items : list (string * list Row))
  (index : dict string (dict pykey Row)) :
  (forall t objs key, In (t, objs) items -> indexed t key ->
     exists keys, keyed key objs keys) ->
  exists log index',
    genindex_loop keymap default items index = (log, Ok index')
    /\ (NoDup (map fst items) ->
        forall t objs key keys,
          In (t, objs) items -> indexed t key -> keyed key objs keys ->
          dict_get t index' = Some (dict_of_pairs (combine keys objs))
          /\ (~ NoDup keys ->
              In (WARNING,
                  nonunique_message t (List.length (dedup keys))
                    (List.length objs)) log)).
Proof.
  revert index. induction items as [|[table objects] items IH];
    intros index Hall.
  - exists [], index. split; [reflexivity|]. intros _ t objs key keys [].
  - assert (Hall' : forall t objs key, In (t, objs) items -> indexed t key ->
              exists keys, keyed key objs keys).
    { intros t objs key Hin. apply Hall. now right. }
    simpl genindex_loop.
    destruct (key_field keymap default table) as [key|] eqn:Ekey.
    2: { destruct (IH index Hall') as [log [index' [Hrun Hspec]]].
         exists log, index'. split; [exact Hrun|].
         intros Hnd t objs key keys [Heq|Hin] [Hk Hu] Hkeyed.
         - injection Heq as <- <-. congruence.
         - inversion Hnd. now apply (Hspec H2 t objs key keys). }
    destruct (startswith table "_") eqn:Eund.
    { destruct (IH index Hall') as [log [index' [Hrun Hspec]]].
      exists log, index'. split; [exact Hrun|].
      intros Hnd t objs key' keys [Heq|Hin] [Hk Hu] Hkeyed.
      - injection Heq as <- <-. congruence.
      - inversion Hnd. now apply (Hspec H2 t objs key' keys). }
    destruct (Hall table objects key (or_introl eq_refl) (conj Ekey Eund))
      as [keys0 Hkeyed0].
    rewrite (index_table_keyed table key objects keys0 Hkeyed0).
    destruct (IH (dict_set table (dict_of_pairs (combine keys0 objects)) index)
                Hall') as [log [index' [Hrun Hspec]]].
    rewrite Hrun. eexists _, index'. split; [reflexivity|].
    intros Hnd t objs key' keys [Heq|Hin] [Hk Hu] Hkeyed.
    + injection Heq as <- <-.
      assert (key' = key) by congruence. subst key'.
      assert (keys = keys0).
      { clear - Hkeyed Hkeyed0. revert keys0 Hkeyed0.
        induction Hkeyed as [|row k objs keys [v [Hv Hkv]] _ IHk];
          intros keys0 H0; inversion H0; subst; [reflexivity|].
        destruct H2 as [v' [Hv' Hkv']]. f_equal; [congruence | auto]. }
      subst keys0. inversion Hnd; subst. split.
      * rewrite (genindex_loop_other _ _ _ _ _ Hrun H1).
        apply dict_get_set_eq.
      * intros Hdup. apply in_or_app. left.
        destruct (Nat.eqb_spec (List.length objects)
                    (List.length (dedup keys))) as [E|E]; simpl.
        -- exfalso. apply Hdup. apply dedup_length_eq.
           rewrite <- E. apply keyed_length in Hkeyed. lia.
        -- now left.
    + inversion Hnd; subst.
      destruct (Hspec H2 t objs key' keys Hin (conj Hk Hu) Hkeyed)
        as [Hget Hwarn].
      split; [exact Hget|]. intros Hdup. apply in_or_app. right. auto.
Qed.

End Loop.

(** C7. In a run of [genindex] over tables whose indexed rows all carry a
    hashable key, nothing is raised; for an indexed table whose keys repeat,
    the log has the warning with the number of distinct keys and the number
    of rows, and the table's map binds every key to the last row that has
    it. *)
Theorem C7_duplicate_keys_warn_last_wins
  (data : dict string (list Row))
  (keymap : dict (option string) (option string)) (default : option string)
  (table key : string) (objects : list Row) (keys : list pykey) :
  dict_get None keymap = Some default ->
  NoDup (map fst data) ->
  (forall t objs k, In (t, objs) data -> indexed keymap default t k ->
     exists ks, keyed k objs ks) ->
  In (table, objects) data ->
  indexed keymap default table key ->
  keyed key objects keys ->
  ~ NoDup keys ->
  exists log index m,
    genindex data keymap = (log, Ok index)
    /\ In (WARNING,
           "Non unique id in table '" +s+ table +s+ "', "
           +s+ str_of_nat (List.length (dedup keys)) +s+ " unique of "
           +s+ str_of_nat (List.length objects) +s+ " rows") log
    /\ NoDup (dedup keys)
    /\ (forall k, In k (dedup keys) <-> In k keys)
    /\ dict_get table index = Some m
    /\ (forall i k row,
          nth_error keys i = Some k -> nth_error objects i = Some row ->
          (forall j, i < j -> nth_error keys j <> Some k) ->
          dict_get k m = Some row).
Proof.
  intros Hdef Hnd Hall Hin Hidx Hkeyed Hdup.
  unfold genindex. rewrite Hdef.
  destruct (genindex_loop_keyed keymap default data [] Hall)
    as [log [index [Hrun Hspec]]].
  destruct (Hspec Hnd table objects key keys Hin Hidx Hkeyed) as [Hget Hwarn].
  exists log, index, (dict_of_pairs (combine keys objects)).
  split; [exact Hrun|]. split; [now apply Hwarn|].
  split; [apply dedup_NoDup|]. split; [apply dedup_In|].
  split; [exact Hget|].
  intros i k row Hk Hrow Hlast. rewrite dict_get_of_pairs.
  now apply (last_binding_combine _ _ _ i).
Qed.

Lemma C7_duplicate_keys_warn_last_wins_witness :
  exists log index m,
    genindex sample_data main_keymap = (log, Ok index)
    /\ In (WARNING, "Non unique id in table 'tickets', 2 unique of 3 rows"%string) log
    /\ dict_get "tickets"%string index = Some m
    /\ dict_get (KInt 42) m = Some (row_of 42 "second").
Proof.
  destruct (C7_duplicate_keys_warn_last_wins sample_data main_keymap
              (Some "id"%string) "tickets" "id"
              [row_of 42 "first"; row_of 7 "other"; row_of 42 "second"]
              [KInt 42; KInt 7; KInt 42])
    as [log [index [m [Hrun [Hwarn [_ [_ [Hget Hlast]]]]]]]].
  - reflexivity.
  - repeat constructor; simpl; intuition discriminate.
  - intros t objs k [Heq|[Heq|[]]] [Hk Hu]; injection Heq as <- <-.
    + vm_compute in Hk. injection Hk as <-.
      exists [KInt 42; KInt 7; KInt 42].
      repeat constructor; eexists; split; reflexivity.
    + vm_compute in Hk. discriminate.
  - left. reflexivity.
  - split; reflexivity.
  - repeat constructor; eexists; split; reflexivity.
  - intros Hn. inversion Hn as [|x l Hx _]. apply Hx. simpl. auto.
  - exists log, index, m. split; [exact Hrun|]. split; [exact Hwarn|].
    split; [exact Hget|].
    apply (Hlast 2); [reflexivity | reflexivity |].
    intros [|[|[|j]]] Hj; try lia; simpl; destruct j; discriminate.
Defined.

End IndexerSpec.

(** ** The tree builder: the enrichment loop *)

Module WikiLoop.

Lemma nth_error_update {A} (i j : nat) (f : A -> A) (l : list A) :
  nth_error (update i f l) j =
  if i =? j then option_map f (nth_error l j) else nth_error l j.
Proof.
  revert i j. induction l as [|x l IH]; intros i j.
  - destruct i, j; simpl; try reflexivity. now destruct (i =? j).
  - destruct i as [|i], j as [|j]; simpl; try reflexivity. apply IH.
Qed.

Lemma length_update {A} (i : nat) (f : A -> A) (l : list A) :
  List.length (update i f l) = List.length l.
Proof.
  revert i. induction l as [|x l IH]; intros [|i]; simpl; auto.
Qed.


Lemma map_update_keep {A B} (g : A -> B) (i : nat) (f : A -> A) (l : list A) :
  (forall x, g (f x) = g x) -> map g (update i f l) = map g l.
Proof.
  intros Hk. revert i. induction l as [|x l IH]; intros [|i]; simpl;
    try reflexivity; [now rewrite Hk | now rewrite IH].
Qed.

Lemma children_field_update (i r : nat) (f : Page.t -> Page.t)
  (store : list Page.t) :
  children_field (update i f store) r =
  if i =? r
  then match nth_error store r with
       | Some p => Page._children (f p)
       | None => None
       end
  else children_field store r.
Proof.
  unfold children_field. rewrite nth_error_update.
  destruct (i =? r); [|reflexivity]. now destruct (nth_error store r).
Qed.

Lemma children_field_update_keep (i r : nat) (f : Page.t -> Page.t)
  (store : list Page.t) :
  (forall p, Page._children (f p) = Page._children p) ->
  children_field (update i f store) r = children_field store r.
Proof.
  intros Hk. rewrite children_field_update. destruct (i =? r); [|reflexivity].
  unfold children_field. destruct (nth_error store r); [apply Hk | reflexivity].
Qed.

Lemma level_of_update (i r : nat) (f : Page.t -> Page.t)
  (store : list Page.t) :
  level_of (update i f store) r =
  if i =? r
  then match nth_error store r with
       | Some p => Page._level (f p)
       | None => None
       end
  else level_of store r.
Proof.
  unfold level_of. rewrite nth_error_update.
  destruct (i =? r); [|reflexivity]. now destruct (nth_error store r).
Qed.

Lemma level_of_update_keep (i r : nat) (f : Page.t -> Page.t)
  (store : list Page.t) :
  (forall p, Page._level (f p) = Page._level p) ->
  level_of (update i f store) r = level_of store r.
Proof.
  intros Hk. rewrite level_of_update. destruct (i =? r); [|reflexivity].
  unfold level_of. destruct (nth_error store r); [apply Hk | reflexivity].
Qed.

Lemma setdefault_children_level (p : Page.t) :
  Page._level (Page.setdefault_children p) = Page._level p.
Proof. unfold Page.setdefault_children. now destruct (Page._children p). Qed.

Lemma setdefault_children_source (p : Page.t) :
  source (Page.setdefault_children p) = source p.
Proof. unfold Page.setdefault_children. now destruct (Page._children p). Qed.

(** *** The index of row references *)

Lemma nth_error_seq_0 (n i r : nat) :
  nth_error (seq 0 n) i = Some r -> r = i /\ i < n.
Proof.
  intros Hn. assert (Hlt : i < n).
  { pose proof (proj1 (nth_error_Some (seq 0 n) i)) as Hs.
    rewrite length_seq in Hs. apply Hs. congruence. }
  rewrite nth_error_seq in Hn.
  destruct (Nat.ltb_spec i n); [|lia]. injection Hn as <-. auto.
Qed.

(** The index maps a key to the last row that has it. *)
Lemma index_refs_Some (keys : list pykey) (k : pykey) (r : nat) :
  dict_get k (index_refs keys) = Some r <->
  nth_error keys r = Some k /\ (forall j, r < j -> nth_error keys j <> Some k).
Proof.
  unfold index_refs. rewrite dict_get_of_pairs. split.
  - intros Hl. apply last_binding_combine_inv in Hl.
    destruct Hl as [i [Hk [Hv Hlast]]].
    apply nth_error_seq_0 in Hv. destruct Hv as [-> Hi].
    split; [exact Hk|]. intros j Hj Hc.
    destruct (Nat.lt_ge_cases j (List.length keys)) as [Hlt|Hge].
    + apply (Hlast j Hj); [now rewrite length_seq | exact Hc].
    + apply nth_error_None in Hge. congruence.
  - intros [Hk Hlast]. apply (last_binding_combine _ _ _ r); auto.
    rewrite nth_error_seq.
    assert (r < List.length keys) by (apply nth_error_Some; congruence).
    destruct (Nat.ltb_spec r (List.length keys)); [reflexivity | lia].
Qed.

Lemma index_refs_range (keys : list pykey) (k : pykey) (r : nat) :
  dict_get k (index_refs keys) = Some r -> r < List.length keys.
Proof.
  intros Hg. apply index_refs_Some in Hg. destruct Hg as [Hk _].
  apply nth_error_Some. congruence.
Qed.

(** *** The rows of a group *)

Lemma group_In (pages : list Page.t) (k : pykey) (m c : nat) :
  In c (group pages k m) <->
  c < m /\ exists v, nth_error pages c = Some v /\ Page.parent_id v = k.
Proof.
  unfold group. rewrite filter_In, in_seq. split.
  - intros [Hr Hf]. split; [lia|].
    destruct (nth_error pages c) as [v|]; [|discriminate].
    destruct (eq_dec (Page.parent_id v) k); [eauto | discriminate].
  - intros [Hlt [v [Hv Hk]]]. split; [lia|]. rewrite Hv.
    destruct (eq_dec (Page.parent_id v) k); congruence.
Qed.

Lemma group_NoDup (pages : list Page.t) (k : pykey) (m : nat) :
  NoDup (group pages k m).
Proof. apply NoDup_filter, seq_NoDup. Qed.

Lemma group_S (pages : list Page.t) (k : pykey) (m : nat) (v : Page.t) :
  nth_error pages m = Some v ->
  group pages k (S m) =
  if eq_dec (Page.parent_id v) k then group pages k m ++ [m]
  else group pages k m.
Proof.
  intros Hv. unfold group. rewrite seq_S, filter_app. simpl. rewrite Hv.
  destruct (eq_dec (Page.parent_id v) k); [reflexivity | apply app_nil_r].
Qed.

End WikiLoop.
Import WikiLoop.

Module WikiStep.

Lemma dict_get_setdefault_same {K V} `{EqDec K} (k : K) (v : V)
  (d : dict K V) :
  dict_get k (dict_setdefault k v d) =
  match dict_get k d with Some x => Some x | None => Some v end.
Proof.
  unfold dict_setdefault, dict_contains.
  destruct (dict_get k d) eqn:E; [exact E | apply dict_get_set_eq].
Qed.

Section Step.
Variable fromisoformat : string -> option Z.
Variable users : dict pykey User.t.
Variable pages : list Page.t.

Local Abbreviation index := (index_refs (map Page.id pages)).

Lemma index_range (k : pykey) (r : nat) :
  dict_get k index = Some r -> r < List.length pages.
Proof.
  intros Hg. apply index_refs_range in Hg. now rewrite length_map in Hg.
Qed.

Lemma source_length (store : list Page.t) :
  map source store = map source pages ->
  List.length store = List.length pages.
Proof.
  intros Hs. rewrite <- (length_map source store), Hs. apply length_map.
Qed.

(** What one iteration does to the tree, to the [_children] and [_level]
    fields and to the source fields. *)
Lemma enrich_page_fields (i : nat) (v : Page.t) (store store' : list Page.t)
  (wt wt' : dict pykey (list nat)) :
  enrich_page fromisoformat users index i v (store, wt) = Ok (store', wt') ->
  i < List.length pages ->
  map source store = map source pages ->
  map source store' = map source pages
  /\ (forall k,
        dict_get k wt' =
        if eq_dec (Page.parent_id v) k
        then Some (match dict_get k wt with Some l => l | None => [] end ++ [i])
        else dict_get k wt)
  /\ (truthy (Page.parent_id v) = true ->
      exists p, dict_get (Page.parent_id v) index = Some p)
  /\ (forall r,
        children_field store' r =
        if truthy (Page.parent_id v)
           && match dict_get (Page.parent_id v) index with
              | Some p => p =? r
              | None => false
              end
        then Some (TreeList (Page.parent_id v))
        else if i =? r
             then match children_field store r with
                  | Some x => Some x
                  | None => Some FreshList
                  end
             else children_field store r)
  /\ (forall r,
        level_of store' r =
        if i =? r
        then Some (if truthy (Page.parent_id v)
                   then match dict_get (Page.parent_id v) index with
                        | Some p =>
                            match level_of store p with
                            | Some l => l
                            | None => 0
                            end + 1
                        | None => 0
                        end
                   else 0)
        else level_of store r).
Proof.
  intros Hstep Hi Hsrc. pose proof (source_length _ Hsrc) as Hlen.
  unfold enrich_page in Hstep.
  destruct (dict_get (Page.user_id v) users) as [user|]; [|discriminate].
  destruct (fromisoformat (Page.created_at v)) as [c|]; [|discriminate].
  destruct (fromisoformat (Page.updated_at v)) as [u|]; [|discriminate].
  set (K := Page.parent_id v) in *.
  set (s1 := update i (Page.set_parent_id (dict_get K index)) store) in *.
  set (s2 := update i Page.setdefault_children s1) in *.
  set (s3 := update i (Page.set_user_id user) s2) in *.
  set (s4 := update i (Page.set_dates c u) s3) in *.
  assert (Hsrc4 : map source s4 = map source store).
  { unfold s4, s3, s2, s1.
    rewrite !map_update_keep; auto using setdefault_children_source. }
  assert (Hch4 : forall r, children_field s4 r =
            if i =? r
            then match children_field store r with
                 | Some x => Some x
                 | None => Some FreshList
                 end
            else children_field store r).
  { intros r. unfold s4, s3.
    rewrite !children_field_update_keep by reflexivity.
    unfold s2. rewrite children_field_update.
    destruct (Nat.eqb_spec i r) as [<-|Hne]; [|unfold s1;
      now rewrite children_field_update_keep].
    unfold s1. rewrite nth_error_update, Nat.eqb_refl. unfold children_field.
    destruct (nth_error store i) as [p|] eqn:Ep;
      [|apply nth_error_None in Ep; lia].
    simpl. unfold Page.setdefault_children. simpl.
    destruct (Page._children p) eqn:Ec; simpl; [exact Ec | reflexivity]. }
  assert (Hlv4 : forall r, level_of s4 r = level_of store r).
  { intros r. unfold s4, s3, s2, s1.
    rewrite !level_of_update_keep; auto using setdefault_children_level. }
  assert (Hwt : forall (wt0 : dict pykey (list nat)) k,
            dict_get k
              (dict_set K
                 (match dict_get K (dict_setdefault K [] wt) with
                  | Some l => l
                  | None => []
                  end ++ [i]) (dict_setdefault K [] wt)) =
            if eq_dec K k
            then Some (match dict_get k wt with Some l => l | None => [] end
                       ++ [i])
            else dict_get k wt).
  { intros _ k. rewrite dict_get_set, dict_get_setdefault_same.
    destruct (eq_dec K k) as [<-|Hne].
    - now destruct (dict_get K wt).
    - unfold dict_setdefault, dict_contains.
      destruct (dict_get K wt); [reflexivity | now apply dict_get_set_ne]. }
  destruct (truthy K) eqn:Etruthy.
  - destruct (dict_get K index) as [p|] eqn:Ep; [|discriminate].
    injection Hstep as <- <-.
    assert (Hp : p < List.length s4).
    { unfold s4, s3, s2, s1. rewrite !length_update, Hlen.
      now apply (index_range K). }
    split; [|split; [|split; [|split]]].
    + rewrite !map_update_keep by reflexivity. now rewrite Hsrc4.
    + intros k. apply (Hwt wt).
    + eauto.
    + intros r. rewrite children_field_update_keep by reflexivity.
      rewrite children_field_update. simpl.
      destruct (Nat.eqb_spec p r) as [<-|Hne]; [|apply Hch4].
      destruct (nth_error s4 p) eqn:E4; [reflexivity|].
      apply nth_error_None in E4. lia.
    + intros r. rewrite level_of_update.
      destruct (Nat.eqb_spec i r) as [<-|Hne].
      * rewrite nth_error_update.
        assert (Hi4 : i < List.length s4).
        { unfold s4, s3, s2, s1. rewrite !length_update. lia. }
        destruct (nth_error s4 i) as [q|] eqn:E4;
          [|apply nth_error_None in E4; lia].
        rewrite level_of_update_keep by reflexivity. rewrite Hlv4.
        destruct (p =? i); reflexivity.
      * rewrite level_of_update_keep by reflexivity. apply Hlv4.
  - injection Hstep as <- <-.
    split; [|split; [|split; [|split]]].
    + rewrite !map_update_keep by reflexivity. now rewrite Hsrc4.
    + intros k. apply (Hwt wt).
    + discriminate.
    + intros r. rewrite children_field_update_keep by reflexivity.
      simpl. apply Hch4.
    + intros r. rewrite level_of_update.
      destruct (Nat.eqb_spec i r) as [<-|Hne]; [|apply Hlv4].
      assert (Hi4 : i < List.length s4).
      { unfold s4, s3, s2, s1. rewrite !length_update. lia. }
      destruct (nth_error s4 i) as [q|] eqn:E4;
        [reflexivity | apply nth_error_None in E4; lia].
Qed.

(** Induction over the loop: a property of the state after the first [m]
    rows that holds at the start and that every successful iteration
    carries over holds when the loop ends. *)
Lemma enrich_pages_invariant (Inv : nat -> state -> Prop) :
  Inv 0 (pages, []) ->
  (forall m v st st',
     nth_error pages m = Some v ->
     map source (fst st) = map source pages ->
     Inv m st ->
     enrich_page fromisoformat users index m v st = Ok st' ->
     Inv (S m) st') ->
  forall st',
    enrich_pages fromisoformat users index
      (combine (seq 0 (List.length pages)) pages) (pages, []) = Ok st' ->
    Inv (List.length pages) st' /\ map source (fst st') = map source pages.
Proof.
  intros H0 Hstep.
  assert (Hgen : forall rest done st st',
            pages = done ++ rest ->
            Inv (List.length done) st ->
            map source (fst st) = map source pages ->
            enrich_pages fromisoformat users index
              (combine (seq (List.length done) (List.length rest)) rest) st
            = Ok st' ->
            Inv (List.length pages) st'
            /\ map source (fst st') = map source pages).
  { induction rest as [|v rest IH]; intros done st st' Hp Hinv Hsrc Hrun.
    - simpl in Hrun. injection Hrun as <-.
      rewrite app_nil_r in Hp. rewrite <- Hp in Hinv. auto.
    - simpl in Hrun.
      destruct (enrich_page fromisoformat users index (List.length done) v st)
        as [st1|e] eqn:E1; [|discriminate]. simpl in Hrun.
      assert (Hv : nth_error pages (List.length done) = Some v).
      { rewrite Hp, nth_error_app2, Nat.sub_diag by lia. reflexivity. }
      assert (Hlt : List.length done < List.length pages).
      { apply nth_error_Some. congruence. }
      apply (IH (done ++ [v]) st1 st').
      + rewrite Hp, <- app_assoc. reflexivity.
      + rewrite length_app. simpl. rewrite Nat.add_1_r.
        eapply Hstep; eauto.
      + destruct st as [store wt], st1 as [store1 wt1].
        now destruct (enrich_page_fields _ _ _ _ _ _ E1 Hlt Hsrc) as [Hs _].
      + rewrite length_app. simpl. rewrite Nat.add_1_r. exact Hrun. }
  intros st' Hrun. apply (Hgen pages [] (pages, []) st'); auto.
Qed.

End Step.

End WikiStep.
Import WikiStep.

Module WikiInvariants.

Section Invariants.
Variable fromisoformat : string -> option Z.
Variable users : dict pykey User.t.
Variable pages : list Page.t.

Local Abbreviation index := (index_refs (map Page.id pages)).

Let run (st' : state) : Prop :=
  enrich_pages fromisoformat users index
    (combine (seq 0 (List.length pages)) pages) (pages, []) = Ok st'.

(** Two keys resolved to the same row are the same key. *)
Lemma index_injective (k k' : pykey) (r : nat) :
  dict_get k index = Some r -> dict_get k' index = Some r -> k = k'.
Proof.
  intros H1 H2. apply index_refs_Some in H1, H2.
  destruct H1 as [H1 _], H2 as [H2 _]. congruence.
Qed.

(** After the loop, [wikitree[k]] is the group of [k], and exists exactly
    when the group has a row. *)
Lemma wikitree_groups (st' : state) :
  run st' ->
  forall k,
    dict_get k (snd st') =
    match group pages k (List.length pages) with
    | [] => None
    | g => Some g
    end.
Proof.
  intros Hrun.
  apply (enrich_pages_invariant fromisoformat users pages
           (fun m st => forall k,
              dict_get k (snd st) =
              match group pages k m with [] => None | g => Some g end));
    [reflexivity | | exact Hrun].
  intros m v [store wt] [store1 wt1] Hv Hsrc Hinv Hstep k. simpl in *.
  assert (Hm : m < List.length pages) by (apply nth_error_Some; congruence).
  destruct (enrich_page_fields _ _ _ _ _ _ _ _ _ Hstep Hm Hsrc)
    as [_ [Hwt _]].
  rewrite Hwt, (group_S pages k m v Hv).
  destruct (eq_dec (Page.parent_id v) k) as [E|E]; [|apply Hinv].
  rewrite Hinv. destruct (group pages k m) as [|a g]; reflexivity.
Qed.

(** After the loop over fresh rows, a page's [_children] is the list
    [wikitree[k]] only for the truthy key [k] resolved to that page, and
    every truthy [parent_id] has been resolved and linked. *)
Lemma children_links (st' : state) :
  Forall fresh pages ->
  run st' ->
  (forall r k, children_field (fst st') r = Some (TreeList k) ->
     truthy k = true /\ dict_get k index = Some r)
  /\ (forall j v, nth_error pages j = Some v ->
        truthy (Page.parent_id v) = true ->
        exists r, dict_get (Page.parent_id v) index = Some r
                  /\ children_field (fst st') r
                     = Some (TreeList (Page.parent_id v))).
Proof.
  intros Hfresh Hrun.
  pose (Inv := fun (m : nat) (st : state) =>
    (forall r k, children_field (fst st) r = Some (TreeList k) ->
       truthy k = true /\ dict_get k index = Some r)
    /\ (forall j v, j < m -> nth_error pages j = Some v ->
          truthy (Page.parent_id v) = true ->
          exists r, dict_get (Page.parent_id v) index = Some r
                    /\ children_field (fst st) r
                       = Some (TreeList (Page.parent_id v)))).
  assert (Hend : Inv (List.length pages) st'
                 /\ map source (fst st') = map source pages).
  { apply (enrich_pages_invariant fromisoformat users pages Inv);
      [| | exact Hrun].
    - split; [|intros j v Hj; lia].
      intros r k. unfold children_field. simpl.
      destruct (nth_error pages r) as [p|] eqn:Ep; [|discriminate].
      rewrite Forall_forall in Hfresh.
      pose proof (Hfresh p (nth_error_In _ _ Ep)) as Hp.
      unfold fresh in Hp. rewrite <- Hp. discriminate.
    - intros m v [store wt] [store1 wt1] Hv Hsrc [Hup Hdown] Hstep.
      simpl in *.
      assert (Hm : m < List.length pages) by (apply nth_error_Some; congruence).
      destruct (enrich_page_fields _ _ _ _ _ _ _ _ _ Hstep Hm Hsrc)
        as [_ [_ [Hfound [Hch _]]]].
      split; simpl.
      + intros r k. rewrite Hch.
        destruct (truthy (Page.parent_id v)) eqn:Et; simpl.
        * destruct (dict_get (Page.parent_id v)
                      (index_refs (map Page.id pages))) as [p|] eqn:Ep.
          -- destruct (Nat.eqb_spec p r) as [<-|Hne].
             ++ intros Hk. injection Hk as <-. auto.
             ++ destruct (m =? r); [|apply Hup].
                destruct (children_field store r) eqn:Ec; [|discriminate].
                intros Hk. apply Hup. congruence.
          -- destruct (m =? r); [|apply Hup].
             destruct (children_field store r) eqn:Ec; [|discriminate].
             intros Hk. apply Hup. congruence.
        * destruct (m =? r); [|apply Hup].
          destruct (children_field store r) eqn:Ec; [|discriminate].
          intros Hk. apply Hup. congruence.
      + intros j vj Hj Hvj Htj.
        destruct (Nat.eq_dec j m) as [->|Hne].
        * assert (vj = v) by congruence. subst vj.
          destruct (Hfound Htj) as [p Hp]. exists p. split; [exact Hp|].
          rewrite Hch, Htj. rewrite Hp, Nat.eqb_refl. reflexivity.
        * destruct (Hdown j vj ltac:(lia) Hvj Htj) as [r [Hr Hcr]].
          exists r. split; [exact Hr|]. rewrite Hch.
          destruct (truthy (Page.parent_id v)) eqn:Et; simpl.
          -- destruct (dict_get (Page.parent_id v) index) as [p|] eqn:Ep.
             ++ destruct (Nat.eqb_spec p r) as [->|Hpr].
                ** f_equal. f_equal. now apply (index_injective _ _ r).
                ** rewrite Hcr. now destruct (m =? r).
             ++ rewrite Hcr. now destruct (m =? r).
          -- rewrite Hcr. now destruct (m =? r). }
  destruct Hend as [[Hup Hdown] _]. split; [exact Hup|].
  intros j v Hv. apply (Hdown j v); [|exact Hv].
  apply nth_error_Some. congruence.
Qed.

(** After the loop over rows that come after their parents, every page has
    its level: 0 without a truthy [parent_id], one more than the level of
    the resolved parent otherwise. *)
Lemma levels_parent_first (st' : state) :
  (forall c p, parent_of pages c = Some p -> p < c) ->
  run st' ->
  forall j v, nth_error pages j = Some v ->
    (truthy (Page.parent_id v) = false -> level_of (fst st') j = Some 0)
    /\ (truthy (Page.parent_id v) = true ->
        exists p l, dict_get (Page.parent_id v) index = Some p
                    /\ level_of (fst st') p = Some l
                    /\ level_of (fst st') j = Some (l + 1)).
Proof.
  intros Horder Hrun.
  pose (Inv := fun (m : nat) (st : state) =>
    forall j v, j < m -> nth_error pages j = Some v ->
      (truthy (Page.parent_id v) = false -> level_of (fst st) j = Some 0)
      /\ (truthy (Page.parent_id v) = true ->
          exists p l, dict_get (Page.parent_id v) index = Some p
                      /\ level_of (fst st) p = Some l
                      /\ level_of (fst st) j = Some (l + 1))).
  assert (Hend : Inv (List.length pages) st'
                 /\ map source (fst st') = map source pages).
  { apply (enrich_pages_invariant fromisoformat users pages Inv);
      [| | exact Hrun].
    - intros j v Hj. lia.
    - intros m v [store wt] [store1 wt1] Hv Hsrc Hinv Hstep.
      simpl in *.
      assert (Hm : m < List.length pages) by (apply nth_error_Some; congruence).
      destruct (enrich_page_fields _ _ _ _ _ _ _ _ _ Hstep Hm Hsrc)
        as [_ [_ [Hfound [_ Hlv]]]].
      assert (Hset : forall p, p < m -> exists l, level_of store p = Some l).
      { intros p Hp.
        destruct (nth_error pages p) as [vp|] eqn:Evp;
          [|apply nth_error_None in Evp; lia].
        destruct (Hinv p vp Hp Evp) as [H0 H1].
        destruct (truthy (Page.parent_id vp)); [|eauto].
        destruct (H1 eq_refl) as [q [l [_ [_ Hl]]]]. eauto. }
      assert (Hpar : forall j vj p, nth_error pages j = Some vj ->
                truthy (Page.parent_id vj) = true ->
                dict_get (Page.parent_id vj) index = Some p -> p < j).
      { intros j vj p Hvj Htj Hp. apply Horder. unfold parent_of.
        now rewrite Hvj, Htj. }
      intros j vj Hj Hvj. simpl. rewrite !Hlv.
      destruct (Nat.eq_dec j m) as [->|Hne].
      + assert (vj = v) by congruence. subst vj. rewrite Nat.eqb_refl.
        split; [now intros ->|]. intros Ht. rewrite Ht.
        destruct (Hfound Ht) as [p Hp]. rewrite Hp.
        pose proof (Hpar m v p Hv Ht Hp) as Hpm.
        destruct (Hset p Hpm) as [l Hl]. exists p, l.
        split; [reflexivity|]. rewrite Hlv, Hl.
        destruct (Nat.eqb_spec m p); [lia|]. auto.
      + destruct (Nat.eqb_spec m j); [congruence|].
        destruct (Hinv j vj ltac:(lia) Hvj) as [H0 H1].
        split; [exact H0|]. intros Ht.
        destruct (H1 Ht) as [p [l [Hp [Hl Hjl]]]]. exists p, l.
        split; [exact Hp|]. split; [|exact Hjl]. rewrite Hlv.
        pose proof (Hpar j vj p Hvj Ht Hp) as Hpj.
        destruct (Nat.eqb_spec m p); [lia | exact Hl]. }
  destruct Hend as [Hinv _]. intros j v Hv. apply Hinv; [|exact Hv].
  apply nth_error_Some. congruence.
Qed.

End Invariants.

End WikiInvariants.
Import WikiInvariants.

(** ** The tree builder: the traversal *)

Module WikiForest.

Section Forest.
Variable position : nat -> Z.
Variable children : nat -> option (list nat).
Variable parent : nat -> option nat.
Variable roots : list nat.
Variable n : nat.

Local Abbreviation Lay := (WikiWords.Lay position children).
Local Abbreviation kids := (WikiWords.kids children).
Local Abbreviation descendant := (WikiWords.descendant parent).
Local Abbreviation depth := (WikiWords.depth parent roots).
Local Abbreviation up := (WikiWords.up parent).
Local Abbreviation traverse := (_wikitraverse position children).

(** *** The traversal lays the forest out *)

Lemma visit_Lay (recurse : list nat -> option (list nat)) :
  (forall l out, recurse l = Some out -> Lay (sorted position l) out) ->
  forall vs out, visit children recurse vs = Some out -> Lay vs out.
Proof.
  intros Hrec. induction vs as [|v vs IH]; intros out Hv; simpl in Hv.
  - injection Hv as <-. constructor.
  - destruct (children v) as [l|] eqn:Ec.
    + destruct (recurse l) as [sub|] eqn:Es; [|discriminate].
      destruct (visit children recurse vs) as [rest|]; [|discriminate].
      injection Hv as <-. constructor; [|now apply IH].
      unfold WikiWords.kids. rewrite Ec. now apply Hrec.
    + destruct (visit children recurse vs) as [rest|]; [|discriminate].
      injection Hv as <-. apply (Lay_cons _ _ v vs [] rest); [|now apply IH].
      unfold WikiWords.kids. rewrite Ec. constructor.
Qed.

Lemma traverse_Lay (fuel : nat) (tree out : list nat) :
  traverse fuel tree = Some out -> Lay (sorted position tree) out.
Proof.
  revert tree out. induction fuel as [|fuel IH]; intros tree out Ht;
    [discriminate|].
  simpl in Ht. eapply visit_Lay; eauto.
Qed.

Lemma visit_total (recurse : list nat -> option (list nat)) (vs : list nat) :
  (forall v l, In v vs -> children v = Some l -> exists out, recurse l = Some out) ->
  exists out, visit children recurse vs = Some out.
Proof.
  induction vs as [|v vs IH]; intros Hrec; simpl; [eauto|].
  destruct IH as [rest Hrest].
  { intros w l Hw. apply Hrec. now right. }
  rewrite Hrest. destruct (children v) as [l|] eqn:Ec; [|eauto].
  destruct (Hrec v l (or_introl eq_refl) Ec) as [sub ->]. eauto.
Qed.

(** *** Parent links *)

Lemma up_snoc (k x y z : nat) :
  up k x = Some y -> parent y = Some z -> up (S k) x = Some z.
Proof.
  revert x. induction k as [|k IH]; intros x Hu Hp; simpl in *.
  - injection Hu as ->. now rewrite Hp.
  - destruct (parent x) as [p|]; [|discriminate]. now apply IH.
Qed.

Lemma descendant_up (v w : nat) :
  descendant v w -> exists k, up (S k) w = Some v.
Proof.
  induction 1 as [v c Hc | v c w Hc _ [k Hk]].
  - exists 0. simpl. now rewrite Hc.
  - exists (S k). now apply (up_snoc _ _ c).
Qed.

Lemma descendant_trans (u v w : nat) :
  descendant u v -> descendant v w -> descendant u w.
Proof.
  induction 1 as [u c Hc | u c v Hc _ IH]; intros Hw.
  - now apply (descendant_step _ u c).
  - apply (descendant_step _ u c); auto.
Qed.

(** The parent of a descendant of [v] is [v] or a descendant of [v]. *)
Lemma descendant_parent (v u p : nat) :
  descendant v u -> parent u = Some p -> v = p \/ descendant v p.
Proof.
  induction 1 as [v c Hc | v c w Hc Hd IH]; intros Hp.
  - left. congruence.
  - right. destruct (IH Hp) as [->|Hcp].
    + now apply descendant_child.
    + now apply (descendant_step _ v c).
Qed.

Hypothesis roots_parent : forall c, In c roots -> parent c = None.

Lemma depth_unique (c d d' : nat) : depth c d -> depth c d' -> d = d'.
Proof.
  intros Hd. revert d'. induction Hd as [c Hc | v c d Hv IH Hp]; intros d' Hd'.
  - inversion Hd' as [|v c' d0 _ Hp]; subst; [reflexivity|].
    rewrite (roots_parent c Hc) in Hp. discriminate.
  - inversion Hd' as [c' Hc|v' c' d0 Hv' Hp']; subst.
    + rewrite (roots_parent c Hc) in Hp. discriminate.
    + f_equal. apply IH. congruence.
Qed.

Lemma depth_up (v x d k : nat) :
  depth v d -> up k x = Some v -> depth x (d + k).
Proof.
  intros Hv. revert x. induction k as [|k IH]; intros x Hu; simpl in Hu.
  - injection Hu as ->. now rewrite Nat.add_0_r.
  - destruct (parent x) as [p|] eqn:Ep; [|discriminate].
    rewrite Nat.add_succ_r. apply (depth_kid _ _ p); auto.
Qed.

Lemma depth_descendant (v w d : nat) :
  depth v d -> descendant v w -> exists k, depth w (S (d + k)).
Proof.
  intros Hv Hw. apply descendant_up in Hw. destruct Hw as [k Hk].
  exists k. rewrite <- Nat.add_succ_r. now apply (depth_up v).
Qed.

(** Pages with the same parent have the same depth. *)
Lemma depth_same_parent (u w d d' : nat) :
  depth u d -> depth w d' -> parent u = parent w -> d = d'.
Proof.
  intros Hu Hw Hp.
  inversion Hu as [c Hc|v c d0 Hv Hpu]; inversion Hw as [c' Hc'|v' c' d0' Hv' Hpw];
    subst; try reflexivity.
  - rewrite (roots_parent u Hc) in Hp. congruence.
  - rewrite (roots_parent w Hc') in Hp. congruence.
  - f_equal. apply (depth_unique v); [exact Hv|]. congruence.
Qed.

(** A page has one ancestor at each depth. *)
Lemma ancestor_unique (v v' x d : nat) :
  depth v d -> depth v' d ->
  v = x \/ descendant v x -> v' = x \/ descendant v' x -> v = v'.
Proof.
  intros Hv Hv' Hx Hx'.
  assert (Hk : exists k, up k x = Some v).
  { destruct Hx as [->|Hx]; [now exists 0|].
    apply descendant_up in Hx. destruct Hx as [k Hk]. eauto. }
  assert (Hk' : exists k, up k x = Some v').
  { destruct Hx' as [->|Hx']; [now exists 0|].
    apply descendant_up in Hx'. destruct Hx' as [k Hk']. eauto. }
  destruct Hk as [k Hk], Hk' as [k' Hk'].
  pose proof (depth_up _ _ _ _ Hv Hk) as H1.
  pose proof (depth_up _ _ _ _ Hv' Hk') as H2.
  assert (k = k') by (pose proof (depth_unique _ _ _ H1 H2); lia).
  subst k'. congruence.
Qed.

Hypothesis roots_bound : forall c, In c roots -> c < n.
Hypothesis parent_bound : forall c v, parent c = Some v -> c < n.

(** The pages on the way from a root to a page are distinct, so a depth is
    smaller than the number of pages. *)
Lemma depth_chain (c d : nat) :
  depth c d ->
  exists chain,
    List.length chain = S d /\ NoDup chain
    /\ forall x, In x chain -> x < n /\ exists d', d' <= d /\ depth x d'.
Proof.
  induction 1 as [c Hc | v c d Hv [chain [Hlen [Hnd Hall]]] Hp].
  - exists [c]. repeat split.
    + constructor; [intros [] | constructor].
    + destruct H as [<-|[]]. now apply roots_bound.
    + destruct H as [<-|[]]. exists 0. split; [lia | now constructor].
  - exists (c :: chain). split; [simpl; lia|]. split.
    + constructor; [|exact Hnd]. intros Hin.
      destruct (Hall c Hin) as [_ [d' [Hle Hd']]].
      pose proof (depth_unique c _ _ Hd' (depth_kid _ _ v c d Hv Hp)). lia.
    + intros x [<-|Hx].
      * split; [now apply (parent_bound c v)|].
        exists (S d). split; [lia | now apply (depth_kid _ _ v)].
      * destruct (Hall x Hx) as [Hlt [d' [Hle Hd']]].
        split; [exact Hlt|]. exists d'. split; [lia | exact Hd'].
Qed.

Lemma depth_bound (c d : nat) : depth c d -> d < n.
Proof.
  intros Hd. destruct (depth_chain c d Hd) as [chain [Hlen [Hnd Hall]]].
  assert (Hincl : incl chain (seq 0 n)).
  { intros x Hx. apply in_seq. destruct (Hall x Hx). lia. }
  pose proof (NoDup_incl_length Hnd Hincl) as Hle.
  rewrite length_seq in Hle. lia.
Qed.

Hypothesis kids_parent : forall v c, In c (kids v) <-> parent c = Some v.

(** *** The traversal returns *)

Lemma traverse_total (fuel : nat) :
  forall d tree,
    (forall c, In c tree -> depth c d) ->
    d <= n -> n < d + fuel ->
    exists out, traverse fuel tree = Some out.
Proof.
  induction fuel as [|fuel IH]; intros d tree Hd Hdn Hfuel; [lia|].
  simpl. apply visit_total. intros v l Hv Hl.
  apply sorted_In in Hv. pose proof (depth_bound v d (Hd v Hv)) as Hlt.
  apply (IH (S d)); [|lia|lia].
  intros c Hc. apply (depth_kid _ _ v); [now apply Hd|].
  apply kids_parent. unfold WikiWords.kids. now rewrite Hl.
Qed.

(** *** What the layout contains *)

Lemma Lay_members (vs out : list nat) :
  Lay vs out ->
  forall w, In w out <-> exists v, In v vs /\ (v = w \/ descendant v w).
Proof.
  induction 1 as [|v vs sub rest Hsub IHsub Hrest IHrest]; intros w.
  - split; [intros [] | intros [v [[] _]]].
  - simpl. rewrite in_app_iff, IHsub, IHrest. split.
    + intros [<-|[[c [Hc Hw]]|[v' [Hv' Hw]]]].
      * exists v. auto.
      * exists v. split; [now left|]. right.
        apply sorted_In, kids_parent in Hc.
        destruct Hw as [<-|Hw]; [now apply descendant_child|].
        now apply (descendant_step _ v c).
      * exists v'. auto.
    + intros [v' [[<-|Hv'] Hw]].
      * destruct Hw as [->|Hw]; [now left|]. right. left.
        inversion Hw as [v0 c Hc|v0 c w0 Hc Hcw]; subst.
        -- exists w. split; [|now left]. now apply sorted_In, kids_parent.
        -- exists c. split; [|now right]. now apply sorted_In, kids_parent.
      * right. right. eauto.
Qed.

Hypothesis kids_nodup : forall v, NoDup (kids v).

(** Every page is laid out once. *)
Lemma Lay_NoDup (vs out : list nat) :
  Lay vs out ->
  forall d, NoDup vs -> (forall v, In v vs -> depth v d) -> NoDup out.
Proof.
  induction 1 as [|v vs sub rest Hsub IHsub Hrest IHrest]; intros d Hnd Hd;
    [constructor|].
  inversion Hnd as [|v0 vs0 Hv Hvs]; subst.
  assert (Hdv : depth v d) by (apply Hd; now left).
  assert (Hsubd : forall w, In w sub -> descendant v w).
  { intros w Hw. apply (Lay_members _ _ Hsub) in Hw.
    destruct Hw as [c [Hc Hw]]. apply sorted_In, kids_parent in Hc.
    destruct Hw as [<-|Hw]; [now apply descendant_child|].
    now apply (descendant_step _ v c). }
  assert (Hrestd : forall w, In w rest ->
            exists v', In v' vs /\ (v' = w \/ descendant v' w)).
  { intros w Hw. now apply (Lay_members _ _ Hrest). }
  constructor.
  - rewrite in_app_iff. intros [Hin|Hin].
    + destruct (depth_descendant v v d Hdv (Hsubd v Hin))
        as [k Hk].
      pose proof (depth_unique _ _ _ Hdv Hk). lia.
    + destruct (Hrestd v Hin) as [v' [Hv' [->|Hw]]]; [contradiction|].
      assert (Hdv' : depth v' d) by (apply Hd; now right).
      destruct (depth_descendant v' v d Hdv' Hw) as [k Hk].
      pose proof (depth_unique _ _ _ Hdv Hk). lia.
  - apply NoDup_app.
    + apply (IHsub (S d)).
      * apply (Permutation_NoDup (Permutation_sym (sorted_perm position _))).
        apply kids_nodup.
      * intros c Hc. apply sorted_In, kids_parent in Hc.
        now apply (depth_kid _ _ v).
    + apply (IHrest d); [exact Hvs|]. intros v' Hv'. apply Hd. now right.
    + intros w Hw1 Hw2. destruct (Hrestd w Hw2) as [v' [Hv' Hw']].
      assert (Hdv' : depth v' d) by (apply Hd; now right).
      assert (v = v').
      { apply (ancestor_unique v v' w d); auto. }
      subst v'. contradiction.
Qed.

(** The layout of a page's children follows the page at once. *)
Lemma Lay_block (vs out : list nat) :
  Lay vs out ->
  forall pre v post, out = pre ++ v :: post ->
    exists sub rest,
      post = sub ++ rest /\ Lay (sorted position (kids v)) sub.
Proof.
  induction 1 as [|v0 vs sub0 rest0 Hsub IHsub Hrest IHrest];
    intros pre v post Hout.
  - destruct pre; discriminate.
  - destruct pre as [|x pre]; simpl in Hout.
    + injection Hout as <- <-. eauto.
    + injection Hout as <- Hout.
      apply app_eq_app in Hout. destruct Hout as [l [[Hs Hr]|[Hs Hr]]].
      * destruct l as [|y l]; simpl in Hr.
        -- apply (IHrest [] v post). simpl. congruence.
        -- injection Hr as Hv Hp. subst y post.
           destruct (IHsub pre v l Hs) as [s [r [Hl1 Hl]]].
           exists s, (r ++ rest0). split; [|exact Hl].
           rewrite Hl1. now rewrite app_assoc.
      * apply (IHrest l v post). exact Hr.
Qed.

(** Where two elements of a concatenation lie. *)
Lemma split_two {A} (l1 l2 a b c : list A) (u w : A) :
  l1 ++ l2 = a ++ u :: b ++ w :: c ->
  (exists c', l1 = a ++ u :: b ++ w :: c')
  \/ (In u l1 /\ In w l2)
  \/ (exists a', l2 = a' ++ u :: b ++ w :: c).
Proof.
  intros Heq. apply app_eq_app in Heq.
  destruct Heq as [l [[H1 H2]|[H1 H2]]].
  - destruct l as [|y l]; simpl in H2.
    + right. right. exists []. simpl. congruence.
    + injection H2 as Hy H2. subst y.
      apply app_eq_app in H2. destruct H2 as [m [[H3 H4]|[H3 H4]]].
      * right. left. subst l1 l2. split; apply in_or_app; right; now left.
      * destruct m as [|z m]; simpl in H4.
        -- right. left. subst l1 l2. split; [|now left].
           apply in_or_app. right. now left.
        -- injection H4 as Hz H4. subst z. left. exists m.
           now subst l1 l.
  - right. right. exists l. exact H2.
Qed.

(** Siblings are laid out in ascending position. *)
Lemma Lay_siblings (vs out : list nat) :
  Lay vs out ->
  forall d, StronglySorted (key_le position) vs -> NoDup vs ->
    (forall v, In v vs -> depth v d) ->
    forall a u b w c, out = a ++ u :: b ++ w :: c ->
      parent u = parent w -> (position u <= position w)%Z.
Proof.
  induction 1 as [|v vs sub rest Hsub IHsub Hrest IHrest];
    intros d Hsorted Hnd Hd a u b w c Hout Hp.
  - destruct a; discriminate.
  - inversion Hnd as [|v0 vs0 Hv Hvs]; subst.
    apply StronglySorted_inv in Hsorted. destruct Hsorted as [Hsvs Hall].
    assert (Hdv : depth v d) by (apply Hd; now left).
    assert (Hdvs : forall v', In v' vs -> depth v' d).
    { intros v' Hv'. apply Hd. now right. }
    assert (Hsubd : forall x, In x sub -> descendant v x).
    { intros x Hx. apply (Lay_members _ _ Hsub) in Hx.
      destruct Hx as [k [Hk Hx]]. apply sorted_In, kids_parent in Hk.
      destruct Hx as [<-|Hx]; [now apply descendant_child|].
      now apply (descendant_step _ v k). }
    assert (Hrestd : forall x, In x rest -> depth x d -> In x vs).
    { intros x Hx Hdx. apply (Lay_members _ _ Hrest) in Hx.
      destruct Hx as [v' [Hv' [<-|Hx]]]; [exact Hv'|].
      destruct (depth_descendant v' x d (Hdvs v' Hv') Hx)
        as [k Hk].
      pose proof (depth_unique _ _ _ Hdx Hk). lia. }
    (* a page of [sub] and a page of [rest] are not siblings *)
    assert (Hcross : forall x y, In x sub -> In y rest ->
              parent x = parent y -> False).
    { intros x y Hx Hy Hxy. pose proof (Hsubd x Hx) as Hvx.
      destruct (depth_descendant v x d Hdv Hvx) as [k Hk].
      apply (Lay_members _ _ Hrest) in Hy.
      destruct Hy as [v' [Hv' Hy]].
      inversion Hk as [|p x0 d0 Hdp Hpx]; subst.
      destruct Hy as [<-|Hy].
      - pose proof (depth_same_parent _ _ _ _ Hk (Hdvs v' Hv') Hxy).
        lia.
      - assert (Hpy : parent y = Some p) by congruence.
        assert (v = v'); [|subst v'; contradiction].
        apply (ancestor_unique v v' p d); auto.
        + now apply (descendant_parent v x p).
        + now apply (descendant_parent v' y p). }
    change (v :: sub ++ rest) with ([v] ++ (sub ++ rest)) in Hout.
    apply split_two in Hout.
    destruct Hout as [[c' Hc']|[[Hu Hw]|[a' Ha']]].
    + destruct a as [|x [|y a]]; simpl in Hc'; try discriminate.
      * destruct b; discriminate.
    + destruct Hu as [<-|[]]. apply in_app_or in Hw. destruct Hw as [Hw|Hw].
      * exfalso. destruct (depth_descendant v w d Hdv (Hsubd w Hw))
          as [k Hk].
        pose proof (depth_same_parent _ _ _ _ Hdv Hk Hp). lia.
      * assert (Hdw : depth w d).
        { apply (Lay_members _ _ Hrest) in Hw.
          destruct Hw as [v' [Hv' [<-|Hw]]]; [now apply Hdvs|].
          destruct (depth_descendant v' w d (Hdvs v' Hv') Hw)
            as [k Hk].
          pose proof (depth_same_parent _ _ _ _ Hdv Hk Hp). lia. }
        rewrite Forall_forall in Hall. apply Hall. now apply Hrestd.
    + apply split_two in Ha'.
      destruct Ha' as [[c' Hc']|[[Hu Hw]|[a'' Ha'']]].
      * apply (IHsub (S d)) with (a := a') (b := b) (c := c'); auto.
        -- apply sorted_ordered.
        -- apply (Permutation_NoDup (Permutation_sym (sorted_perm position _))).
           apply kids_nodup.
        -- intros k Hk. apply sorted_In, kids_parent in Hk.
           now apply (depth_kid _ _ v).
      * exfalso. now apply (Hcross u w).
      * apply (IHrest d) with (a := a'') (b := b) (c := c); auto.
Qed.

(** The layout of a page's children holds its descendants and no other
    page. *)
Lemma Lay_descendants (v : nat) (sub : list nat) :
  Lay (sorted position (kids v)) sub ->
  forall w, In w sub <-> descendant v w.
Proof.
  intros Hsub w. rewrite (Lay_members _ _ Hsub). split.
  - intros [c [Hc Hw]]. apply sorted_In, kids_parent in Hc.
    destruct Hw as [<-|Hw]; [now apply descendant_child|].
    now apply (descendant_step _ v c).
  - intros Hw. inversion Hw as [v0 c Hc|v0 c w0 Hc Hcw]; subst.
    + exists w. split; [|now left]. now apply sorted_In, kids_parent.
    + exists c. split; [|now right]. now apply sorted_In, kids_parent.
Qed.

Lemma Lay_depth (vs out : list nat) (d : nat) :
  Lay vs out -> (forall v, In v vs -> depth v d) ->
  forall w, In w out -> exists d', depth w d'.
Proof.
  intros Hlay Hd w Hw. apply (Lay_members _ _ Hlay) in Hw.
  destruct Hw as [v [Hv [<-|Hw]]]; [eauto|].
  destruct (depth_descendant v w d (Hd v Hv) Hw) as [k Hk]. eauto.
Qed.

(** The descendants of a page come before its next sibling. *)
Lemma Lay_siblings_apart (vs out : list nat) (d : nat) :
  Lay vs out -> (forall v, In v vs -> depth v d) ->
  forall a u b w c, out = a ++ u :: b ++ w :: c ->
    parent u = parent w ->
    forall x, descendant u x -> In x b.
Proof.
  intros Hlay Hd a u b w c Hout Hp x Hx.
  destruct (Lay_block _ _ Hlay a u (b ++ w :: c) Hout) as [sub [rest [Hs Hsub]]].
  pose proof (Lay_descendants u sub Hsub) as Hmem.
  assert (Hu : exists du, depth u du).
  { apply (Lay_depth vs out d Hlay Hd). rewrite Hout.
    apply in_or_app. right. now left. }
  assert (Hw : exists dw, depth w dw).
  { apply (Lay_depth vs out d Hlay Hd). rewrite Hout.
    apply in_or_app. right. right. apply in_or_app. right. now left. }
  destruct Hu as [du Hu], Hw as [dw Hw].
  assert (Hnot : ~ In w sub).
  { intros Hin. apply Hmem in Hin.
    destruct (depth_descendant u w du Hu Hin) as [k Hk].
    pose proof (depth_unique _ _ _ Hw Hk).
    pose proof (depth_same_parent _ _ _ _ Hu Hw Hp). lia. }
  apply Hmem in Hx.
  apply app_eq_app in Hs. destruct Hs as [l [[H1 H2]|[H1 H2]]].
  - destruct l as [|y l]; simpl in H2.
    + rewrite app_nil_r in H1. now subst b.
    + subst b. apply in_or_app. now left.
  - destruct l as [|y l]; simpl in H2.
    + rewrite app_nil_r in H1. now subst b.
    + injection H2 as Hy H2. subst y. exfalso. apply Hnot. rewrite H1.
      apply in_or_app. right. now left.
Qed.

End Forest.

End WikiForest.

(** ** The tree builder: levels, missing roots and the pre-order *)

Module WikiSpec.

Lemma position_of_source (store pages : list Page.t) (r : nat) :
  map source store = map source pages ->
  position_of store r = position_of pages r.
Proof.
  intros Hs. unfold position_of.
  assert (H : nth_error (map source store) r = nth_error (map source pages) r)
    by now rewrite Hs.
  rewrite !nth_error_map in H.
  apply (f_equal (option_map Page.position)) in H.
  destruct (nth_error store r), (nth_error pages r); simpl in H;
    congruence.
Qed.

Lemma group_roots (pages : list Page.t) (c : nat) :
  In c (group pages KNone (List.length pages)) <-> is_root pages c.
Proof.
  rewrite group_In. unfold is_root. split.
  - intros [_ H]. exact H.
  - intros [v [Hv Hk]]. split; [|eauto]. apply nth_error_Some. congruence.
Qed.

Section Final.
Variable fromisoformat : string -> option Z.
Variable users : dict pykey User.t.
Variable pages : list Page.t.
Variable st : state.

Local Abbreviation index := (index_refs (map Page.id pages)).
Local Abbreviation n := (List.length pages).
Local Abbreviation roots := (group pages KNone n).

Hypothesis loop :
  enrich_pages fromisoformat users index (combine (seq 0 n) pages) (pages, [])
  = Ok st.

Lemma root_no_parent (c : nat) : In c roots -> parent_of pages c = None.
Proof.
  intros Hc. apply group_In in Hc. destruct Hc as [_ [v [Hv Hk]]].
  unfold parent_of. now rewrite Hv, Hk.
Qed.

Lemma root_bound (c : nat) : In c roots -> c < n.
Proof. intros Hc. apply group_In in Hc. tauto. Qed.

Lemma parent_of_bound (c v : nat) : parent_of pages c = Some v -> c < n.
Proof.
  unfold parent_of. intros Hp. apply nth_error_Some.
  destruct (nth_error pages c); congruence.
Qed.

(** The list a page's [_children] refers to after the loop. *)
Lemma kids_final (v : nat) :
  kids (children_of st) v = [] \/
  exists k, children_field (fst st) v = Some (TreeList k)
            /\ kids (children_of st) v = group pages k n.
Proof.
  unfold kids, children_of, children_field.
  destruct (nth_error (fst st) v) as [p|]; [|now left].
  destruct (Page._children p) as [[|k]|]; [now left | | now left].
  right. exists k. split; [reflexivity|].
  rewrite (wikitree_groups fromisoformat users pages st loop k).
  now destruct (group pages k n).
Qed.

Lemma kids_final_nodup (v : nat) : NoDup (kids (children_of st) v).
Proof.
  destruct (kids_final v) as [->|[k [_ ->]]];
    [constructor | apply group_NoDup].
Qed.

Hypothesis rows_fresh : Forall fresh pages.

(** The children lists are the inverse of the parent links. *)
Lemma kids_final_parent (v c : nat) :
  In c (kids (children_of st) v) <-> parent_of pages c = Some v.
Proof.
  destruct (children_links fromisoformat users pages st rows_fresh loop)
    as [Hup Hdown].
  split.
  - intros Hc. destruct (kids_final v) as [E|[k [Hf E]]];
      rewrite E in Hc; [destruct Hc|].
    apply group_In in Hc. destruct Hc as [_ [vc [Hvc Hk]]].
    destruct (Hup v k Hf) as [Ht Hi].
    unfold parent_of. now rewrite Hvc, Hk, Ht.
  - unfold parent_of. intros Hp.
    destruct (nth_error pages c) as [vc|] eqn:Evc; [|discriminate].
    destruct (truthy (Page.parent_id vc)) eqn:Et; [|discriminate].
    destruct (Hdown c vc Evc Et) as [r [Hr Hf]].
    assert (r = v) by congruence. subst r.
    destruct (kids_final v) as [E|[k [Hf' E]]].
    + exfalso. unfold kids, children_of, children_field in *.
      destruct (nth_error (fst st) v) as [p|]; [|discriminate].
      rewrite Hf in E.
      rewrite (wikitree_groups fromisoformat users pages st loop) in E.
      assert (Hin : In c (group pages (Page.parent_id vc) n)).
      { apply group_In. split; [|eauto]. apply nth_error_Some. congruence. }
      destruct (group pages (Page.parent_id vc) n); [destruct Hin | discriminate].
    + rewrite E. assert (k = Page.parent_id vc) by congruence. subst k.
      apply group_In. split; [|eauto]. apply nth_error_Some. congruence.
Qed.

End Final.



(** C2. The code sets the levels in one forward pass and reads the level
    of a parent before it is set.  With the grandchild first, the child
    second and the root last, the pass completes and leaves the grandchild
    (object 0) at level 1, the level of its own parent (object 1), where
    the field note of the code says [_level  Wiki level, 0=top-level]; a
    second pass over the rows so enriched finds the level of the parent and
    gives the grandchild level 2. *)
Theorem C2_child_listed_first_gets_level_1 :
  exists st,
    enrich_pages Iso.fromisoformat sample_users
      (index_refs (map Page.id child_first))
      (combine (seq 0 (List.length child_first)) child_first)
      (child_first, []) = Ok st
    /\ parent_of child_first 0 = Some 1
    /\ parent_of child_first 1 = Some 2
    /\ parent_of child_first 2 = None
    /\ map (level_of (fst st)) [0; 1; 2] = [Some 1; Some 1; Some 0]
    /\ level_of (fst st) 0 <> option_map S (level_of (fst st) 1)
    /\ exists st2,
         enrich_pages Iso.fromisoformat sample_users
           (index_refs (map Page.id (fst st)))
           (combine (seq 0 (List.length (fst st))) (fst st)) (fst st, [])
         = Ok st2
         /\ map (level_of (fst st2)) [0; 1; 2] = [Some 2; Some 1; Some 0].
Proof.
  eexists. split; [vm_compute; reflexivity|].
  repeat (split; [vm_compute; try reflexivity; discriminate|]).
  eexists. split; vm_compute; reflexivity.
Qed.

(** C3. When the enrichment loops have completed over fresh rows and some
    row has [parent_id] [None], [wikiparser] returns, and the sequence it
    returns is the pre-order of the forest of parent links: it lists once
    each the roots and their descendants; every page is followed at once
    by a block that holds exactly its descendants; and of two pages with
    the same parent the earlier one has the position that is not greater,
    and all its descendants come before the later one. *)
Theorem C3_preorder_traversal (fromisoformat : string -> option Z)
  (data : Data) (pages : list Page.t) (st : state)
  (vs vs' : list Version.t) :
  wiki_pages data = Some pages ->
  Forall fresh pages ->
  enrich_pages fromisoformat (_users data) (index_refs (map Page.id pages))
    (combine (seq 0 (List.length pages)) pages) (pages, []) = Ok st ->
  wiki_page_versions data = Some vs ->
  enrich_versions fromisoformat (_users data)
    (index_refs (map Page.id pages)) (wiki_page_blobs data) vs = Ok vs' ->
  (exists r, is_root pages r) ->
  exists order,
    wikiparser fromisoformat data = Ok (fst st, vs', order)
    /\ NoDup order
    /\ (forall v, In v order <->
          is_root pages v
          \/ exists r, is_root pages r /\ descendant (parent_of pages) r v)
    /\ (forall pre v post, order = pre ++ v :: post ->
          exists sub rest,
            post = sub ++ rest
            /\ forall w, In w sub <-> descendant (parent_of pages) v w)
    /\ (forall a u b w c, order = a ++ u :: b ++ w :: c ->
          parent_of pages u = parent_of pages w ->
          (position_of pages u <= position_of pages w)%Z
          /\ forall x, descendant (parent_of pages) u x -> In x b).
Proof.
  intros Hpages Hfresh Hloop Hvs Hvs' [r0 Hr0].
  set (n := List.length pages).
  set (roots := group pages KNone n).
  pose proof (wikitree_groups fromisoformat (_users data) pages st Hloop KNone)
    as Hroots.
  assert (Hr0' : In r0 roots) by now apply group_roots.
  fold n in Hroots. fold roots in Hroots.
  assert (Hget : dict_get KNone (snd st) = Some roots).
  { rewrite Hroots. destruct roots; [destruct Hr0' | reflexivity]. }
  assert (Hsrc : map source (fst st) = map source pages).
  { apply (enrich_pages_invariant fromisoformat (_users data) pages
             (fun _ _ => True)); auto. }
  assert (Hlen : List.length (fst st) = n).
  { unfold n. rewrite <- (length_map source (fst st)), Hsrc.
    apply length_map. }
  pose proof (root_no_parent pages) as RP.
  pose proof (root_bound pages) as RB.
  pose proof (parent_of_bound pages) as PB.
  pose proof (kids_final_parent fromisoformat (_users data) pages st Hloop
                Hfresh) as KP.
  pose proof (kids_final_nodup fromisoformat (_users data) pages st Hloop)
    as KN.
  fold n in RP, RB, PB. fold roots in RP, RB.
  assert (Hdepth0 : forall c, In c roots -> depth (parent_of pages) roots c 0).
  { intros c Hc. now constructor. }
  destruct (WikiForest.traverse_total (position_of (fst st))
              (children_of st) (parent_of pages) roots n RP RB PB KP
              (S n) 0 roots Hdepth0 ltac:(lia) ltac:(lia)) as [order Horder].
  exists order.
  pose proof (WikiForest.traverse_Lay _ _ _ _ _ Horder) as Hlay.
  assert (Hdepth : forall v, In v (sorted (position_of (fst st)) roots) ->
            depth (parent_of pages) roots v 0).
  { intros v Hv. apply Hdepth0. now apply sorted_In in Hv. }
  assert (Hnd : NoDup (sorted (position_of (fst st)) roots)).
  { apply (Permutation_NoDup (Permutation_sym (sorted_perm _ _))).
    apply group_NoDup. }
  split; [|split; [|split; [|split]]].
  - unfold wikiparser. rewrite Hpages, Hloop. simpl.
    rewrite Hvs, Hvs'. simpl. rewrite Hget, Hlen.
    simpl in Horder. rewrite Horder. reflexivity.
  - apply (WikiForest.Lay_NoDup _ _ _ roots RP KP KN _ _ Hlay 0 Hnd Hdepth).
  - intros v. rewrite (WikiForest.Lay_members _ _ _ KP _ _ Hlay). split.
    + intros [r [Hr [<-|Hv]]].
      * left. apply sorted_In in Hr. now apply group_roots in Hr.
      * right. exists r. split; [|exact Hv].
        apply sorted_In in Hr. now apply group_roots in Hr.
    + intros [Hv|[r [Hr Hv]]].
      * exists v. split; [|now left]. now apply sorted_In, group_roots.
      * exists r. split; [|now right]. now apply sorted_In, group_roots.
  - intros pre v post Hsplit.
    destruct (WikiForest.Lay_block _ _ _ _ Hlay pre v post Hsplit)
      as [sub [rest [Hpost Hsub]]].
    exists sub, rest. split; [exact Hpost|].
    apply (WikiForest.Lay_descendants _ _ _ KP v sub Hsub).
  - intros a u b w c Hsplit Hp. split.
    + rewrite <- !(position_of_source (fst st) pages) by exact Hsrc.
      apply (WikiForest.Lay_siblings _ _ _ roots RP KP KN _ _ Hlay 0
               (sorted_ordered _ _) Hnd Hdepth a u b w c Hsplit Hp).
    + apply (WikiForest.Lay_siblings_apart _ _ _ roots RP KP _ _ 0 Hlay
               Hdepth a u b w c Hsplit Hp).
Qed.

Lemma C3_preorder_traversal_witness :
  exists st : state,
    wikiparser Iso.fromisoformat (data_of forest) = Ok (fst st, [], [3; 0; 2; 4; 1])
    /\ NoDup [3; 0; 2; 4; 1]
    /\ (position_of forest 2 <= position_of forest 1)%Z.
Proof.
  destruct (enrich_pages Iso.fromisoformat sample_users
              (index_refs (map Page.id forest))
              (combine (seq 0 (List.length forest)) forest) (forest, []))
    as [st|e] eqn:Eloop; [|vm_compute in Eloop; discriminate].
  destruct (C3_preorder_traversal Iso.fromisoformat (data_of forest) forest
              st [] [] eq_refl) as [order [Hrun [Hnd [_ [_ Hsib]]]]].
  - repeat constructor.
  - exact Eloop.
  - reflexivity.
  - reflexivity.
  - exists 0. exists (page 1 KNone 5). split; reflexivity.
  - assert (Ho : order = [3; 0; 2; 4; 1]).
    { assert (Hst : Ok st = enrich_pages Iso.fromisoformat sample_users
                (index_refs (map Page.id forest))
                (combine (seq 0 (List.length forest)) forest) (forest, []))
        by now rewrite Eloop.
      vm_compute in Hst. injection Hst as ->.
      vm_compute in Hrun. now injection Hrun as <-. }
    subst order. exists st. split; [exact Hrun|]. split; [exact Hnd|].
    apply (Hsib [3; 0] 2 [4] 1 []); reflexivity.
Defined.

End WikiSpec.

(** ** From the tree builder to the replay generator *)

(** The rows [wikiparser] returns have the fields the replay generator
    reads: every page object and every version row has its enriched view. *)
Module WikiEnriched.

Lemma update_preserves (Q : Page.t -> Prop) (i r : nat)
  (f : Page.t -> Page.t) (store : list Page.t) :
  (forall p, Q p -> Q (f p)) ->
  holds Q store r -> holds Q (update i f store) r.
Proof.
  intros Hf [p [Hp Hq]]. unfold holds. rewrite nth_error_update, Hp.
  destruct (i =? r); simpl; eauto.
Qed.

Lemma update_establishes (Q : Page.t -> Prop) (i : nat)
  (f : Page.t -> Page.t) (store : list Page.t) :
  i < List.length store ->
  (forall p, Q (f p)) ->
  holds Q (update i f store) i.
Proof.
  intros Hi Hf. unfold holds. rewrite nth_error_update, Nat.eqb_refl.
  destruct (nth_error store i) as [p|] eqn:Ep;
    [|apply nth_error_None in Ep; lia].
  simpl. eauto.
Qed.

Lemma setdefault_children_dated (p : Page.t) :
  dated p -> dated (Page.setdefault_children p).
Proof. unfold Page.setdefault_children. now destruct (Page._children p). Qed.

Lemma setdefault_children_levelled (p : Page.t) :
  levelled p -> levelled (Page.setdefault_children p).
Proof. unfold Page.setdefault_children. now destruct (Page._children p). Qed.

Section Enriched.
Variable fromisoformat : string -> option Z.
Variable users : dict pykey User.t.
Variable pages : list Page.t.

Local Abbreviation index := (index_refs (map Page.id pages)).

Lemma enrich_page_enriches (i : nat) (v : Page.t) (st st' : state) :
  enrich_page fromisoformat users index i v st = Ok st' ->
  i < List.length (fst st) ->
  (holds dated (fst st') i /\ holds levelled (fst st') i)
  /\ (forall r, holds dated (fst st) r -> holds dated (fst st') r)
  /\ (forall r, holds levelled (fst st) r -> holds levelled (fst st') r).
Proof.
  destruct st as [store wt], st' as [store' wt']. simpl fst.
  intros Hstep Hi. unfold enrich_page in Hstep.
  destruct (dict_get (Page.user_id v) users) as [user|]; [|discriminate].
  destruct (fromisoformat (Page.created_at v)) as [c|]; [|discriminate].
  destruct (fromisoformat (Page.updated_at v)) as [u|]; [|discriminate].
  set (s3 := update i (Page.set_user_id user)
               (update i Page.setdefault_children
                  (update i (Page.set_parent_id
                               (dict_get (Page.parent_id v) index)) store)))
    in *.
  assert (H3 : List.length s3 = List.length store)
    by (unfold s3; now rewrite !length_update).
  assert (Hd3 : forall r, holds dated store r -> holds dated s3 r).
  { intros r Hr. unfold s3.
    repeat apply update_preserves; auto using setdefault_children_dated. }
  assert (Hl3 : forall r, holds levelled store r -> holds levelled s3 r).
  { intros r Hr. unfold s3.
    repeat apply update_preserves; auto using setdefault_children_levelled. }
  assert (Hd4 : holds dated (update i (Page.set_dates c u) s3) i).
  { apply update_establishes; [lia|]. intros p. split; discriminate. }
  assert (Hd5 : forall r, holds dated store r ->
            holds dated (update i (Page.set_dates c u) s3) r).
  { intros r Hr. apply update_preserves; [|now apply Hd3].
    intros q _. split; discriminate. }
  assert (Hl5 : forall r, holds levelled store r ->
            holds levelled (update i (Page.set_dates c u) s3) r).
  { intros r Hr. apply update_preserves; [|now apply Hl3].
    intros q Hq. exact Hq. }
  destruct (truthy (Page.parent_id v)).
  - destruct (dict_get (Page.parent_id v) index) as [p|]; [|discriminate].
    injection Hstep as <- <-. split; [split|split].
    + apply update_preserves; [intros q Hq; exact Hq|].
      apply update_preserves; [intros q Hq; exact Hq | exact Hd4].
    + apply update_establishes; [now rewrite !length_update, H3|].
      intros q. discriminate.
    + intros r Hr.
      apply update_preserves; [intros q Hq; exact Hq|].
      apply update_preserves; [intros q Hq; exact Hq | now apply Hd5].
    + intros r Hr.
      apply update_preserves; [intros q _; discriminate|].
      apply update_preserves; [intros q Hq; exact Hq | now apply Hl5].
  - injection Hstep as <- <-. split; [split|split].
    + apply update_preserves; [intros q Hq; exact Hq | exact Hd4].
    + apply update_establishes; [now rewrite !length_update, H3|].
      intros q. discriminate.
    + intros r Hr.
      apply update_preserves; [intros q Hq; exact Hq | now apply Hd5].
    + intros r Hr.
      apply update_preserves; [intros q _; discriminate | now apply Hl5].
Qed.

(** After the loop every page object has its dates and its level. *)
Lemma pages_enriched (st : state) :
  enrich_pages fromisoformat users index
    (combine (seq 0 (List.length pages)) pages) (pages, []) = Ok st ->
  forall r, r < List.length pages -> page_view (fst st) r <> None.
Proof.
  intros Hrun.
  pose (Inv := fun (m : nat) (s : state) =>
    forall r, r < m -> holds dated (fst s) r /\ holds levelled (fst s) r).
  assert (Hend : Inv (List.length pages) st
                 /\ map source (fst st) = map source pages).
  { apply (enrich_pages_invariant fromisoformat users pages Inv);
      [| | exact Hrun].
    - intros r Hr. lia.
    - intros m v s s' Hv Hsrc Hinv Hstep r Hr.
      assert (Hm : m < List.length (fst s)).
      { rewrite (source_length pages _ Hsrc). apply nth_error_Some. congruence. }
      destruct (enrich_page_enriches m v s s' Hstep Hm) as [[Hd Hl] [Hpd Hpl]].
      destruct (Nat.eq_dec r m) as [->|Hne]; [auto|].
      destruct (Hinv r ltac:(lia)). auto. }
  destruct Hend as [Hinv _]. intros r Hr.
  destruct (Hinv r Hr) as [[p [Hp [Hc _]]] [p' [Hp' Hl]]].
  assert (p' = p) by congruence. subst p'.
  unfold page_view. rewrite Hp. unfold levelled in Hl.
  destruct (Page._created_at p); [|congruence].
  destruct (Page._level p); [discriminate | congruence].
Qed.

Lemma versions_enriched (blobs : option (list Blob.t))
  (vs vs' : list Version.t) :
  enrich_versions fromisoformat users index blobs vs = Ok vs' ->
  forall v, In v vs' ->
    exists r u a,
      Version._wiki_page_id v = Some r /\ r < List.length pages
      /\ Version._updated_at v = Some u /\ Version._user_id v = Some a.
Proof.
  revert vs'. induction vs as [|v0 vs IH]; intros vs' Hrun v Hv;
    simpl in Hrun.
  - injection Hrun as <-. destruct Hv.
  - destruct (enrich_version fromisoformat users index blobs v0) as [v1|]
      eqn:E1; [|discriminate]. simpl in Hrun.
    destruct (enrich_versions fromisoformat users index blobs vs) as [rest|];
      [|discriminate]. simpl in Hrun. injection Hrun as <-.
    destruct Hv as [<-|Hv]; [|now apply (IH rest)].
    unfold enrich_version in E1.
    destruct blobs as [bs|]; [|discriminate].
    destruct (dict_get (Version.id v0) _) as [blob|]; [|discriminate].
    destruct (dict_get (Version.wiki_page_id v0) index) as [page|] eqn:Ep;
      [|discriminate].
    destruct (dict_get (Version.user_id v0) users) as [user|]; [|discriminate].
    destruct (fromisoformat (Version.created_at v0)) as [c|]; [|discriminate].
    destruct (fromisoformat (Version.updated_at v0)) as [u|]; [|discriminate].
    injection E1 as <-. exists page, u, user. simpl.
    repeat split. now apply (index_range pages (Version.wiki_page_id v0) page).
Qed.

End Enriched.

(** Whatever [wikiparser] returns can be handed to the replay generator:
    all page objects and all version rows have their enriched view. *)
Lemma wikiparser_enriches (fromisoformat : string -> option Z) (data : Data)
  (store : list Page.t) (versions : list Version.t) (order : list nat) :
  wikiparser fromisoformat data = Ok (store, versions, order) ->
  (forall r, r < List.length store -> page_view store r <> None)
  /\ (forall v, In v versions -> version_view store v <> None).
Proof.
  unfold wikiparser. intros Hrun.
  destruct (wiki_pages data) as [pages|]; [|discriminate].
  destruct (enrich_pages fromisoformat (_users data)
              (index_refs (map Page.id pages))
              (combine (seq 0 (List.length pages)) pages) (pages, []))
    as [st|] eqn:Eloop; [|discriminate]. simpl in Hrun.
  destruct (wiki_page_versions data) as [vs|]; [|discriminate].
  destruct (enrich_versions fromisoformat (_users data)
              (index_refs (map Page.id pages)) (wiki_page_blobs data) vs)
    as [vs'|] eqn:Evs; [|discriminate]. simpl in Hrun.
  destruct (dict_get KNone (snd st)) as [roots|]; [|discriminate].
  match type of Hrun with
  | match ?t with _ => _ end = _ => destruct t as [out|]; [|discriminate]
  end.
  injection Hrun as <- <- <-.
  assert (Hlen : List.length (fst st) = List.length pages).
  { apply (source_length pages).
    apply (enrich_pages_invariant fromisoformat (_users data) pages
             (fun _ _ => True)); auto. }
  pose proof (pages_enriched fromisoformat (_users data) pages st Eloop)
    as Hpages.
  split.
  - intros r Hr. apply Hpages. lia.
  - intros v Hv.
    destruct (versions_enriched fromisoformat (_users data) pages _ _ _ Evs v Hv)
      as [r [u [a [Hr [Hlt [Hu Ha]]]]]].
    unfold version_view. rewrite Hu, Hr, Ha.
    pose proof (Hpages r Hlt) as Hview.
    destruct (page_view (fst st) r); congruence.
Qed.

End WikiEnriched.

(* ====================================================================== *)
(** * Part III: further properties of the code                            *)
(* ====================================================================== *)

(** ** The line interpreter, line by line *)

Module LinesMore.

Lemma filter_string_all (f : ascii -> bool) (s : string) (c : ascii) :
  In c (list_ascii_of_string (filter_string f s)) -> f c = true.
Proof.
  induction s as [|x s IH]; simpl; [intros []|].
  destruct (f x) eqn:E; simpl; [|exact IH].
  intros [<-|Hc]; auto.
Qed.

Lemma rstrip_blank (s : string) :
  (forall c, In c (list_ascii_of_string s) -> isspace c = true) ->
  rstrip s = EmptyString.
Proof.
  induction s as [|x s IH]; intros Hall; [reflexivity|].
  simpl. rewrite IH by (intros c Hc; apply Hall; now right).
  now rewrite (Hall x (or_introl eq_refl)).
Qed.

Lemma dict_contains_set {V} (k k' : string) (v : V) (d : dict string V) :
  dict_contains k d = true -> dict_contains k (dict_set k' v d) = true.
Proof.
  unfold dict_contains. rewrite dict_get_set.
  destruct (eq_dec k' k); [reflexivity | auto].
Qed.

Section WithDecoder.
Variable json_loads : string -> option json.

(** What a yielding iteration has done. *)
Lemma interpret_line_yield (fieldmap fieldmap' : dict string json)
  (linenum : nat) (rawline : string) (log : list logrecord)
  (item : nat * string * string * Row) :
  interpret_line json_loads fieldmap linenum rawline
    = (fieldmap', log, Yield item) ->
  fieldmap' = fieldmap
  /\ is_data_row (clean rawline) = true
  /\ exists fieldlist row,
       dict_get (table_of (clean rawline)) fieldmap = Some fieldlist
       /\ snd (mapjsonlinetoassembblaobject json_loads
                 (currentline (clean rawline) (table_of (clean rawline)))
                 fieldlist linenum (table_of (clean rawline))) = Ok row
       /\ item = (linenum, clean rawline, table_of (clean rawline), row).
Proof.
  unfold interpret_line, is_data_row, clean, table_of. cbv zeta.
  set (line := filter_string printable (rstrip rawline)).
  destruct (Nat.ltb_spec 2 (List.length (split ":fields, " line)));
    [discriminate|].
  destruct (Nat.ltb_spec 1 (List.length (split ":fields, " line))).
  { destruct (json_loads _); discriminate. }
  destruct (Nat.ltb_spec (List.length (split ", [" line)) 2); [discriminate|].
  destruct (dict_get (nth 0 (split ", [" line) EmptyString) fieldmap)
    as [fieldlist|] eqn:Efl; [|discriminate].
  destruct (mapjsonlinetoassembblaobject json_loads _ fieldlist linenum _)
    as [log' [row|e]] eqn:Emap; [|discriminate].
  intros Heq. injection Heq as <- _ <-.
  split; [reflexivity|]. split.
  - apply andb_true_iff. split; apply Nat.leb_le; lia.
  - exists fieldlist, row. rewrite Emap. auto.
Qed.

(** An iteration never forgets a declared table. *)
Lemma interpret_line_keeps (fieldmap fieldmap' : dict string json)
  (linenum : nat) (rawline : string) (log : list logrecord) (s : step)
  (t : string) :
  interpret_line json_loads fieldmap linenum rawline = (fieldmap', log, s) ->
  dict_contains t fieldmap = true -> dict_contains t fieldmap' = true.
Proof.
  unfold interpret_line. cbv zeta.
  set (line := filter_string printable (rstrip rawline)).
  destruct (2 <? List.length (split ":fields, " line)).
  { intros Heq. now injection Heq as <- _ _. }
  destruct (1 <? List.length (split ":fields, " line)).
  { destruct (json_loads _); intros Heq; injection Heq as <- _ _; auto.
    apply dict_contains_set. }
  destruct (List.length (split ", [" line) <? 2).
  { intros Heq. now injection Heq as <- _ _. }
  destruct (dict_get _ fieldmap) as [fieldlist|].
  - destruct (mapjsonlinetoassembblaobject json_loads _ fieldlist linenum _)
      as [log' [row|e]]; intros Heq; now injection Heq as <- _ _.
  - intros Heq. now injection Heq as <- _ _.
Qed.

Lemma generator_loop_keeps (lines : list string)
  (fieldmap : dict string json) (start : nat) (t : string) :
  dict_contains t fieldmap = true ->
  dict_contains t (fieldmap_of (generator_loop json_loads fieldmap start lines))
  = true.
Proof.
  revert fieldmap start. induction lines as [|raw lines IH];
    intros fieldmap start Ht; [exact Ht|].
  simpl. destruct (interpret_line json_loads fieldmap start raw)
    as [[fm' log] s] eqn:E.
  pose proof (interpret_line_keeps _ _ _ _ _ _ t E Ht) as Ht'.
  destruct s; simpl; auto.
Qed.

End WithDecoder.

(** X1. Every tuple the generator yields comes from one raw line: its
    number is the index of that line, its text is the line cleaned, which
    holds printable characters only, its table is the text before the first
    comma-space-bracket, and that table is declared in the field map the
    run ends with. *)
Theorem yielded_tuples_come_from_lines (json_loads : string -> option json)
  (lines : list string) (fieldmap : dict string json) (start : nat)
  (n : nat) (line table : string) (row : Row) :
  In (n, line, table, row)
     (yielded (generator_loop json_loads fieldmap start lines)) ->
  exists raw,
    start <= n
    /\ nth_error lines (n - start) = Some raw
    /\ line = clean raw
    /\ (forall c, In c (list_ascii_of_string line) -> printable c = true)
    /\ is_data_row line = true
    /\ table = table_of line
    /\ dict_contains table
         (fieldmap_of (generator_loop json_loads fieldmap start lines))
       = true.
Proof.
  revert fieldmap start. induction lines as [|raw lines IH];
    intros fieldmap start Hin; [destruct Hin|].
  simpl in *.
  destruct (interpret_line json_loads fieldmap start raw)
    as [[fm' log] s] eqn:E.
  assert (Hrest : In (n, line, table, row)
            (yielded (generator_loop json_loads fm' (S start) lines)) ->
          exists raw0,
            start <= n /\ nth_error (raw :: lines) (n - start) = Some raw0
            /\ line = clean raw0
            /\ (forall c, In c (list_ascii_of_string line) -> printable c = true)
            /\ is_data_row line = true /\ table = table_of line
            /\ dict_contains table
                 (fieldmap_of (generator_loop json_loads fm' (S start) lines))
               = true).
  { intros H. destruct (IH fm' (S start) H) as [raw0 [Hle [Hnth Hmore]]].
    exists raw0. split; [lia|]. split; [|exact Hmore].
    replace (n - start) with (S (n - S start)) by lia. exact Hnth. }
  destruct s as [|item|e]; simpl in *.
  - auto.
  - destruct Hin as [Hitem|Hin]; [|auto].
    destruct (interpret_line_yield json_loads _ _ _ _ _ _ E)
      as [-> [Hrow [fl [row' [Hfl [_ Hitem']]]]]].
    rewrite Hitem' in Hitem. injection Hitem as <- <- <- <-.
    exists raw. split; [lia|]. rewrite Nat.sub_diag.
    split; [reflexivity|]. split; [reflexivity|]. split.
    { intros c. unfold clean. apply filter_string_all. }
    split; [exact Hrow|]. split; [reflexivity|].
    apply generator_loop_keeps. unfold dict_contains. now rewrite Hfl.
  - destruct Hin.
Qed.

Lemma yielded_tuples_come_from_lines_witness :
  exists raw,
    nth_error [schema_line; "wiki_pages, [1,null,0]  "%string] (1 - 0)
      = Some raw
    /\ "wiki_pages, [1,null,0]"%string = clean raw.
Proof.
  destruct (yielded_tuples_come_from_lines Json.loads
              [schema_line; "wiki_pages, [1,null,0]  "%string] [] 0
              1 "wiki_pages, [1,null,0]" "wiki_pages"
              [(KStr "id", JInt 1); (KStr "parent_id", JNull);
               (KStr "position", JInt 0)])
    as [raw [_ [Hnth [Hclean _]]]].
  - vm_compute. left. reflexivity.
  - exists raw. split; assumption.
Defined.

(** X2. The line numbers of the yielded tuples increase strictly: the
    tuples keep the order of the file and no line is yielded twice. *)
Theorem yielded_line_numbers_increase (json_loads : string -> option json)
  (lines : list string) (fieldmap : dict string json) (start : nat) :
  StronglySorted lt
    (map (fun item => fst (fst (fst item)))
       (yielded (generator_loop json_loads fieldmap start lines)))
  /\ Forall (fun item => start <= fst (fst (fst item)))
       (yielded (generator_loop json_loads fieldmap start lines)).
Proof.
  revert fieldmap start. induction lines as [|raw lines IH];
    intros fieldmap start; simpl.
  - split; constructor.
  - destruct (interpret_line json_loads fieldmap start raw)
      as [[fm' log] s] eqn:E.
    destruct (IH fm' (S start)) as [Hs Hb].
    assert (Hb' : Forall (fun item => start <= fst (fst (fst item)))
              (yielded (generator_loop json_loads fm' (S start) lines))).
    { eapply Forall_impl; [|exact Hb]. simpl. intros a Ha. lia. }
    destruct s as [|item|e]; simpl.
    + auto.
    + destruct (interpret_line_yield json_loads _ _ _ _ _ _ E)
        as [_ [_ [fl [row [_ [_ ->]]]]]]. simpl. split.
      * constructor; [exact Hs|]. rewrite Forall_map.
        eapply Forall_impl; [|exact Hb]. simpl. intros a Ha. lia.
      * constructor; [simpl; lia | exact Hb'].
    + split; constructor.
Qed.

(** X3. A run over two pieces of a file is the run over the first piece
    followed, if that raised nothing, by the run over the second piece
    from the field map and the line number the first one reached; if the
    first piece raised, the second piece is never read. *)
Theorem generator_runs_compose (json_loads : string -> option json)
  (l1 l2 : list string) (fieldmap : dict string json) (start : nat) :
  let r1 := generator_loop json_loads fieldmap start l1 in
  let r2 := generator_loop json_loads (fieldmap_of r1)
              (start + List.length l1) l2 in
  let r := generator_loop json_loads fieldmap start (l1 ++ l2) in
  match raised r1 with
  | Some e => r = r1
  | None =>
      fieldmap_of r = fieldmap_of r2
      /\ log_of r = log_of r1 ++ log_of r2
      /\ yielded r = yielded r1 ++ yielded r2
      /\ raised r = raised r2
  end.
Proof.
  cbv zeta. revert fieldmap start.
  induction l1 as [|raw l1 IH]; intros fieldmap start.
  - simpl. rewrite Nat.add_0_r. auto.
  - simpl. destruct (interpret_line json_loads fieldmap start raw)
      as [[fm' log] s] eqn:E.
    specialize (IH fm' (S start)).
    replace (S start + List.length l1) with (start + S (List.length l1)) in IH
      by lia.
    destruct s as [|item|e]; simpl.
    + destruct (raised (generator_loop json_loads fm' (S start) l1)) eqn:Er.
      * rewrite IH, Er. reflexivity.
      * destruct IH as [H1 [H2 [H3 H4]]].
        rewrite H1, H2, H3, H4, app_assoc. auto.
    + destruct (raised (generator_loop json_loads fm' (S start) l1)) eqn:Er.
      * rewrite IH, Er. reflexivity.
      * destruct IH as [H1 [H2 [H3 H4]]].
        rewrite H1, H2, H3, H4, app_assoc. auto.
    + reflexivity.
Qed.

(** X4. A line of whitespace only is no silent no-op: it is reported at
    error level as unexpected syntax, then skipped; the field map is
    unchanged and the run goes on. *)
Theorem blank_line_is_reported_and_skipped
  (json_loads : string -> option json) (fieldmap : dict string json)
  (linenum : nat) (rawline : string) :
  (forall c, In c (list_ascii_of_string rawline) -> isspace c = true) ->
  interpret_line json_loads fieldmap linenum rawline =
  (fieldmap,
   [ (DEBUG, "line #" +s+ str_of_nat linenum +s+ ": ");
     (ERROR, "line #" +s+ str_of_nat linenum +s+ ": Unexpected syntax in ''") ],
   Continue).
Proof.
  intros Hblank. unfold interpret_line. cbv zeta.
  rewrite (rstrip_blank rawline Hblank). reflexivity.
Qed.

Lemma blank_line_is_reported_and_skipped_witness :
  interpret_line Json.loads [] 7 "   " =
  ([], [ (DEBUG, "line #7: "%string);
         (ERROR, "line #7: Unexpected syntax in ''"%string) ], Continue).
Proof.
  apply (blank_line_is_reported_and_skipped Json.loads [] 7 "   ").
  intros c [<-|[<-|[<-|[]]]]; reflexivity.
Defined.

(** X5. Text that does not decode is fatal where bad syntax is not: a
    schema line whose field list does not decode, and a row of a declared
    table whose payload does not decode, both end the run with the
    decoder's error, and nothing more is yielded. *)
Theorem undecodable_json_aborts (json_loads : string -> option json)
  (fieldmap : dict string json) (linenum : nat) (rawline : string)
  (rest : list string) :
  (exists key payload,
      split ":fields, " (clean rawline) = [key; payload]
      /\ json_loads payload = None)
  \/ (is_data_row (clean rawline) = true
      /\ dict_contains (table_of (clean rawline)) fieldmap = true
      /\ json_loads (currentline (clean rawline) (table_of (clean rawline)))
         = None) ->
  let r := generator_loop json_loads fieldmap linenum (rawline :: rest) in
  raised r = Some JSONDecodeError /\ yielded r = [].
Proof.
  intros [[key [payload [Hsplit Hdec]]]|[Hrow [Hdecl Hdec]]]; cbv zeta;
    simpl generator_loop.
  - unfold interpret_line. cbv zeta. unfold clean in Hsplit.
    rewrite Hsplit. simpl. rewrite Hdec. simpl. split; reflexivity.
  - destruct (LinesSpec.interpret_data_row json_loads fieldmap linenum rawline Hrow)
      as [log Hstep].
    rewrite Hstep. unfold dict_contains in Hdecl.
    destruct (dict_get (table_of (clean rawline)) fieldmap) as [fl|];
      [|discriminate].
    unfold mapjsonlinetoassembblaobject. rewrite Hdec. simpl.
    split; reflexivity.
Qed.

Lemma undecodable_json_aborts_witness :
  let r := generator_loop Json.loads [("t"%string, JArr [JStr "a"])] 0
             ["t, [1"%string; "t, [2]"%string] in
  raised r = Some JSONDecodeError /\ yielded r = [].
Proof.
  apply (undecodable_json_aborts Json.loads [("t"%string, JArr [JStr "a"])]
           0 "t, [1" ["t, [2]"%string]).
  right. vm_compute. repeat split; reflexivity.
Defined.

Lemma interpret_line_declares (json_loads : string -> option json)
  (fieldmap fieldmap' : dict string json) (linenum : nat) (rawline : string)
  (log : list logrecord) (s : step) :
  interpret_line json_loads fieldmap linenum rawline = (fieldmap', log, s) ->
  (forall e, s <> Abort e) ->
  fieldmap' =
  match declaration json_loads rawline with
  | Some (key, schema) => dict_set key schema fieldmap
  | None => fieldmap
  end.
Proof.
  unfold interpret_line, declaration, clean. cbv zeta.
  set (line := filter_string printable (rstrip rawline)).
  destruct (split ":fields, " line) as [|key [|payload [|x l]]];
    cbn [List.length Nat.ltb Nat.leb nth].
  - intros Heq _. revert Heq.
    destruct (List.length (split ", [" line) <=? 1);
      [intros Heq; now injection Heq as <- _ _|].
    destruct (dict_get _ fieldmap); [|intros Heq; now injection Heq as <- _ _].
    destruct (mapjsonlinetoassembblaobject _ _ _ _ _) as [log' [row|e]];
      intros Heq; now injection Heq as <- _ _.
  - intros Heq _. revert Heq.
    destruct (List.length (split ", [" line) <=? 1);
      [intros Heq; now injection Heq as <- _ _|].
    destruct (dict_get _ fieldmap); [|intros Heq; now injection Heq as <- _ _].
    destruct (mapjsonlinetoassembblaobject _ _ _ _ _) as [log' [row|e]];
      intros Heq; now injection Heq as <- _ _.
  - destruct (json_loads payload) as [schema|]; intros Heq Hs.
    + now injection Heq as <- _ _.
    + injection Heq as _ _ <-. now destruct (Hs JSONDecodeError).
  - intros Heq _. now injection Heq as <- _ _.
Qed.

(** X6. The field map a run without exception leaves to its caller
    holds, for every table, the field list of the last line of the file
    that declares the table, and what the map held before for a table the
    file does not declare. *)
Theorem fieldmap_holds_last_declarations (json_loads : string -> option json)
  (lines : list string) (fieldmap : dict string json) (start : nat)
  (table : string) :
  raised (generator_loop json_loads fieldmap start lines) = None ->
  dict_get table (fieldmap_of (generator_loop json_loads fieldmap start lines))
  = match last_binding table (declarations json_loads lines) with
    | Some schema => Some schema
    | None => dict_get table fieldmap
    end.
Proof.
  revert fieldmap start. induction lines as [|raw lines IH];
    intros fieldmap start Hraised; [reflexivity|].
  simpl in Hraised |- *.
  destruct (interpret_line json_loads fieldmap start raw) as [[fm' log] s]
    eqn:E.
  assert (Hs : forall e, s <> Abort e).
  { intros e ->. discriminate. }
  pose proof (interpret_line_declares _ _ _ _ _ _ _ E Hs) as Hfm.
  assert (Hrest : raised (generator_loop json_loads fm' (S start) lines) = None)
    by (destruct s; [exact Hraised | exact Hraised | now destruct (Hs e)]).
  assert (Hget :
    dict_get table
      (fieldmap_of (generator_loop json_loads fm' (S start) lines))
    = match last_binding table (declarations json_loads lines) with
      | Some schema => Some schema
      | None => dict_get table fm'
      end) by now apply IH.
  assert (Hgoal :
    match last_binding table (declarations json_loads lines) with
    | Some schema => Some schema
    | None => dict_get table fm'
    end
    = match
        last_binding table
          (match declaration json_loads raw with
           | Some d => [d]
           | None => []
           end ++ declarations json_loads lines)
      with
      | Some schema => Some schema
      | None => dict_get table fieldmap
      end).
  { rewrite Hfm. destruct (declaration json_loads raw) as [[key schema]|];
      [|reflexivity].
    cbn [app last_binding].
    destruct (last_binding table (declarations json_loads lines));
      [reflexivity|].
    rewrite dict_get_set. unfold eq_dec, string_EqDec.
    now destruct (string_dec key table). }
  rewrite <- Hgoal, <- Hget. now destruct s.
Qed.

Lemma fieldmap_holds_last_declarations_witness :
  dict_get "wiki_pages"%string
    (fieldmap_of
       (generator_loop Json.loads [] 0
          ["wiki_pages:fields, []"%string; schema_line]))
  = Some wiki_fields.
Proof.
  rewrite (fieldmap_holds_last_declarations Json.loads
             ["wiki_pages:fields, []"%string; schema_line] [] 0 "wiki_pages");
    vm_compute; reflexivity.
Defined.

End LinesMore.

(** ** The prefix of a data row *)

Module PrefixMore.

Lemma prefix_app (p s : string) :
  String.prefix p s = true -> exists post, s = p +s+ post.
Proof.
  revert s. induction p as [|a p IH]; intros s Hp.
  - now exists s.
  - destruct s as [|b s]; simpl in Hp; [discriminate|].
    destruct (ascii_dec a b) as [<-|]; [|discriminate].
    destruct (IH s Hp) as [post ->]. now exists post.
Qed.

Lemma prefix_self_app (p post : string) : String.prefix p (p +s+ post) = true.
Proof.
  induction p as [|a p IH]; simpl; [now destruct post|].
  destruct (ascii_dec a a); [exact IH | congruence].
Qed.

(** The first piece of a split that has at least two pieces ends where the
    separator first matches. *)
Lemma split_go_first (sep : string) (s cur : string) :
  2 <= List.length (split_go sep 0 cur s) ->
  exists pre post,
    s = pre +s+ sep +s+ post
    /\ nth 0 (split_go sep 0 cur s) EmptyString = cur +s+ pre.
Proof.
  revert cur. induction s as [|c s IH]; intros cur Hlen;
    cbn [split_go] in *; [simpl in Hlen; lia|].
  destruct (String.prefix sep (String c s)) eqn:Ep.
  - apply prefix_app in Ep. destruct Ep as [post Hpost].
    exists EmptyString, post. split; [exact Hpost|].
    simpl. now rewrite append_nil_r.
  - destruct (IH _ Hlen) as [pre [post [-> Hnth]]].
    exists (String c pre), post. split; [reflexivity|].
    rewrite Hnth, append_assoc. reflexivity.
Qed.

Lemma replace_go_skip (old new a s : string) :
  replace_go old new (String.length a) (a +s+ s) = replace_go old new 0 s.
Proof. induction a as [|x a IH]; simpl; [reflexivity | exact IH]. Qed.

Lemma replace_go_absent (old new s : string) :
  occurs old s = false -> replace_go old new 0 s = s.
Proof.
  induction s as [|c s IH]; intros Ho; [reflexivity|].
  cbn [occurs] in Ho. apply orb_false_iff in Ho. destruct Ho as [Hp Ho].
  cbn [replace_go]. rewrite Hp. now rewrite IH.
Qed.

Lemma replace_leading (old rem : string) :
  old <> EmptyString ->
  occurs old rem = false ->
  replace old EmptyString (old +s+ rem) = rem.
Proof.
  intros Hne Ho. unfold replace. destruct old as [|c old']; [congruence|].
  change (String c old' +s+ rem) with (String c (old' +s+ rem)).
  cbn [replace_go].
  change (String c (old' +s+ rem)) with (String c old' +s+ rem) at 1.
  rewrite (prefix_self_app (String c old') rem).
  simpl String.length.
  replace (S (String.length old') - 1) with (String.length old') by lia.
  rewrite replace_go_skip.
  cbn [String.append]. now apply replace_go_absent.
Qed.

(** X7. A data row starts with its table name, a comma and a space, and
    what follows starts with the bracket; when the table name followed by
    comma and space does not occur again in what follows, the text handed
    to the row parser is exactly what follows, stripped. *)
Theorem data_row_prefix_removed (rawline : string) :
  is_data_row (clean rawline) = true ->
  exists payload,
    clean rawline = table_of (clean rawline) +s+ ", " +s+ payload
    /\ String.prefix "[" payload = true
    /\ (occurs (table_of (clean rawline) +s+ ", ") payload = false ->
        currentline (clean rawline) (table_of (clean rawline))
        = strip payload).
Proof.
  unfold is_data_row, table_of. intros Hrow.
  apply andb_true_iff in Hrow. destruct Hrow as [_ Hh].
  apply Nat.leb_le in Hh. unfold split in *.
  destruct (split_go_first ", [" (clean rawline) EmptyString Hh)
    as [pre [post [Hline Hnth]]].
  simpl in Hnth. rewrite Hnth.
  exists ("[" +s+ post). split; [exact Hline|].
  split; [apply (prefix_self_app "[" post)|].
  intros Ho. unfold currentline. f_equal.
  rewrite Hline at 1.
  change (pre +s+ ", [" +s+ post) with (pre +s+ ", " +s+ ("[" +s+ post)).
  rewrite <- append_assoc. apply replace_leading; [|exact Ho].
  destruct pre; discriminate.
Qed.

Lemma data_row_prefix_removed_witness :
  currentline (clean "wiki_pages, [1,null,0]")
    (table_of (clean "wiki_pages, [1,null,0]")) = "[1,null,0]"%string.
Proof.
  destruct (data_row_prefix_removed "wiki_pages, [1,null,0]")
    as [payload [Hline [_ Hcur]]].
  - vm_compute. reflexivity.
  - assert (Hp : payload = "[1,null,0]"%string).
    { vm_compute in Hline. now injection Hline as <-. }
    subst payload. rewrite Hcur; vm_compute; reflexivity.
Defined.

End PrefixMore.

(** ** The indexer: exclusions, missing keys and unique keys *)

Module IndexerMore.

Section Loop.
Variable keymap : dict (option string) (option string).
Variable default : option string.

Lemma genindex_loop_domain (items : list (string * list Row))
  (index index' : dict string (dict pykey Row)) (log : list logrecord)
  (t : string) (m : dict pykey Row) :
  genindex_loop keymap default items index = (log, Ok index') ->
  dict_get t index' = Some m ->
  dict_get t index = Some m
  \/ exists objs key, In (t, objs) items /\ indexed keymap default t key.
Proof.
  revert index log. induction items as [|[table objects] items IH];
    intros index log Hrun Hget; simpl in Hrun.
  - injection Hrun as _ <-. now left.
  - assert (Hlift : (exists objs key, In (t, objs) items
                                      /\ indexed keymap default t key) ->
                    exists objs key, In (t, objs) ((table, objects) :: items)
                                     /\ indexed keymap default t key).
    { intros [objs [key [Hin Hidx]]]. exists objs, key. split; [now right|auto]. }
    destruct (key_field keymap default table) as [key|] eqn:Ekey.
    2: { destruct (IH _ _ Hrun Hget); auto. }
    destruct (startswith table "_") eqn:Eund.
    { destruct (IH _ _ Hrun Hget); auto. }
    destruct (index_table table key objects) as [l [m0|e]]; [|discriminate].
    destruct (genindex_loop keymap default items (dict_set table m0 index))
      as [l' r] eqn:E.
    injection Hrun as _ ->.
    destruct (IH _ _ E Hget) as [Hold|Hnew]; [|auto].
    rewrite dict_get_set in Hold.
    destruct (eq_dec table t) as [->|Hne]; [|now left].
    right. exists objects, key. split; [now left | now split].
Qed.

Lemma genindex_loop_raises (items : list (string * list Row))
  (index : dict string (dict pykey Row)) (table key : string)
  (objects : list Row) (e : exn) :
  In (table, objects) items ->
  indexed keymap default table key ->
  snd (index_table table key objects) = Raise e ->
  exists log e', genindex_loop keymap default items index = (log, Raise e').
Proof.
  intros Hin [Hkey Hund] Hraise. revert index.
  induction items as [|[t objs] items IH]; intros index; [destruct Hin|].
  simpl. destruct Hin as [Heq|Hin].
  - injection Heq as -> ->. rewrite Hkey, Hund.
    destruct (index_table table key objects) as [l r]. simpl in Hraise.
    subst r. eauto.
  - destruct (key_field keymap default t) as [k|]; [|now apply IH].
    destruct (startswith t "_"); [now apply IH|].
    destruct (index_table t k objs) as [l [m|e0]]; [|eauto].
    destruct (IH Hin (dict_set t m index)) as [log [e' ->]]. eauto.
Qed.

End Loop.

(** X8. The index holds nothing but indexed tables of the data: a table
    whose key field is [None] in the key map, or whose name starts with an
    underscore, is never in it. *)
Theorem index_holds_only_indexed_tables (data : dict string (list Row))
  (keymap : dict (option string) (option string))
  (log : list logrecord) (index : dict string (dict pykey Row))
  (table : string) (m : dict pykey Row) :
  genindex data keymap = (log, Ok index) ->
  dict_get table index = Some m ->
  exists default objects key,
    dict_get None keymap = Some default
    /\ In (table, objects) data
    /\ key_field keymap default table = Some key
    /\ startswith table "_" = false.
Proof.
  unfold genindex. intros Hrun Hget.
  destruct (dict_get None keymap) as [default|]; [|discriminate].
  destruct (genindex_loop_domain keymap default data [] index log table m
              Hrun Hget) as [Hold|[objs [key [Hin [Hk Hu]]]]];
    [discriminate|].
  exists default, objs, key. auto.
Qed.

Lemma index_holds_only_indexed_tables_witness :
  exists default objects key,
    dict_get None main_keymap = Some default
    /\ In ("tickets"%string, objects) sample_data
    /\ key_field main_keymap default "tickets" = Some key.
Proof.
  destruct (genindex sample_data main_keymap) as [log [index|e]] eqn:E;
    [|vm_compute in E; discriminate].
  assert (Hi : exists m, dict_get "tickets"%string index = Some m).
  { vm_compute in E. injection E as _ <-. eexists. reflexivity. }
  destruct Hi as [m Hm].
  destruct (index_holds_only_indexed_tables sample_data main_keymap log index
              "tickets" m E Hm) as [d [o [k [H1 [H2 [H3 _]]]]]].
  exists d, o, k. auto.
Defined.

(** X9. A row without the key field of its table is fatal: the step of
    that table raises the [KeyError] of the key field before any warning is
    logged, and [genindex] over data that holds such an indexed table
    returns no index. *)
Theorem missing_key_field_raises (data : dict string (list Row))
  (keymap : dict (option string) (option string)) (default : option string)
  (table key : string) (objects : list Row) (row : Row) :
  dict_get None keymap = Some default ->
  In (table, objects) data ->
  indexed keymap default table key ->
  In row objects ->
  dict_get (KStr key) row = None ->
  index_table table key objects = ([], Raise (KeyError (KStr key)))
  /\ exists log e, genindex data keymap = (log, Raise e).
Proof.
  intros Hdef Hin Hidx Hrow Hnone.
  assert (Hc : collect_ids key objects = Raise (KeyError (KStr key))).
  { clear Hin. induction objects as [|o objects IH]; [destruct Hrow|].
    simpl. destruct Hrow as [->|Hrow]; [now rewrite Hnone|].
    destruct (dict_get (KStr key) o); [|reflexivity].
    now rewrite (IH Hrow). }
  assert (Ht : index_table table key objects
               = ([], Raise (KeyError (KStr key)))).
  { unfold index_table. now rewrite Hc. }
  split; [exact Ht|]. unfold genindex. rewrite Hdef.
  apply (genindex_loop_raises keymap default data [] table key objects
           (KeyError (KStr key)) Hin Hidx).
  now rewrite Ht.
Qed.

Lemma missing_key_field_raises_witness :
  exists log e,
    genindex [("tickets"%string, [row_of 1 "a"; [(KStr "title", JStr "b")]])]
      main_keymap = (log, Raise e).
Proof.
  destruct (missing_key_field_raises
              [("tickets"%string, [row_of 1 "a"; [(KStr "title", JStr "b")]])]
              main_keymap (Some "id"%string) "tickets" "id"
              [row_of 1 "a"; [(KStr "title", JStr "b")]]
              [(KStr "title", JStr "b")]) as [_ H].
  - reflexivity.
  - left. reflexivity.
  - split; reflexivity.
  - right. left. reflexivity.
  - reflexivity.
  - exact H.
Defined.

(** X10. For an indexed table whose keys are all different the step logs
    nothing, and in the index [genindex] returns every row is found under
    its key and every entry of the table's map is a row under its key; a
    table without rows is indexed as the empty map. *)
Theorem unique_keys_round_trip (data : dict string (list Row))
  (keymap : dict (option string) (option string)) (default : option string)
  (table key : string) (objects : list Row) (keys : list pykey) :
  dict_get None keymap = Some default ->
  NoDup (map fst data) ->
  (forall t objs k, In (t, objs) data -> indexed keymap default t k ->
     exists ks, keyed k objs ks) ->
  In (table, objects) data ->
  indexed keymap default table key ->
  keyed key objects keys ->
  NoDup keys ->
  fst (index_table table key objects) = []
  /\ exists log index m,
       genindex data keymap = (log, Ok index)
       /\ dict_get table index = Some m
       /\ (objects = [] -> m = [])
       /\ (forall i k row,
             nth_error keys i = Some k -> nth_error objects i = Some row ->
             dict_get k m = Some row)
       /\ (forall k row, dict_get k m = Some row ->
             exists i, nth_error keys i = Some k
                       /\ nth_error objects i = Some row).
Proof.
  intros Hdef Hnd Hall Hin Hidx Hkeyed Huniq. split.
  - rewrite (IndexerSpec.index_table_keyed table key objects keys Hkeyed).
    simpl. apply IndexerSpec.dedup_length_eq in Huniq.
    rewrite Huniq, (IndexerSpec.keyed_length _ _ _ Hkeyed), Nat.eqb_refl.
    reflexivity.
  - unfold genindex. rewrite Hdef.
    destruct (IndexerSpec.genindex_loop_keyed keymap default data [] Hall)
      as [log [index [Hrun Hspec]]].
    destruct (Hspec Hnd table objects key keys Hin Hidx Hkeyed) as [Hget _].
    exists log, index, (dict_of_pairs (combine keys objects)).
    split; [exact Hrun|]. split; [exact Hget|]. split; [|split].
    + intros ->. inversion Hkeyed. reflexivity.
    + intros i k row Hk Hrow. rewrite dict_get_of_pairs.
      apply (last_binding_combine _ _ _ i); auto.
      intros j Hj Hc. assert (i = j); [|lia].
      eapply NoDup_nth_error; eauto; [|congruence].
      apply nth_error_Some. congruence.
    + intros k row Hm. rewrite dict_get_of_pairs in Hm.
      apply last_binding_combine_inv in Hm.
      destruct Hm as [i [Hk [Hrow _]]]. eauto.
Qed.

Lemma unique_keys_round_trip_witness :
  exists log index m,
    genindex [("tickets"%string, [row_of 42 "first"; row_of 7 "other"])]
      main_keymap = (log, Ok index)
    /\ dict_get "tickets"%string index = Some m
    /\ dict_get (KInt 7) m = Some (row_of 7 "other").
Proof.
  destruct (unique_keys_round_trip
              [("tickets"%string, [row_of 42 "first"; row_of 7 "other"])]
              main_keymap (Some "id"%string) "tickets" "id"
              [row_of 42 "first"; row_of 7 "other"] [KInt 42; KInt 7])
    as [_ [log [index [m [Hrun [Hget [_ [Hfind _]]]]]]]].
  - reflexivity.
  - repeat constructor; simpl; intuition discriminate.
  - intros t objs k [Heq|[]] [Hk Hu]. injection Heq as <- <-.
    vm_compute in Hk. injection Hk as <-.
    exists [KInt 42; KInt 7]. repeat constructor; eexists; split; reflexivity.
  - left. reflexivity.
  - split; reflexivity.
  - repeat constructor; eexists; split; reflexivity.
  - repeat constructor; simpl; intuition discriminate.
  - exists log, index, m. split; [exact Hrun|]. split; [exact Hget|].
    apply (Hfind 1); reflexivity.
Defined.

End IndexerMore.

(** ** Collecting rows, scraping users, transposing rows *)

Module PipelineMore.

Lemma store_row_get (data : dict string (list Row)) (n : nat)
  (line table : string) (row : Row) (t : string) :
  dict_get t (store_row data (n, line, table, row)) =
  if string_dec table t
  then Some (match dict_get t data with Some l => l | None => [] end ++ [row])
  else dict_get t data.
Proof.
  unfold store_row. rewrite dict_get_set.
  rewrite WikiStep.dict_get_setdefault_same.
  unfold eq_dec, string_EqDec.
  destruct (string_dec table t) as [<-|Hne].
  - now destruct (dict_get table data).
  - unfold dict_setdefault, dict_contains.
    destruct (dict_get table data); [reflexivity|].
    now apply dict_get_set_ne.
Qed.

Lemma snapshot_fold (items : list (nat * string * string * Row))
  (data : dict string (list Row)) (t : string) :
  dict_get t (fold_left store_row items data) =
  match rows_of t items with
  | [] => dict_get t data
  | rows =>
      Some (match dict_get t data with Some l => l | None => [] end ++ rows)
  end.
Proof.
  revert data. induction items as [|[[[n line] table] row] items IH];
    intros data; [reflexivity|].
  cbn [fold_left]. rewrite IH, store_row_get. unfold rows_of.
  cbn [filter fst snd].
  destruct (string_dec table t) as [->|Hne]; cbn [map snd].
  - destruct (map snd (filter _ items)); [reflexivity|].
    now rewrite <- app_assoc.
  - reflexivity.
Qed.

(** X11. The snapshot [main] collects holds, for every table, the rows
    yielded for it in the order of the file; a table is present exactly
    when a row was yielded for it. *)
Theorem snapshot_keeps_file_order
  (items : list (nat * string * string * Row)) (table : string) :
  dict_get table (snapshot items) =
  match rows_of table items with
  | [] => None
  | rows => Some rows
  end.
Proof. unfold snapshot. rewrite snapshot_fold. reflexivity. Qed.

Lemma dict_set_keys {K V} `{EqDec K} (k : K) (v : V) (d : dict K V) :
  map fst (dict_set k v d)
  = if dict_contains k d then map fst d else map fst d ++ [k].
Proof.
  unfold dict_contains. induction d as [|[k' v'] d IH]; simpl; [reflexivity|].
  destruct (eq_dec k k') as [->|Hne]; simpl; [reflexivity|].
  rewrite IH. now destruct (dict_get k d).
Qed.

Lemma dict_get_None_keys {K V} `{EqDec K} (k : K) (d : dict K V) :
  dict_get k d = None -> ~ In k (map fst d).
Proof.
  induction d as [|[k' v'] d IH]; simpl; [tauto|].
  destruct (eq_dec k k') as [->|Hne]; [discriminate|].
  intros Hk [E|Hin]; [congruence | now apply IH].
Qed.

Lemma dict_set_NoDup {K V} `{EqDec K} (k : K) (v : V) (d : dict K V) :
  NoDup (map fst d) -> NoDup (map fst (dict_set k v d)).
Proof.
  intros Hnd. rewrite dict_set_keys. unfold dict_contains.
  destruct (dict_get k d) eqn:E; [exact Hnd|].
  apply NoDup_app; [exact Hnd | repeat constructor; simpl; tauto |].
  intros a Ha [Hk|[]]. subst a. now apply (dict_get_None_keys k d).
Qed.

Lemma dict_get_In {K V} `{EqDec K} (k : K) (v : V) (d : dict K V) :
  NoDup (map fst d) -> In (k, v) d -> dict_get k d = Some v.
Proof.
  induction d as [|[k' v'] d IH]; simpl; [tauto|].
  intros Hnd [E|Hin].
  - injection E as -> ->. now destruct (eq_dec k k).
  - inversion Hnd as [|x l Hx Hl]; subst.
    destruct (eq_dec k k') as [->|Hne]; [|now apply IH].
    exfalso. apply Hx. apply in_map_iff. now exists (k', v).
Qed.

Lemma store_row_NoDup (data : dict string (list Row))
  (item : nat * string * string * Row) :
  NoDup (map fst data) -> NoDup (map fst (store_row data item)).
Proof.
  destruct item as [[[n line] table] row]. unfold store_row. intros Hnd.
  apply dict_set_NoDup. unfold dict_setdefault.
  destruct (dict_contains table data); [exact Hnd|].
  now apply dict_set_NoDup.
Qed.

(** X12. The snapshot [main] hands to [genindex] and [scrapeusers] names
    every table once, and holds no table without rows: the rows listed
    under a table are the rows yielded for it, and there is at least
    one. *)
Theorem snapshot_names_tables_once
  (items : list (nat * string * string * Row)) :
  NoDup (map fst (snapshot items))
  /\ forall table rows,
       In (table, rows) (snapshot items) ->
       rows = rows_of table items /\ rows <> [].
Proof.
  assert (Hnd : NoDup (map fst (snapshot items))).
  { unfold snapshot.
    assert (Hgen : forall data, NoDup (map fst data) ->
              NoDup (map fst (fold_left store_row items data))).
    { induction items as [|item items IH]; intros data Hd; [exact Hd|].
      simpl. apply IH. now apply store_row_NoDup. }
    apply Hgen. constructor. }
  split; [exact Hnd|]. intros table rows Hin.
  apply (dict_get_In _ _ _ Hnd) in Hin.
  unfold snapshot in Hin. rewrite snapshot_fold in Hin. simpl in Hin.
  destruct (rows_of table items) as [|r l]; [discriminate|].
  injection Hin as <-. split; [reflexivity | discriminate].
Qed.

(** *** [scrapeusers] *)

Lemma keeps_refl (u : scraped) : keeps u u.
Proof. repeat split; auto. Qed.

Lemma keeps_trans (u v w : scraped) : keeps u v -> keeps v w -> keeps u w.
Proof.
  intros [A1 [A2 [A3 A4]]] [B1 [B2 [B3 B4]]]. repeat split.
  - congruence.
  - congruence.
  - intros H. rewrite <- (A3 H). apply B3. rewrite (A3 H). exact H.
  - auto.
Qed.

Lemma set_add_In (table t : string) (s : list string) :
  In t (set_add table s) <-> t = table \/ In t s.
Proof.
  unfold set_add. destruct (in_dec string_dec table s) as [Hin|Hin].
  - split; [auto|]. intros [->|H]; auto.
  - rewrite in_app_iff. simpl. split; intros [H|H]; auto.
    + destruct H as [<-|[]]. auto.
Qed.

Lemma setdefault_id_Some (k : pykey) (u : User.t) :
  User.id (setdefault_id k u) <> None.
Proof.
  unfold setdefault_id. destruct (User.id u) eqn:E; simpl; congruence.
Qed.

Lemma setdefault_id_fields (k : pykey) (u : User.t) :
  User.name (setdefault_id k u) = User.name u
  /\ User.email (setdefault_id k u) = User.email u
  /\ (User.id u <> None -> User.id (setdefault_id k u) = User.id u).
Proof.
  unfold setdefault_id. destruct (User.id u) eqn:E; simpl; auto.
  repeat split; congruence.
Qed.

(** One row: entries are kept, the named user is recorded, and no other
    key appears. *)
Lemma scrape_row_spec (table : string) (users users' : dict pykey scraped)
  (v : Row) :
  scrape_row table users v = Ok users' ->
  (forall k u, dict_get k users = Some u ->
     exists u', dict_get k users' = Some u' /\ keeps u u')
  /\ (forall uid k, dict_get (KStr "user_id") v = Some uid ->
        json_truthy uid = true -> key_of_json uid = Some k ->
        exists u', dict_get k users' = Some u'
                   /\ User.id (user u') <> None /\ In table (tables_of u'))
  /\ (forall k u', dict_get k users' = Some u' ->
        dict_get k users <> None
        \/ exists uid, dict_get (KStr "user_id") v = Some uid
                       /\ json_truthy uid = true /\ key_of_json uid = Some k).
Proof.
  unfold scrape_row. intros Hrow.
  destruct (dict_get (KStr "user_id") v) as [uid|] eqn:Euid.
  2: { injection Hrow as <-. repeat split.
       - intros k u Hk. exists u. split; [exact Hk | apply keeps_refl].
       - discriminate.
       - intros k u' Hk. left. congruence. }
  destruct (json_truthy uid) eqn:Et.
  2: { injection Hrow as <-. repeat split.
       - intros k u Hk. exists u. split; [exact Hk | apply keeps_refl].
       - intros uid0 k H0. injection H0 as <-. congruence.
       - intros k u' Hk. left. congruence. }
  destruct (key_of_json uid) as [k0|] eqn:Ek; [|discriminate].
  injection Hrow as <-. repeat split.
  - intros k u Hk. rewrite dict_get_set.
    destruct (eq_dec k0 k) as [->|Hne]; [|exists u; split;
      [exact Hk | apply keeps_refl]].
    rewrite Hk. eexists. split; [reflexivity|].
    destruct (setdefault_id_fields k (user u)) as [H1 [H2 H3]].
    repeat split; simpl; auto.
    intros t Ht. unfold tables_of at 1. simpl. apply set_add_In. now right.
  - intros uid0 k H0 _ Hk. injection H0 as <-.
    assert (k0 = k) by congruence. subst k0.
    rewrite dict_get_set_eq. eexists. split; [reflexivity|]. simpl. split.
    + apply setdefault_id_Some.
    + unfold tables_of. simpl. apply set_add_In. now left.
  - intros k u' Hk. rewrite dict_get_set in Hk.
    destruct (eq_dec k0 k) as [->|Hne]; [|left; congruence].
    right. exists uid. auto.
Qed.

Lemma scrape_rows_spec (table : string) (entries : list Row)
  (users users' : dict pykey scraped) :
  scrape_rows table users entries = Ok users' ->
  (forall k u, dict_get k users = Some u ->
     exists u', dict_get k users' = Some u' /\ keeps u u')
  /\ (forall v uid k, In v entries ->
        dict_get (KStr "user_id") v = Some uid ->
        json_truthy uid = true -> key_of_json uid = Some k ->
        exists u', dict_get k users' = Some u'
                   /\ User.id (user u') <> None /\ In table (tables_of u'))
  /\ (forall k u', dict_get k users' = Some u' ->
        dict_get k users <> None
        \/ exists v uid, In v entries
                         /\ dict_get (KStr "user_id") v = Some uid
                         /\ json_truthy uid = true /\ key_of_json uid = Some k).
Proof.
  revert users. induction entries as [|v entries IH]; intros users Hrun;
    simpl in Hrun.
  - injection Hrun as <-. repeat split.
    + intros k u Hk. exists u. split; [exact Hk | apply keeps_refl].
    + intros v uid k [].
    + intros k u' Hk. left. congruence.
  - destruct (scrape_row table users v) as [users1|] eqn:E1; [|discriminate].
    simpl in Hrun.
    destruct (scrape_row_spec _ _ _ _ E1) as [A1 [A2 A3]].
    destruct (IH _ Hrun) as [B1 [B2 B3]]. repeat split.
    + intros k u Hk. destruct (A1 k u Hk) as [u1 [Hk1 K1]].
      destruct (B1 k u1 Hk1) as [u2 [Hk2 K2]].
      exists u2. split; [exact Hk2 | now apply (keeps_trans u u1)].
    + intros v0 uid k [<-|Hin] Huid Ht Hk.
      * destruct (A2 uid k Huid Ht Hk) as [u1 [Hk1 [Hid Htab]]].
        destruct (B1 k u1 Hk1) as [u2 [Hk2 [_ [_ [K3 K4]]]]].
        exists u2. split; [exact Hk2|]. split; [|auto].
        rewrite (K3 Hid). exact Hid.
      * now apply (B2 v0 uid k).
    + intros k u' Hk. destruct (B3 k u' Hk) as [Hold|[v0 [uid [Hin H]]]].
      * destruct (dict_get k users1) as [u1|] eqn:Ek1; [|congruence].
        destruct (A3 k u1 Ek1) as [H|[uid H]]; [now left|].
        right. exists v, uid. split; [now left | exact H].
      * right. exists v0, uid. split; [now right | exact H].
Qed.

Lemma scrape_tables_spec (data : dict string (list Row))
  (users users' : dict pykey scraped) :
  scrape_tables users data = Ok users' ->
  (forall k u, dict_get k users = Some u ->
     exists u', dict_get k users' = Some u' /\ keeps u u')
  /\ (forall table k, names_user data table k ->
        exists u', dict_get k users' = Some u'
                   /\ User.id (user u') <> None /\ In table (tables_of u'))
  /\ (forall k u', dict_get k users' = Some u' ->
        dict_get k users <> None \/ exists table, names_user data table k).
Proof.
  revert users. induction data as [|[t entries] data IH]; intros users Hrun;
    simpl in Hrun.
  - injection Hrun as <-. repeat split.
    + intros k u Hk. exists u. split; [exact Hk | apply keeps_refl].
    + intros table k [e [v [uid [[] _]]]].
    + intros k u' Hk. left. congruence.
  - assert (Hlift : forall table k, names_user data table k ->
              names_user ((t, entries) :: data) table k).
    { intros table k [e [v [uid [Hin H]]]]. exists e, v, uid.
      split; [now right | exact H]. }
    destruct (startswith t "_") eqn:Eund.
    + destruct (IH _ Hrun) as [B1 [B2 B3]]. repeat split; [exact B1 | |].
      * intros table k [e [v [uid [[Heq|Hin] [Hu H]]]]].
        -- injection Heq as <- <-. congruence.
        -- apply B2. exists e, v, uid. auto 10.
      * intros k u' Hk. destruct (B3 k u' Hk) as [H|[table H]]; [now left|].
        right. exists table. auto.
    + destruct (scrape_rows t users entries) as [users1|] eqn:E1;
        [|discriminate]. simpl in Hrun.
      destruct (scrape_rows_spec _ _ _ _ E1) as [A1 [A2 A3]].
      destruct (IH _ Hrun) as [B1 [B2 B3]]. repeat split.
      * intros k u Hk. destruct (A1 k u Hk) as [u1 [Hk1 K1]].
        destruct (B1 k u1 Hk1) as [u2 [Hk2 K2]].
        exists u2. split; [exact Hk2 | now apply (keeps_trans u u1)].
      * intros table k [e [v [uid [[Heq|Hin] [Hu [Hv [Huid [Ht Hk]]]]]]]].
        -- injection Heq as <- <-.
           destruct (A2 v uid k Hv Huid Ht Hk) as [u1 [Hk1 [Hid Htab]]].
           destruct (B1 k u1 Hk1) as [u2 [Hk2 [_ [_ [K3 K4]]]]].
           exists u2. split; [exact Hk2|]. split; [|auto].
           rewrite (K3 Hid). exact Hid.
        -- apply B2. exists e, v, uid. auto 10.
      * intros k u' Hk. destruct (B3 k u' Hk) as [Hold|[table H]].
        -- destruct (dict_get k users1) as [u1|] eqn:Ek1; [|congruence].
           destruct (A3 k u1 Ek1) as [H|[v [uid [Hin H]]]]; [now left|].
           right. exists t, entries, v, uid. split; [now left|]. auto 10.
        -- right. exists table. auto.
Qed.

Lemma dict_get_map_snd {K A B} `{EqDec K} (f : A -> B) (k : K)
  (d : dict K A) :
  dict_get k (map (fun kv => (fst kv, f (snd kv))) d)
  = option_map f (dict_get k d).
Proof.
  induction d as [|[k' a] d IH]; simpl; [reflexivity|].
  destruct (eq_dec k k'); [reflexivity | exact IH].
Qed.

(** X13. Every truthy [user_id] of a row of a table that is not private
    is a key of the dict [scrapeusers] returns; its entry has an [id] and
    lists that table. *)
Theorem scrapeusers_records_named_users (base : dict pykey User.t)
  (data : dict string (list Row)) (users : dict pykey scraped)
  (table : string) (k : pykey) :
  scrapeusers base data = Ok users ->
  names_user data table k ->
  exists u,
    dict_get k users = Some u
    /\ User.id (user u) <> None
    /\ exists s, tables u = Some s /\ In table s.
Proof.
  unfold scrapeusers. intros Hrun Hname.
  destruct (scrape_tables_spec _ _ _ Hrun) as [_ [H2 _]].
  destruct (H2 table k Hname) as [u [Hk [Hid Htab]]].
  exists u. split; [exact Hk|]. split; [exact Hid|].
  unfold tables_of in Htab. destruct (tables u) as [s|]; [eauto | destruct Htab].
Qed.

Lemma scrapeusers_records_named_users_witness :
  exists users u,
    scrapeusers [] scrape_data = Ok users
    /\ dict_get (KStr "u2") users = Some u
    /\ exists s, tables u = Some s /\ In "wiki_pages"%string s.
Proof.
  destruct (scrapeusers [] scrape_data) as [users|e] eqn:E;
    [|vm_compute in E; discriminate].
  destruct (scrapeusers_records_named_users [] scrape_data users
              "wiki_pages" (KStr "u2") E) as [u [Hk [_ Hs]]].
  - exists [ticket 4 (JStr "u1"); ticket 5 (JStr "u2")],
      (ticket 5 (JStr "u2")), (JStr "u2").
    repeat split; try reflexivity.
    + right. right. left. reflexivity.
    + right. left. reflexivity.
  - exists users, u. auto.
Defined.

(** X14. [scrapeusers] invents no user: a key of its result is a key of
    the configured users or a truthy [user_id] of a row of a table that is
    not private; so a null, zero or empty [user_id], and the rows of
    private tables, add nothing. *)
Theorem scrapeusers_adds_only_named_users (base : dict pykey User.t)
  (data : dict string (list Row)) (users : dict pykey scraped)
  (k : pykey) (u : scraped) :
  scrapeusers base data = Ok users ->
  dict_get k users = Some u ->
  (exists b, dict_get k base = Some b)
  \/ (exists table, names_user data table k).
Proof.
  unfold scrapeusers. intros Hrun Hk.
  destruct (scrape_tables_spec _ _ _ Hrun) as [_ [_ H3]].
  destruct (H3 k u Hk) as [Hold|Hnew]; [left | now right].
  rewrite (dict_get_map_snd (fun b => {| user := b; tables := None |})) in Hold.
  destruct (dict_get k base) as [b|]; [eauto | contradiction].
Qed.

Lemma scrapeusers_adds_only_named_users_witness :
  exists users,
    scrapeusers [] scrape_data = Ok users
    /\ exists table, names_user scrape_data table (KStr "u1").
Proof.
  destruct (scrapeusers [] scrape_data) as [users|e] eqn:E;
    [|vm_compute in E; discriminate].
  assert (Hu : exists u, dict_get (KStr "u1") users = Some u).
  { vm_compute in E. injection E as <-. eexists. reflexivity. }
  destruct Hu as [u Hu].
  destruct (scrapeusers_adds_only_named_users [] scrape_data users
              (KStr "u1") u E Hu) as [[b Hb]|Hn]; [discriminate|].
  exists users. auto.
Defined.

(** X15. The configured users survive the scrape: each is a key of the
    result and keeps its name and email, and its [id] when it had one. *)
Theorem scrapeusers_keeps_configured_users (base : dict pykey User.t)
  (data : dict string (list Row)) (users : dict pykey scraped)
  (k : pykey) (b : User.t) :
  scrapeusers base data = Ok users ->
  dict_get k base = Some b ->
  exists u,
    dict_get k users = Some u
    /\ User.name (user u) = User.name b
    /\ User.email (user u) = User.email b
    /\ (User.id b <> None -> User.id (user u) = User.id b).
Proof.
  unfold scrapeusers. intros Hrun Hb.
  destruct (scrape_tables_spec _ _ _ Hrun) as [H1 _].
  destruct (H1 k {| user := b; tables := None |}) as [u [Hk [K1 [K2 [K3 _]]]]].
  { rewrite (dict_get_map_snd (fun b => {| user := b; tables := None |})).
    now rewrite Hb. }
  exists u. auto.
Qed.

Lemma scrapeusers_keeps_configured_users_witness :
  exists users u,
    scrapeusers
      [(KStr "u2", {| User.id := None; User.name := Some (KStr "Bob");
                      User.email := None |})] scrape_data = Ok users
    /\ dict_get (KStr "u2") users = Some u
    /\ User.name (user u) = Some (KStr "Bob").
Proof.
  destruct (scrapeusers
              [(KStr "u2", {| User.id := None; User.name := Some (KStr "Bob");
                              User.email := None |})] scrape_data)
    as [users|e] eqn:E; [|vm_compute in E; discriminate].
  destruct (scrapeusers_keeps_configured_users _ scrape_data users
              (KStr "u2") _ E eq_refl) as [u [Hk [Hn _]]].
  exists users, u. auto.
Defined.

(** *** [transpose] *)

Lemma heads_columns {A B} (g : A -> B) (rest : A -> list B) (data : list A) :
  heads (map (fun v => g v :: rest v) data) = Some (map g data).
Proof.
  induction data as [|v data IH]; simpl; [reflexivity|]. now rewrite IH.
Qed.

Lemma zip_star_go_columns {A K B} (g : A -> K -> B) (keys : list K)
  (data : list A) :
  zip_star_go (List.length keys) (map (fun v => map (g v) keys) data)
  = map (fun k => map (fun v => g v k) data) keys.
Proof.
  induction keys as [|k keys IH]; [reflexivity|].
  cbn [List.length zip_star_go map].
  rewrite (heads_columns (fun v => g v k) (fun v => map (g v) keys)).
  rewrite map_map. cbn [tl]. now rewrite IH.
Qed.

Lemma enumerate_columns_spec (col : pykey -> list json) (keys : list pykey)
  (pre : list (list json)) (acc : dict pykey (list json)) :
  exists d,
    enumerate_columns (pre ++ map col keys) (List.length pre) keys acc = Some d
    /\ forall k, (In k keys -> dict_get k d = Some (col k))
                 /\ (~ In k keys -> dict_get k d = dict_get k acc).
Proof.
  revert pre acc. induction keys as [|k0 keys IH]; intros pre acc.
  - exists acc. split; [reflexivity|]. intros k. split; [intros [] | reflexivity].
  - cbn [map enumerate_columns].
    rewrite nth_error_app2, Nat.sub_diag by lia. cbn [nth_error].
    destruct (IH (pre ++ [col k0]) (dict_set k0 (col k0) acc))
      as [d [Hrun Hd]].
    rewrite <- app_assoc, length_app, Nat.add_1_r in Hrun. cbn [app] in Hrun.
    exists d. split; [exact Hrun|]. intros k. destruct (Hd k) as [H1 H2].
    destruct (in_dec eq_dec k keys) as [Hin|Hnin].
    + split; [auto|]. intros Hn. exfalso. apply Hn. now right.
    + split.
      * intros [->|Hin]; [|contradiction].
        rewrite (H2 Hnin). apply dict_get_set_eq.
      * intros Hn. rewrite (H2 Hnin). apply dict_get_set_ne.
        intros ->. apply Hn. now left.
Qed.

(** X16. On a non-empty list of rows [transpose] raises nothing and
    returns, for each key it works with, the column of that key: the value
    every row has for it, in the order of the rows, with [None] where a row
    lacks the key; it has no other column.  With no keys given the keys are
    those of the first row, so a field only later rows have is left out. *)
Theorem transpose_gives_columns (data : list Row) (keys : list pykey) :
  data <> [] ->
  exists d,
    transpose data keys = Some d
    /\ forall k,
         (In k (columns_of data keys) ->
          dict_get k d = Some (map (fun v => get_cell v k) data))
         /\ (~ In k (columns_of data keys) -> dict_get k d = None).
Proof.
  intros Hne. destruct data as [|first rest]; [congruence|].
  unfold transpose.
  set (ks := match keys with [] => map fst first | _ :: _ => keys end).
  assert (Hks : columns_of (first :: rest) keys = ks).
  { unfold columns_of, ks. now destruct keys. }
  rewrite Hks. set (data := first :: rest).
  assert (Hzip : zip_star (map (fun v => map (get_cell v) ks) data)
                 = map (fun k => map (fun v => get_cell v k) data) ks).
  { unfold zip_star, data. cbn [map]. rewrite length_map.
    apply (zip_star_go_columns get_cell ks (first :: rest)). }
  rewrite Hzip.
  destruct (enumerate_columns_spec
              (fun k => map (fun v => get_cell v k) data) ks [] [])
    as [d [Hrun Hd]].
  exists d. split; [exact Hrun|]. intros k. destruct (Hd k) as [H1 H2].
  split; [exact H1|]. intros Hn. now rewrite (H2 Hn).
Qed.

Lemma transpose_gives_columns_witness :
  exists d,
    transpose [ticket 1 (JStr "u1"); [(KStr "id", JInt 2)]] [] = Some d
    /\ dict_get (KStr "user_id") d = Some [JStr "u1"; JNull].
Proof.
  destruct (transpose_gives_columns
              [ticket 1 (JStr "u1"); [(KStr "id", JInt 2)]] [])
    as [d [Hrun Hd]]; [discriminate|].
  exists d. split; [exact Hrun|]. apply (Hd (KStr "user_id")).
  right. left. reflexivity.
Defined.

(** *** [DictPlus.find] on the index of [genindex] *)

Lemma map_fst_combine_eq {A B} (l : list A) (l' : list B) :
  List.length l = List.length l' -> map fst (combine l l') = l.
Proof.
  revert l'. induction l as [|a l IH]; intros [|b l'] Hlen; simpl in *;
    try reflexivity; try discriminate.
  f_equal. apply IH. lia.
Qed.

(** X17. [find] on the index [genindex] returns: a key some row of an
    indexed table has is found, whether a default is passed or not, and
    what is found is the last row of the table with that key; a key no row
    has gives the default when one is passed and a [KeyError] with the key
    when none is; a table the indexer left out gives a [KeyError] with the
    table, default or not. *)
Theorem find_after_genindex (data : dict string (list Row))
  (keymap : dict (option string) (option string)) (default : option string)
  (table key : string) (objects : list Row) (keys : list pykey) :
  dict_get None keymap = Some default ->
  NoDup (map fst data) ->
  (forall t objs k, In (t, objs) data -> indexed keymap default t k ->
     exists ks, keyed k objs ks) ->
  In (table, objects) data ->
  indexed keymap default table key ->
  keyed key objects keys ->
  exists log index,
    genindex data keymap = (log, Ok index)
    /\ (forall k, In k keys ->
          exists i row,
            (forall dflt, find index table k dflt = Ok (Some row))
            /\ nth_error keys i = Some k
            /\ nth_error objects i = Some row
            /\ forall j, i < j -> nth_error keys j <> Some k)
    /\ (forall k d, ~ In k keys ->
          find index table k (Some d) = Ok d
          /\ find index table k None = Raise (KeyError k))
    /\ (forall t k d,
          key_field keymap default t = None \/ startswith t "_" = true ->
          find index t k d = Raise (KeyError (KStr t))).
Proof.
  intros Hdef Hnd Hall Hin Hidx Hkeyed.
  unfold genindex. rewrite Hdef.
  destruct (IndexerSpec.genindex_loop_keyed keymap default data [] Hall)
    as [log [index [Hrun Hspec]]].
  destruct (Hspec Hnd table objects key keys Hin Hidx Hkeyed) as [Hget _].
  pose proof (IndexerSpec.keyed_length _ _ _ Hkeyed) as Hlen.
  exists log, index. split; [exact Hrun|]. split; [|split].
  - intros k Hk.
    destruct (last_binding k (combine keys objects)) as [row|] eqn:El.
    + destruct (last_binding_combine_inv _ _ _ _ El) as [i [Hi [Hrow Hlast]]].
      exists i, row. split; [|split; [exact Hi|split; [exact Hrow|]]].
      * intros dflt. unfold find. rewrite Hget, dict_get_of_pairs, El.
        now destruct dflt.
      * intros j Hj Hkj. apply (Hlast j Hj); [|exact Hkj].
        rewrite Hlen. apply nth_error_Some. congruence.
    + exfalso. apply last_binding_None in El. apply El.
      rewrite map_fst_combine_eq by lia. exact Hk.
  - intros k d Hk. unfold find. rewrite Hget, dict_get_of_pairs.
    assert (El : last_binding k (combine keys objects) = None).
    { apply last_binding_None. rewrite map_fst_combine_eq by lia. exact Hk. }
    rewrite El. split; reflexivity.
  - intros t k d Hout. unfold find.
    destruct (dict_get t index) as [m|] eqn:Et; [|reflexivity].
    exfalso.
    destruct (IndexerMore.genindex_loop_domain keymap default data [] index
                log t m Hrun Et) as [Hold|[objs [key' [_ [Hk Hu]]]]].
    + discriminate.
    + destruct Hout; congruence.
Qed.

Lemma find_after_genindex_witness :
  exists log index,
    genindex sample_data main_keymap = (log, Ok index)
    /\ find index "tickets" (KInt 42) None = Ok (Some (row_of 42 "second"))
    /\ find index "tickets" (KInt 42) (Some None)
       = Ok (Some (row_of 42 "second"))
    /\ find index "tickets" (KInt 5) (Some None) = Ok None
    /\ find index "merge_requests" (KInt 42) (Some None)
       = Raise (KeyError (KStr "merge_requests")).
Proof.
  destruct (find_after_genindex sample_data main_keymap
              (Some "id"%string) "tickets" "id"
              [row_of 42 "first"; row_of 7 "other"; row_of 42 "second"]
              [KInt 42; KInt 7; KInt 42])
    as [log [index [Hrun [Hfound [Hmiss Hout]]]]].
  - reflexivity.
  - repeat constructor; simpl; intuition discriminate.
  - intros t objs k [Heq|[Heq|[]]] [Hk Hu]; injection Heq as <- <-.
    + vm_compute in Hk. injection Hk as <-.
      exists [KInt 42; KInt 7; KInt 42].
      repeat constructor; eexists; split; reflexivity.
    + vm_compute in Hk. discriminate.
  - left. reflexivity.
  - split; reflexivity.
  - repeat constructor; eexists; split; reflexivity.
  - destruct (Hfound (KInt 42)) as [i [row [Hf [Hi [Hrow Hlast]]]]];
      [now left|].
    assert (Hsecond : row = row_of 42 "second").
    { destruct i as [|[|[|i]]].
      - exfalso. apply (Hlast 2); [lia | reflexivity].
      - discriminate.
      - simpl in Hrow. congruence.
      - destruct i; discriminate. }
    subst row.
    exists log, index. split; [exact Hrun|]. split; [apply Hf|].
    split; [apply Hf|]. split.
    + apply (Hmiss (KInt 5) None). simpl. intuition discriminate.
    + apply Hout. left. reflexivity.
Defined.

End PipelineMore.

(** ** The tree builder, whatever the order of the rows *)

Module WikiMore.

Lemma map_snd_combine_eq {A B} (l : list A) (l' : list B) :
  List.length l = List.length l' -> map snd (combine l l') = l'.
Proof.
  revert l'. induction l as [|a l IH]; intros [|b l'] Hlen; simpl in *;
    try reflexivity; try discriminate.
  f_equal. apply IH. lia.
Qed.

Lemma enrich_page_outcome (fromisoformat : string -> option Z)
  (users : dict pykey User.t) (index : dict pykey nat) (i : nat)
  (v : Page.t) (st : state) :
  match page_error fromisoformat users index v with
  | Some e => enrich_page fromisoformat users index i v st = Raise e
  | None => exists st', enrich_page fromisoformat users index i v st = Ok st'
  end.
Proof.
  destruct st as [store wt]. unfold page_error, enrich_page.
  destruct (dict_get (Page.user_id v) users); [|reflexivity].
  destruct (fromisoformat (Page.created_at v)); [|reflexivity].
  destruct (fromisoformat (Page.updated_at v)); [|reflexivity].
  destruct (truthy (Page.parent_id v)); [|eauto].
  destruct (dict_get (Page.parent_id v) index); [eauto | reflexivity].
Qed.

Lemma enrich_pages_outcome (fromisoformat : string -> option Z)
  (users : dict pykey User.t) (index : dict pykey nat)
  (rows : list (nat * Page.t)) (st : state) :
  match first_error fromisoformat users index (map snd rows) with
  | Some e => enrich_pages fromisoformat users index rows st = Raise e
  | None => exists st', enrich_pages fromisoformat users index rows st = Ok st'
  end.
Proof.
  revert st. induction rows as [|[i v] rows IH]; intros st; simpl.
  - eauto.
  - pose proof (enrich_page_outcome fromisoformat users index i v st) as Hv.
    destruct (page_error fromisoformat users index v) as [e|].
    + now rewrite Hv.
    + destruct Hv as [st1 ->]. simpl. apply IH.
Qed.

(** X18. The first loop of [wikiparser] fails on the first row that has
    an unknown [user_id], a date that does not parse or a truthy
    [parent_id] that is no page, with the error of that row, whatever the
    rows after it and the other tables hold; without such a row the loop
    ends normally. *)
Theorem first_bad_page_decides (fromisoformat : string -> option Z)
  (data : Data) (pages : list Page.t) :
  wiki_pages data = Some pages ->
  match first_error fromisoformat (_users data)
          (index_refs (map Page.id pages)) pages with
  | Some e => wikiparser fromisoformat data = Raise e
  | None =>
      exists st,
        enrich_pages fromisoformat (_users data)
          (index_refs (map Page.id pages))
          (combine (seq 0 (List.length pages)) pages) (pages, []) = Ok st
  end.
Proof.
  intros Hpages.
  pose proof (enrich_pages_outcome fromisoformat (_users data)
                (index_refs (map Page.id pages))
                (combine (seq 0 (List.length pages)) pages) (pages, []))
    as Hrun.
  rewrite map_snd_combine_eq in Hrun by apply length_seq.
  destruct (first_error fromisoformat (_users data)
              (index_refs (map Page.id pages)) pages) as [e|];
    [|exact Hrun].
  unfold wikiparser. rewrite Hpages, Hrun. reflexivity.
Qed.

Lemma first_bad_page_decides_witness :
  wikiparser Iso.fromisoformat (data_of unknown_user)
  = Raise (KeyError (KStr "nobody")).
Proof.
  exact (first_bad_page_decides Iso.fromisoformat (data_of unknown_user)
           unknown_user eq_refl).
Defined.

Lemma fresh_level (p : Page.t) : fresh p -> Page._level p = None.
Proof. intros H. rewrite <- H. reflexivity. Qed.

Lemma fresh_level_of (pages : list Page.t) (r : nat) :
  Forall fresh pages -> level_of pages r = None.
Proof.
  intros Hfresh. unfold level_of.
  destruct (nth_error pages r) as [p|] eqn:Ep; [|reflexivity].
  apply fresh_level. rewrite Forall_forall in Hfresh.
  apply Hfresh. now apply nth_error_In in Ep.
Qed.

(** The level a row gets, from the state the loop is in when it reaches
    the row. *)
Lemma level_rule (fromisoformat : string -> option Z)
  (users : dict pykey User.t) (pages : list Page.t) (st : state) :
  enrich_pages fromisoformat users (index_refs (map Page.id pages))
    (combine (seq 0 (List.length pages)) pages) (pages, []) = Ok st ->
  Forall fresh pages ->
  forall j v, nth_error pages j = Some v ->
    (truthy (Page.parent_id v) = false -> level_of (fst st) j = Some 0)
    /\ (truthy (Page.parent_id v) = true ->
        exists p,
          parent_of pages j = Some p
          /\ (p < j ->
              exists l, level_of (fst st) p = Some l
                        /\ level_of (fst st) j = Some (l + 1))
          /\ (j <= p -> level_of (fst st) j = Some 1)).
Proof.
  intros Hrun Hfresh.
  pose (Inv := fun (m : nat) (s : state) =>
    (forall r, m <= r -> level_of (fst s) r = None)
    /\ forall j v, j < m -> nth_error pages j = Some v ->
         (truthy (Page.parent_id v) = false -> level_of (fst s) j = Some 0)
         /\ (truthy (Page.parent_id v) = true ->
             exists p,
               parent_of pages j = Some p
               /\ (p < j ->
                   exists l, level_of (fst s) p = Some l
                             /\ level_of (fst s) j = Some (l + 1))
               /\ (j <= p -> level_of (fst s) j = Some 1))).
  assert (Hend : Inv (List.length pages) st
                 /\ map source (fst st) = map source pages).
  { apply (enrich_pages_invariant fromisoformat users pages Inv);
      [| | exact Hrun].
    - split; [|intros j v Hj; lia].
      intros r _. now apply fresh_level_of.
    - intros m v [store wt] [store1 wt1] Hv Hsrc [Hnone Hinv] Hstep.
      simpl in *.
      assert (Hm : m < List.length pages) by (apply nth_error_Some; congruence).
      destruct (enrich_page_fields _ _ _ _ _ _ _ _ _ Hstep Hm Hsrc)
        as [_ [_ [Hfound [_ Hlv]]]].
      assert (Hset : forall p, p < m -> exists l, level_of store p = Some l).
      { intros p Hp.
        destruct (nth_error pages p) as [vp|] eqn:Evp;
          [|apply nth_error_None in Evp; lia].
        destruct (Hinv p vp Hp Evp) as [H0 H1].
        destruct (truthy (Page.parent_id vp)); [|eauto].
        destruct (H1 eq_refl) as [q [_ [Hlt Hge]]].
        destruct (Nat.lt_ge_cases q p) as [Hq|Hq].
        - destruct (Hlt Hq) as [l [_ Hl]]. eauto.
        - eauto. }
      split.
      + intros r Hr. simpl. rewrite Hlv.
        destruct (Nat.eqb_spec m r); [lia|]. apply Hnone. lia.
      + intros j vj Hj Hvj. simpl. rewrite !Hlv.
        destruct (Nat.eq_dec j m) as [->|Hne].
        * assert (vj = v) by congruence. subst vj. rewrite Nat.eqb_refl.
          split; [now intros ->|]. intros Ht. rewrite Ht.
          destruct (Hfound Ht) as [p Hp]. rewrite Hp. exists p.
          split; [unfold parent_of; now rewrite Hv, Ht|]. split.
          -- intros Hpm. destruct (Hset p Hpm) as [l Hl]. exists l.
             rewrite Hlv, Hl. destruct (Nat.eqb_spec m p); [lia|]. auto.
          -- intros Hpm. now rewrite (Hnone p Hpm).
        * destruct (Nat.eqb_spec m j); [congruence|].
          destruct (Hinv j vj ltac:(lia) Hvj) as [H0 H1].
          split; [exact H0|]. intros Ht.
          destruct (H1 Ht) as [p [Hp [Hlt Hge]]]. exists p.
          split; [exact Hp|]. split; [|exact Hge].
          intros Hpj. destruct (Hlt Hpj) as [l [Hl Hjl]]. exists l.
          rewrite Hlv. destruct (Nat.eqb_spec m p); [lia|]. auto. }
  destruct Hend as [[_ Hinv] _]. intros j v Hv. apply Hinv; [|exact Hv].
  apply nth_error_Some. congruence.
Qed.

(** X19. The levels the loop leaves, whatever the order of the rows: a
    page with a falsy [parent_id] has level 0; a page whose parent row
    comes before it in the file has the level of the parent plus one; a
    page whose parent row comes later, or is the page itself, has level
    1. *)
Theorem levels_in_any_order (fromisoformat : string -> option Z)
  (users : dict pykey User.t) (pages : list Page.t) (st : state) :
  enrich_pages fromisoformat users (index_refs (map Page.id pages))
    (combine (seq 0 (List.length pages)) pages) (pages, []) = Ok st ->
  Forall fresh pages ->
  forall j v, nth_error pages j = Some v ->
    (truthy (Page.parent_id v) = false -> level_of (fst st) j = Some 0)
    /\ (truthy (Page.parent_id v) = true ->
        exists p,
          parent_of pages j = Some p
          /\ (p < j ->
              exists l, level_of (fst st) p = Some l
                        /\ level_of (fst st) j = Some (l + 1))
          /\ (j <= p -> level_of (fst st) j = Some 1)).
Proof.
  intros Hrun Hfresh j v Hv.
  exact (level_rule fromisoformat users pages st Hrun Hfresh j v Hv).
Qed.

Lemma levels_in_any_order_witness :
  exists st,
    enrich_pages Iso.fromisoformat sample_users
      (index_refs (map Page.id child_first))
      (combine (seq 0 (List.length child_first)) child_first)
      (child_first, []) = Ok st
    /\ level_of (fst st) 0 = Some 1
    /\ level_of (fst st) 2 = Some 0.
Proof.
  destruct (enrich_pages Iso.fromisoformat sample_users
              (index_refs (map Page.id child_first))
              (combine (seq 0 (List.length child_first)) child_first)
              (child_first, [])) as [st|e] eqn:E;
    [|vm_compute in E; discriminate].
  assert (Hfresh : Forall fresh child_first)
    by (repeat constructor).
  exists st. split; [reflexivity|]. split.
  - destruct (levels_in_any_order Iso.fromisoformat sample_users child_first
                st E Hfresh 0 (page 3 (KInt 2) 0) eq_refl) as [_ H1].
    destruct (H1 eq_refl) as [p [Hp [_ Hge]]]. apply Hge. lia.
  - destruct (levels_in_any_order Iso.fromisoformat sample_users child_first
                st E Hfresh 2 (page 1 KNone 0) eq_refl) as [H0 _].
    now apply H0.
Defined.

Lemma children_field_set (fromisoformat : string -> option Z)
  (users : dict pykey User.t) (pages : list Page.t) (st : state) :
  enrich_pages fromisoformat users (index_refs (map Page.id pages))
    (combine (seq 0 (List.length pages)) pages) (pages, []) = Ok st ->
  forall r, r < List.length pages -> children_field (fst st) r <> None.
Proof.
  intros Hrun.
  pose (Inv := fun (m : nat) (s : state) =>
    forall r, r < m -> children_field (fst s) r <> None).
  assert (Hend : Inv (List.length pages) st
                 /\ map source (fst st) = map source pages).
  { apply (enrich_pages_invariant fromisoformat users pages Inv);
      [| | exact Hrun].
    - intros r Hr. lia.
    - intros m v [store wt] [store1 wt1] Hv Hsrc Hinv Hstep r Hr.
      simpl in *.
      assert (Hm : m < List.length pages) by (apply nth_error_Some; congruence).
      destruct (enrich_page_fields _ _ _ _ _ _ _ _ _ Hstep Hm Hsrc)
        as [_ [_ [_ [Hch _]]]].
      rewrite Hch.
      destruct (truthy (Page.parent_id v) && _); [discriminate|].
      destruct (Nat.eqb_spec m r) as [<-|Hne].
      + destruct (children_field store m); discriminate.
      + apply Hinv. lia. }
  destruct Hend as [Hinv _]. exact Hinv.
Qed.

Lemma children_of_kids (st : state) (r : nat) :
  children_field (fst st) r <> None ->
  children_of st r = Some (kids (children_of st) r).
Proof.
  unfold children_field, kids, children_of.
  destruct (nth_error (fst st) r) as [p|]; [|congruence].
  destruct (Page._children p) as [[|k]|]; congruence.
Qed.

Lemma filter_ext_iff {A} (f g : A -> bool) (l : list A) :
  (forall x, In x l -> (f x = true <-> g x = true)) ->
  filter f l = filter g l.
Proof.
  intros H. apply filter_ext_in. intros x Hx. specialize (H x Hx).
  destruct (f x), (g x); intuition congruence.
Qed.

(** X20. The child lists the loop leaves, whatever the order of the rows:
    every page has a [_children] list, and it holds exactly the pages
    whose truthy [parent_id] resolves to that page, each once, in file
    order. *)
Theorem children_in_any_order (fromisoformat : string -> option Z)
  (users : dict pykey User.t) (pages : list Page.t) (st : state) :
  enrich_pages fromisoformat users (index_refs (map Page.id pages))
    (combine (seq 0 (List.length pages)) pages) (pages, []) = Ok st ->
  Forall fresh pages ->
  forall v, v < List.length pages ->
    children_of st v = Some (kids_of pages v).
Proof.
  intros Hrun Hfresh v Hv.
  rewrite (children_of_kids st v)
    by now apply (children_field_set fromisoformat users pages).
  f_equal.
  pose proof (WikiSpec.kids_final_parent fromisoformat users pages st Hrun
                Hfresh v) as KP.
  assert (Hg : forall c, In c (seq 0 (List.length pages)) ->
            (match parent_of pages c with
             | Some p => p =? v
             | None => false
             end = true <-> In c (kids (children_of st) v))).
  { intros c _. rewrite KP.
    destruct (parent_of pages c) as [p|]; [|split; discriminate].
    rewrite Nat.eqb_eq. split; congruence. }
  destruct (WikiSpec.kids_final fromisoformat users pages st Hrun v)
    as [Hnil|[k [_ Hgroup]]].
  - rewrite Hnil in *. unfold kids_of.
    destruct (filter _ (seq 0 (List.length pages))) as [|c l] eqn:Ef;
      [reflexivity|].
    exfalso. assert (Hc : In c (c :: l)) by now left.
    rewrite <- Ef in Hc. apply filter_In in Hc. destruct Hc as [Hc Hb].
    now apply (Hg c Hc) in Hb.
  - rewrite Hgroup in *. unfold kids_of, group. apply filter_ext_iff.
    intros c Hc. rewrite (Hg c Hc). unfold group. rewrite filter_In.
    tauto.
Qed.

Lemma children_in_any_order_witness :
  exists st,
    enrich_pages Iso.fromisoformat sample_users
      (index_refs (map Page.id forest))
      (combine (seq 0 (List.length forest)) forest) (forest, []) = Ok st
    /\ children_of st 0 = Some [1; 2].
Proof.
  destruct (enrich_pages Iso.fromisoformat sample_users
              (index_refs (map Page.id forest))
              (combine (seq 0 (List.length forest)) forest) (forest, []))
    as [st|e] eqn:E; [|vm_compute in E; discriminate].
  exists st. split; [reflexivity|].
  rewrite (children_in_any_order Iso.fromisoformat sample_users forest st E);
    [reflexivity | repeat constructor | simpl; lia].
Defined.

(** What a normal return of [wikiparser] went through. *)
Lemma wikiparser_Ok_inv (fromisoformat : string -> option Z) (data : Data)
  (store : list Page.t) (versions : list Version.t) (order : list nat) :
  wikiparser fromisoformat data = Ok (store, versions, order) ->
  exists pages st vs roots,
    wiki_pages data = Some pages
    /\ enrich_pages fromisoformat (_users data)
         (index_refs (map Page.id pages))
         (combine (seq 0 (List.length pages)) pages) (pages, []) = Ok st
    /\ store = fst st
    /\ wiki_page_versions data = Some vs
    /\ enrich_versions fromisoformat (_users data)
         (index_refs (map Page.id pages)) (wiki_page_blobs data) vs
       = Ok versions
    /\ dict_get KNone (snd st) = Some roots
    /\ _wikitraverse (position_of (fst st)) (children_of st)
         (S (List.length (fst st))) roots = Some order.
Proof.
  unfold wikiparser. intros Hrun.
  destruct (wiki_pages data) as [pages|]; [|discriminate].
  destruct (enrich_pages fromisoformat (_users data)
              (index_refs (map Page.id pages))
              (combine (seq 0 (List.length pages)) pages) (pages, []))
    as [st|] eqn:Eloop; [|discriminate]. simpl in Hrun.
  destruct (wiki_page_versions data) as [vs|]; [|discriminate].
  destruct (enrich_versions fromisoformat (_users data)
              (index_refs (map Page.id pages)) (wiki_page_blobs data) vs)
    as [vs'|] eqn:Evs; [|discriminate]. simpl in Hrun.
  destruct (dict_get KNone (snd st)) as [roots|] eqn:Eroots; [|discriminate].
  match type of Hrun with
  | match ?t with _ => _ end = _ =>
      destruct t as [out|] eqn:Eout; [|discriminate]
  end.
  injection Hrun as <- <- <-.
  exists pages, st, vs, roots. repeat split; auto.
Qed.

Lemma roots_are_group (fromisoformat : string -> option Z)
  (users : dict pykey User.t) (pages : list Page.t) (st : state)
  (roots : list nat) :
  enrich_pages fromisoformat users (index_refs (map Page.id pages))
    (combine (seq 0 (List.length pages)) pages) (pages, []) = Ok st ->
  dict_get KNone (snd st) = Some roots ->
  roots = group pages KNone (List.length pages).
Proof.
  intros Hrun Hroots.
  rewrite (wikitree_groups fromisoformat users pages st Hrun KNone) in Hroots.
  destruct (group pages KNone (List.length pages)); congruence.
Qed.

Lemma descendant_has_parent (parent : nat -> option nat) (v w : nat) :
  descendant parent v w -> exists p, parent w = Some p.
Proof. induction 1; eauto. Qed.

(** X21. What the traversal leaves out.  In the order [wikiparser]
    returns every entry is a page of the table and no page comes twice, so
    the order is no longer than the table; its entries are the pages with
    [parent_id] [None] and the pages below them.  A page whose [parent_id]
    is falsy without being [None] (0 or the empty string), and a page that
    is its own ancestor, are in the table and get a level, but are not in
    the order. *)
Theorem order_leaves_out (fromisoformat : string -> option Z) (data : Data)
  (pages store : list Page.t) (versions : list Version.t)
  (order : list nat) :
  wikiparser fromisoformat data = Ok (store, versions, order) ->
  wiki_pages data = Some pages ->
  Forall fresh pages ->
  NoDup order
  /\ List.length order <= List.length pages
  /\ (forall r, In r order ->
        r < List.length pages
        /\ (is_root pages r
            \/ exists root, is_root pages root
                            /\ descendant (parent_of pages) root r))
  /\ (forall r v, nth_error pages r = Some v ->
        truthy (Page.parent_id v) = false -> Page.parent_id v <> KNone ->
        ~ In r order)
  /\ (forall r, descendant (parent_of pages) r r -> ~ In r order).
Proof.
  intros Hrun Hpages Hfresh.
  destruct (wikiparser_Ok_inv _ _ _ _ _ Hrun)
    as [pages' [st [vs [roots0 [Hp' [Hloop [-> [_ [_ [Hroots Horder]]]]]]]]]].
  assert (pages' = pages) by congruence. subst pages'.
  set (n := List.length pages).
  pose proof (roots_are_group _ _ _ _ _ Hloop Hroots) as Hr0. subst roots0.
  set (roots := group pages KNone n) in *.
  pose proof (WikiSpec.root_no_parent pages) as RP.
  pose proof (WikiSpec.root_bound pages) as RB.
  pose proof (WikiSpec.parent_of_bound pages) as PB.
  pose proof (WikiSpec.kids_final_parent fromisoformat (_users data) pages st
                Hloop Hfresh) as KP.
  pose proof (WikiSpec.kids_final_nodup fromisoformat (_users data) pages st
                Hloop) as KN.
  fold n in RP, RB, PB. fold roots in RP, RB.
  pose proof (WikiForest.traverse_Lay _ _ _ _ _ Horder) as Hlay.
  assert (Hdepth : forall v, In v (sorted (position_of (fst st)) roots) ->
            depth (parent_of pages) roots v 0).
  { intros v Hv. constructor. now apply sorted_In in Hv. }
  assert (Hnd : NoDup (sorted (position_of (fst st)) roots)).
  { apply (Permutation_NoDup (Permutation_sym (sorted_perm _ _))).
    apply group_NoDup. }
  assert (Hnodup : NoDup order).
  { apply (WikiForest.Lay_NoDup _ _ _ roots RP KP KN _ _ Hlay 0 Hnd Hdepth). }
  assert (Hmem : forall r, In r order ->
            r < n
            /\ (is_root pages r
                \/ exists root, is_root pages root
                                /\ descendant (parent_of pages) root r)).
  { intros r Hr.
    apply (WikiForest.Lay_members _ _ _ KP _ _ Hlay) in Hr.
    destruct Hr as [root [Hroot [<-|Hd]]]; apply sorted_In in Hroot.
    - split; [now apply RB|]. left. now apply WikiSpec.group_roots.
    - split.
      + destruct (descendant_has_parent _ _ _ Hd) as [q Hq].
        now apply (PB r q).
      + right. exists root. split; [|exact Hd].
        now apply WikiSpec.group_roots. }
  split; [exact Hnodup|]. split; [|split; [exact Hmem|split]].
  - assert (Hincl : incl order (seq 0 n)).
    { intros r Hr. apply in_seq. destruct (Hmem r Hr). lia. }
    pose proof (NoDup_incl_length Hnodup Hincl) as Hlen.
    now rewrite length_seq in Hlen.
  - intros r v Hv Hfalsy Hnone Hr.
    destruct (Hmem r Hr) as [_ [[v' [Hv' Hk]]|[root [_ Hd]]]].
    + congruence.
    + destruct (descendant_has_parent _ _ _ Hd) as [q Hq].
      unfold parent_of in Hq. rewrite Hv, Hfalsy in Hq. discriminate.
  - intros r Hcycle Hr.
    destruct (WikiForest.Lay_depth _ _ (parent_of pages) roots KP _ _ 0 Hlay
                Hdepth r Hr) as [d Hd].
    destruct (WikiForest.depth_descendant _ roots r r d Hd Hcycle)
      as [k Hk].
    pose proof (WikiForest.depth_unique _ roots RP r _ _ Hd Hk). lia.
Qed.

Lemma order_leaves_out_witness :
  exists store versions order,
    wikiparser Iso.fromisoformat (data_of orphans)
    = Ok (store, versions, order)
    /\ ~ In 1 order /\ ~ In 2 order.
Proof.
  destruct (wikiparser Iso.fromisoformat (data_of orphans))
    as [[[store versions] order]|e] eqn:E; [|vm_compute in E; discriminate].
  destruct (order_leaves_out Iso.fromisoformat (data_of orphans) orphans
              store versions order E eq_refl)
    as [_ [_ [_ [Hfalsy Hcycle]]]]; [repeat constructor|].
  exists store, versions, order. split; [reflexivity|]. split.
  - apply (Hfalsy 1 (page 2 (KInt 0) 0)); [reflexivity | reflexivity |].
    discriminate.
  - apply Hcycle. apply descendant_child. reflexivity.
Defined.

(** *** The second loop *)

Lemma last_binding_In {K V} `{EqDec K} (k : K) (pairs : list (K * V))
  (v : V) :
  last_binding k pairs = Some v -> In (k, v) pairs.
Proof.
  induction pairs as [|[k' v'] rest IH]; simpl; [discriminate|].
  destruct (last_binding k rest) as [w|].
  - intros Hw. injection Hw as ->. right. now apply IH.
  - destruct (eq_dec k' k) as [->|Hne]; [|discriminate].
    intros Hv. injection Hv as ->. now left.
Qed.

Lemma index_refs_row (pages : list Page.t) (k : pykey) (r : nat) :
  dict_get k (index_refs (map Page.id pages)) = Some r ->
  exists p, nth_error pages r = Some p /\ Page.id p = k.
Proof.
  intros Hr. apply index_refs_Some in Hr. destruct Hr as [Hr _].
  rewrite nth_error_map in Hr.
  destruct (nth_error pages r) as [p|]; [|discriminate].
  injection Hr as <-. eauto.
Qed.

(** X22. The second loop keeps the version rows, their number and their
    order, and resolves every reference: the blob id comes from a blob row
    whose [version_id] is the id of the version, the page object is a row
    of [wiki_pages] whose [id] is the [wiki_page_id] of the version, the
    user is the one the user index has for its [user_id], and both dates
    are the parsed source dates. *)
Theorem versions_refer_to_rows (fromisoformat : string -> option Z)
  (users : dict pykey User.t) (pages : list Page.t)
  (blobs : option (list Blob.t)) (vs vs' : list Version.t) :
  enrich_versions fromisoformat users (index_refs (map Page.id pages)) blobs vs
  = Ok vs' ->
  Forall2
    (fun v v' =>
       exists bs blob r p a c u,
         blobs = Some bs
         /\ In blob bs /\ Blob.version_id blob = Version.id v
         /\ nth_error pages r = Some p /\ Page.id p = Version.wiki_page_id v
         /\ dict_get (Version.user_id v) users = Some a
         /\ fromisoformat (Version.created_at v) = Some c
         /\ fromisoformat (Version.updated_at v) = Some u
         /\ Version._blob_id v' = Some (Blob.blob_id blob)
         /\ Version._wiki_page_id v' = Some r
         /\ Version._user_id v' = Some a
         /\ Version._created_at v' = Some c
         /\ Version._updated_at v' = Some u
         /\ Version.id v' = Version.id v
         /\ Version.wiki_page_id v' = Version.wiki_page_id v
         /\ Version.user_id v' = Version.user_id v
         /\ Version.version v' = Version.version v
         /\ Version.change_comment v' = Version.change_comment v
         /\ Version.created_at v' = Version.created_at v
         /\ Version.updated_at v' = Version.updated_at v)
    vs vs'.
Proof.
  revert vs'. induction vs as [|v0 vs IH]; intros vs' Hrun; simpl in Hrun.
  - injection Hrun as <-. constructor.
  - destruct (enrich_version fromisoformat users _ blobs v0) as [v1|]
      eqn:E1; [|discriminate]. simpl in Hrun.
    destruct (enrich_versions fromisoformat users _ blobs vs) as [rest|];
      [|discriminate]. simpl in Hrun. injection Hrun as <-.
    constructor; [|now apply IH].
    unfold enrich_version in E1.
    destruct blobs as [bs|]; [|discriminate].
    destruct (dict_get (Version.id v0) _) as [blob|] eqn:Eb; [|discriminate].
    destruct (dict_get (Version.wiki_page_id v0) _) as [r|] eqn:Ep;
      [|discriminate].
    destruct (dict_get (Version.user_id v0) users) as [a|] eqn:Ea;
      [|discriminate].
    destruct (fromisoformat (Version.created_at v0)) as [c|] eqn:Ec;
      [|discriminate].
    destruct (fromisoformat (Version.updated_at v0)) as [u|] eqn:Eu;
      [|discriminate].
    injection E1 as <-.
    rewrite dict_get_of_pairs in Eb. apply last_binding_In in Eb.
    apply in_map_iff in Eb. destruct Eb as [b [Hb Hin]].
    injection Hb as Hid ->.
    destruct (index_refs_row pages _ r Ep) as [p [Hp Hpid]].
    exists bs, blob, r, p, a, c, u. cbn. repeat split; auto.
Qed.

Lemma versions_refer_to_rows_witness :
  exists vs',
    enrich_versions Iso.fromisoformat sample_users
      (index_refs (map Page.id parent_first)) (Some revision_blobs) revisions
    = Ok vs'
    /\ List.length vs' = 2
    /\ map Version._wiki_page_id vs' = [Some 1; Some 1]
    /\ map Version._blob_id vs' = [Some (KStr "b11"); Some (KStr "b10")]
    /\ map Version._user_id vs' = [Some bob; Some bob]
    /\ map Version._created_at vs' = [Some 1577836800%Z; Some 1577836800%Z]
    /\ map Version._updated_at vs' = [Some 1578009600%Z; Some 1577923200%Z]
    /\ map Version.version vs' = [KInt 2; KInt 1].
Proof.
  destruct (enrich_versions Iso.fromisoformat sample_users
              (index_refs (map Page.id parent_first)) (Some revision_blobs)
              revisions) as [vs'|e] eqn:E; [|vm_compute in E; discriminate].
  pose proof (versions_refer_to_rows Iso.fromisoformat sample_users
                parent_first (Some revision_blobs) revisions vs' E) as H.
  exists vs'. split; [reflexivity|].
  split; [symmetry; exact (Forall2_length H)|].
  vm_compute in E. injection E as <-. repeat split; reflexivity.
Defined.

(** *** The fields the first loop sets *)

Lemma update_other {A} (Q : A -> Prop) (i r : nat) (f : A -> A)
  (store : list A) :
  i <> r ->
  (exists p, nth_error store r = Some p /\ Q p) ->
  exists p, nth_error (update i f store) r = Some p /\ Q p.
Proof.
  intros Hne [p [Hp Hq]]. rewrite nth_error_update.
  destruct (Nat.eqb_spec i r); [contradiction|]. eauto.
Qed.

Lemma fresh_source_eq (pages store : list Page.t) (j : nat) (v p : Page.t) :
  map source store = map source pages ->
  Forall fresh pages ->
  nth_error pages j = Some v ->
  nth_error store j = Some p ->
  source p = v.
Proof.
  intros Hsrc Hfresh Hv Hp.
  assert (H : nth_error (map source store) j = nth_error (map source pages) j)
    by now rewrite Hsrc.
  rewrite !nth_error_map, Hv, Hp in H. cbn [option_map] in H.
  assert (Hpv : source p = source v) by congruence.
  rewrite Hpv. rewrite Forall_forall in Hfresh. apply Hfresh.
  now apply nth_error_In in Hv.
Qed.

(** X23. The fields the first loop sets on a page, whatever the order of
    the rows: the source fields are untouched; [_parent_id] is the row the
    page index has for [parent_id], or [None]; [_user_id] is the user the
    user index has for [user_id]; the two dates are the parsed source
    dates.  No later row changes them. *)
Theorem pages_get_their_fields (fromisoformat : string -> option Z)
  (users : dict pykey User.t) (pages : list Page.t) (st : state) :
  enrich_pages fromisoformat users (index_refs (map Page.id pages))
    (combine (seq 0 (List.length pages)) pages) (pages, []) = Ok st ->
  Forall fresh pages ->
  forall j v, nth_error pages j = Some v ->
    exists p a c u,
      nth_error (fst st) j = Some p
      /\ source p = v
      /\ Page._parent_id p
         = Some (dict_get (Page.parent_id v) (index_refs (map Page.id pages)))
      /\ dict_get (Page.user_id v) users = Some a
      /\ Page._user_id p = Some a
      /\ fromisoformat (Page.created_at v) = Some c
      /\ Page._created_at p = Some c
      /\ fromisoformat (Page.updated_at v) = Some u
      /\ Page._updated_at p = Some u.
Proof.
  intros Hrun Hfresh.
  set (index := index_refs (map Page.id pages)) in *.
  pose (Q := fun (v p : Page.t) =>
    Page._parent_id p = Some (dict_get (Page.parent_id v) index)
    /\ option_map Some (dict_get (Page.user_id v) users)
       = Some (Page._user_id p)
    /\ option_map Some (fromisoformat (Page.created_at v))
       = Some (Page._created_at p)
    /\ option_map Some (fromisoformat (Page.updated_at v))
       = Some (Page._updated_at p)).
  pose (Inv := fun (m : nat) (s : state) =>
    forall j v, j < m -> nth_error pages j = Some v ->
      exists p, nth_error (fst s) j = Some p /\ Q v p).
  assert (Hend : Inv (List.length pages) st
                 /\ map source (fst st) = map source pages).
  { apply (enrich_pages_invariant fromisoformat users pages Inv);
      [| | exact Hrun].
    - intros j v Hj. lia.
    - intros m v [store wt] [store1 wt1] Hv Hsrc Hinv Hstep j vj Hj Hvj.
      simpl in *.
      assert (Hm : m < List.length store).
      { rewrite (source_length pages _ Hsrc). apply nth_error_Some.
        congruence. }
      destruct (nth_error store m) as [p0|] eqn:Ep0;
        [|apply nth_error_None in Ep0; lia].
      unfold enrich_page in Hstep. fold index in Hstep.
      destruct (dict_get (Page.user_id v) users) as [a|] eqn:Ea;
        [|discriminate].
      destruct (fromisoformat (Page.created_at v)) as [c|] eqn:Ec;
        [|discriminate].
      destruct (fromisoformat (Page.updated_at v)) as [u|] eqn:Eu;
        [|discriminate].
      destruct (Nat.eq_dec j m) as [->|Hne].
      + assert (vj = v) by congruence. subst vj.
        destruct (truthy (Page.parent_id v)).
        * destruct (dict_get (Page.parent_id v) index) as [q|] eqn:Eq;
            [|discriminate].
          injection Hstep as <- _.
          rewrite !nth_error_update, Nat.eqb_refl, Ep0. simpl.
          destruct (q =? m); simpl; eexists; (split; [reflexivity|]);
            unfold Q, Page.setdefault_children; simpl;
            rewrite Ea, Ec, Eu, ?Eq;
            destruct (Page._children _); simpl; auto.
        * injection Hstep as <- _.
          rewrite !nth_error_update, Nat.eqb_refl, Ep0. simpl.
          eexists. split; [reflexivity|].
          unfold Q, Page.setdefault_children; simpl. rewrite Ea, Ec, Eu.
          destruct (Page._children _); simpl; auto.
      + assert (Hjm : m <> j) by congruence.
        pose proof (Hinv j vj ltac:(lia) Hvj) as Hold.
        assert (H4 : exists p,
                  nth_error
                    (update m (Page.set_dates c u)
                       (update m (Page.set_user_id a)
                          (update m Page.setdefault_children
                             (update m
                                (Page.set_parent_id
                                   (dict_get (Page.parent_id v) index))
                                store)))) j = Some p /\ Q vj p).
        { repeat apply (update_other (Q vj)); auto. }
        destruct (truthy (Page.parent_id v)).
        * destruct (dict_get (Page.parent_id v) index) as [q|];
            [|discriminate].
          injection Hstep as <- _.
          apply (update_other (Q vj)); [exact Hjm|].
          destruct H4 as [p [Hp Hqp]]. rewrite nth_error_update, Hp.
          destruct (q =? j); simpl; eauto.
        * injection Hstep as <- _.
          now apply (update_other (Q vj)). }
  destruct Hend as [Hinv Hsrc]. intros j v Hv.
  assert (Hj : j < List.length pages) by (apply nth_error_Some; congruence).
  destruct (Hinv j v Hj Hv) as [p [Hp [Q1 [Q2 [Q3 Q4]]]]].
  destruct (dict_get (Page.user_id v) users) as [a|]; [|discriminate].
  destruct (fromisoformat (Page.created_at v)) as [c|]; [|discriminate].
  destruct (fromisoformat (Page.updated_at v)) as [u|]; [|discriminate].
  simpl in Q2, Q3, Q4.
  exists p, a, c, u. repeat split; try congruence.
  apply (fresh_source_eq pages (fst st) j); assumption.
Qed.

Lemma pages_get_their_fields_witness :
  exists st p,
    enrich_pages Iso.fromisoformat sample_users
      (index_refs (map Page.id parent_first))
      (combine (seq 0 (List.length parent_first)) parent_first)
      (parent_first, []) = Ok st
    /\ nth_error (fst st) 1 = Some p
    /\ source p = page 2 (KInt 1) 0
    /\ Page._parent_id p = Some (Some 0)
    /\ Page._user_id p = Some bob.
Proof.
  destruct (enrich_pages Iso.fromisoformat sample_users
              (index_refs (map Page.id parent_first))
              (combine (seq 0 (List.length parent_first)) parent_first)
              (parent_first, [])) as [st|e] eqn:E;
    [|vm_compute in E; discriminate].
  destruct (pages_get_their_fields Iso.fromisoformat sample_users
              parent_first st E ltac:(repeat constructor) 1
              (page 2 (KInt 1) 0) eq_refl)
    as [p [a [c [u [Hp [Hsrc [Hpar [Ha [Hu _]]]]]]]]].
  exists st, p. split; [reflexivity|]. split; [exact Hp|].
  split; [exact Hsrc|]. split; [exact Hpar|].
  rewrite Hu. f_equal. vm_compute in Ha. injection Ha as <-. reflexivity.
Defined.

(** *** From the parser to the replay *)

Lemma Lay_bound (position : nat -> Z) (children : nat -> option (list nat))
  (n : nat) (vs out : list nat) :
  (forall v c, In c (kids children v) -> c < n) ->
  Lay position children vs out ->
  (forall v, In v vs -> v < n) ->
  forall w, In w out -> w < n.
Proof.
  intros Hkids. induction 1 as [|v vs sub rest Hsub IHsub Hrest IHrest];
    intros Hvs w Hw; [destruct Hw|].
  destruct Hw as [<-|Hw]; [apply Hvs; now left|].
  apply in_app_or in Hw. destruct Hw as [Hw|Hw].
  - apply IHsub; [|exact Hw]. intros c Hc. apply sorted_In in Hc.
    now apply (Hkids v).
  - apply IHrest; [|exact Hw]. intros c Hc. apply Hvs. now right.
Qed.

Lemma views_exist {A B} (f : A -> option B) (l : list A) :
  (forall x, In x l -> f x <> None) ->
  exists l', Forall2 (fun x y => f x = Some y) l l'.
Proof.
  induction l as [|x l IH]; intros H.
  - exists []. constructor.
  - destruct IH as [l' Hl']; [intros y Hy; apply H; now right|].
    destruct (f x) as [y|] eqn:Ex; [|exfalso; apply (H x); [now left|auto]].
    exists (y :: l'). now constructor.
Qed.

Lemma Forall2_In_r {A B} (R : A -> B -> Prop) (l : list A) (l' : list B)
  (y : B) :
  Forall2 R l l' -> In y l' -> exists x, In x l /\ R x y.
Proof.
  induction 1 as [|x y' l l' Hxy _ IH]; intros Hy; [destruct Hy|].
  destruct Hy as [<-|Hy].
  - exists x. split; [now left | exact Hxy].
  - destruct (IH Hy) as [x' [Hx' Hr]]. exists x'. split; [now right|exact Hr].
Qed.

(** X24. Whatever [wikiparser] returns, the replay generator can read:
    every version row and every page of the order has the fields the
    generator looks up, so no lookup of the generator fails, and it yields
    one commit per version row, dated by the parsed update date of the
    row and named by the title of the page object the row refers to, a
    colon and the version of the row: the decimal digits of a version
    number (an integer, as the revision numbers of the export are), the
    text of a version that is a string, [None] for a version that is
    null. *)
Theorem wikiparser_feeds_replay (fromisoformat : string -> option Z)
  (datetime_str : Z -> string) (data : Data) (store : list Page.t)
  (versions : list Version.t) (order : list nat) :
  wikiparser fromisoformat data = Ok (store, versions, order) ->
  exists wikiversions wikiorder,
    Forall2 (fun v e => version_view store v = Some e) versions wikiversions
    /\ Forall2 (fun r e => page_view store r = Some e) order wikiorder
    /\ List.length (wikicommitgenerator datetime_str wikiversions wikiorder)
       = List.length versions
    /\ forall c,
         In c (wikicommitgenerator datetime_str wikiversions wikiorder) ->
         exists v r p,
           In v versions
           /\ Version._wiki_page_id v = Some r
           /\ nth_error store r = Some p
           /\ Commit.name c
              = Page.page_name p +s+ ":"
                +s+ match Version.version v with
                    | KNone => "None"
                    | KInt z => NilZero.string_of_int (Z.to_int z)
                    | KStr text => text
                    end
           /\ Version._updated_at v = Some (Commit.date c).
Proof.
  intros Hrun.
  destruct (WikiEnriched.wikiparser_enriches _ _ _ _ _ Hrun)
    as [Hpages Hversions].
  destruct (wikiparser_Ok_inv _ _ _ _ _ Hrun)
    as [pages [st [vs [roots [Hp [Hloop [-> [_ [_ [Hroots Horder]]]]]]]]]].
  pose proof (roots_are_group _ _ _ _ _ Hloop Hroots) as Hr0.
  assert (Hlen : List.length (fst st) = List.length pages).
  { apply (source_length pages).
    apply (enrich_pages_invariant fromisoformat (_users data) pages
             (fun _ _ => True)); auto. }
  assert (Hbound : forall w, In w order -> w < List.length pages).
  { apply (Lay_bound (position_of (fst st)) (children_of st)
             (List.length pages) (sorted (position_of (fst st)) roots)).
    - intros v c Hc.
      destruct (WikiSpec.kids_final fromisoformat (_users data) pages st
                  Hloop v) as [Hnil|[k [_ Hg]]].
      + rewrite Hnil in Hc. destruct Hc.
      + rewrite Hg in Hc. now apply group_In in Hc.
    - apply (WikiForest.traverse_Lay _ _ _ _ _ Horder).
    - intros v Hv. apply sorted_In in Hv. subst roots.
      now apply group_In in Hv. }
  destruct (views_exist (version_view (fst st)) versions Hversions)
    as [wikiversions Hvv].
  destruct (views_exist (page_view (fst st)) order) as [wikiorder Hvo].
  { intros r Hr. apply Hpages. rewrite Hlen. now apply Hbound. }
  exists wikiversions, wikiorder.
  split; [exact Hvv|]. split; [exact Hvo|]. split.
  - unfold wikicommitgenerator. rewrite length_map.
    rewrite (Permutation_length (sorted_perm _ _)).
    symmetry. exact (Forall2_length Hvv).
  - intros c Hc. unfold wikicommitgenerator in Hc.
    apply in_map_iff in Hc. destruct Hc as [e [<- He]].
    apply sorted_In in He.
    destruct (Forall2_In_r _ _ _ _ Hvv He) as [v [Hv Hview]].
    unfold version_view in Hview.
    destruct (Version._updated_at v) as [u|] eqn:Eu; [|discriminate].
    destruct (Version._wiki_page_id v) as [r|] eqn:Er; [|discriminate].
    destruct (Version._user_id v) as [a|]; [|discriminate].
    destruct (page_view (fst st) r) as [ep|] eqn:Eview; [|discriminate].
    injection Hview as <-.
    unfold page_view in Eview.
    destruct (nth_error (fst st) r) as [p|] eqn:Ep; [|discriminate].
    destruct (Page._created_at p); [|discriminate].
    destruct (Page._level p); [|discriminate].
    injection Eview as <-.
    exists v, r, p. repeat split; auto.
Qed.

Lemma wikiparser_feeds_replay_witness :
  exists store versions order wikiversions wikiorder,
    wikiparser Iso.fromisoformat revised = Ok (store, versions, order)
    /\ Forall2 (fun v e => version_view store v = Some e) versions wikiversions
    /\ Forall2 (fun r e => page_view store r = Some e) order wikiorder
    /\ List.length
         (wikicommitgenerator Iso.datetime_str wikiversions wikiorder) = 2
    /\ map Commit.name
         (wikicommitgenerator Iso.datetime_str wikiversions wikiorder)
       = ["Title:1"%string; "Title:2"%string]
    /\ map Commit.date
         (wikicommitgenerator Iso.datetime_str wikiversions wikiorder)
       = [1577923200%Z; 1578009600%Z].
Proof.
  destruct (wikiparser Iso.fromisoformat revised)
    as [[[store versions] order]|e] eqn:E; [|vm_compute in E; discriminate].
  destruct (wikiparser_feeds_replay Iso.fromisoformat Iso.datetime_str
              revised store versions order E)
    as [wikiversions [wikiorder [Hvv [Hvo [Hlen _]]]]].
  exists store, versions, order, wikiversions, wikiorder.
  split; [reflexivity|]. split; [exact Hvv|]. split; [exact Hvo|].
  split; [rewrite Hlen; vm_compute in E; injection E as _ <- _; reflexivity|].
  vm_compute in E. injection E as <- <- <-.
  inversion Hvv as [|v1 e1 l1 l1' H1 Hrest]; subst.
  inversion Hrest as [|v2 e2 l2 l2' H2 Hnil]; subst.
  inversion Hnil; subst.
  vm_compute in H1, H2. injection H1 as <-. injection H2 as <-.
  split; reflexivity.
Defined.

(** *** Pages without a user *)

Lemma key_of_json_truthy (uid : json) (k : pykey) :
  key_of_json uid = Some k -> truthy k = json_truthy uid.
Proof.
  destruct uid as [|b|z|s|l]; simpl; intros Hk; try discriminate;
    injection Hk as <-; try reflexivity.
  now destruct b.
Qed.

Lemma first_error_In (fromisoformat : string -> option Z)
  (users : dict pykey User.t) (index : dict pykey nat) (pages : list Page.t)
  (v : Page.t) :
  In v pages ->
  page_error fromisoformat users index v <> None ->
  first_error fromisoformat users index pages <> None.
Proof.
  induction pages as [|v0 pages IH]; intros Hin Hv; [destruct Hin|].
  simpl. destruct (page_error fromisoformat users index v0) eqn:E0;
    [discriminate|].
  destruct Hin as [->|Hin]; [congruence | now apply IH].
Qed.

(** X25. [scrapeusers] skips a falsy [user_id], and [wikiparser] looks
    every [user_id] up: with the users [scrapeusers] returns, a page whose
    [user_id] is falsy (null, as for a page without author) and is not a
    configured user makes [wikiparser] fail. *)
Theorem page_without_user_is_fatal (fromisoformat : string -> option Z)
  (base : dict pykey User.t) (rows : dict string (list Row))
  (users : dict pykey scraped) (data : Data) (pages : list Page.t)
  (v : Page.t) :
  scrapeusers base rows = Ok users ->
  _users data = plain_users users ->
  wiki_pages data = Some pages ->
  In v pages ->
  truthy (Page.user_id v) = false ->
  dict_get (Page.user_id v) base = None ->
  dict_get (Page.user_id v) (_users data) = None
  /\ exists e, wikiparser fromisoformat data = Raise e.
Proof.
  intros Hscrape Husers Hpages Hin Hfalsy Hbase.
  assert (Hnone : dict_get (Page.user_id v) (_users data) = None).
  { rewrite Husers. unfold plain_users.
    rewrite (PipelineMore.dict_get_map_snd user).
    destruct (dict_get (Page.user_id v) users) as [u|] eqn:Eu; [|reflexivity].
    exfalso. unfold scrapeusers in Hscrape.
    destruct (PipelineMore.scrape_tables_spec _ _ _ Hscrape) as [_ [_ H3]].
    destruct (H3 _ u Eu) as [Hold|[table Hname]].
    - rewrite (PipelineMore.dict_get_map_snd
                 (fun b => {| user := b; tables := None |})) in Hold.
      now rewrite Hbase in Hold.
    - destruct Hname as [entries [row [uid [_ [_ [_ [_ [Ht Hk]]]]]]]].
      apply key_of_json_truthy in Hk. congruence. }
  split; [exact Hnone|].
  assert (Herr : first_error fromisoformat (_users data)
                   (index_refs (map Page.id pages)) pages <> None).
  { apply (first_error_In _ _ _ _ v Hin). unfold page_error.
    now rewrite Hnone. }
  pose proof (enrich_pages_outcome fromisoformat (_users data)
                (index_refs (map Page.id pages))
                (combine (seq 0 (List.length pages)) pages) (pages, []))
    as Hrun.
  rewrite map_snd_combine_eq in Hrun by apply length_seq.
  destruct (first_error fromisoformat (_users data)
              (index_refs (map Page.id pages)) pages) as [e|];
    [|congruence].
  exists e. unfold wikiparser. rewrite Hpages, Hrun. reflexivity.
Qed.

Lemma page_without_user_is_fatal_witness :
  exists users,
    scrapeusers [] anonymous_rows = Ok users
    /\ wikiparser Iso.fromisoformat
         {| wiki_pages := Some anonymous; wiki_page_versions := Some [];
            wiki_page_blobs := None; _users := plain_users users |}
       = Raise (KeyError KNone).
Proof.
  destruct (scrapeusers [] anonymous_rows) as [users|e] eqn:E;
    [|vm_compute in E; discriminate].
  destruct (page_without_user_is_fatal Iso.fromisoformat [] anonymous_rows
              users
              {| wiki_pages := Some anonymous; wiki_page_versions := Some [];
                 wiki_page_blobs := None; _users := plain_users users |}
              anonymous
              (Page.make (KInt 1) KNone KNone (KInt 1) 0 "Title" "2020-01-01"
                 "2020-01-02") E eq_refl eq_refl)
    as [Hnone [e He]];
    [now left | reflexivity | reflexivity|].
  exists users. split; [reflexivity|].
  vm_compute in E. injection E as <-. reflexivity.
Defined.

(** *** Levels and nesting *)

(** X26. The level of a page never exceeds its depth below the pages
    without parent, and is that depth when every parent row comes before
    its children in the file.  The level is what the index is indented
    by: the line [wikiindexproducer] appends for the page object is twice
    as many spaces as the level, then the link to the title and a line
    feed; so with parents first the indentation of a page in the index is
    two spaces per step of its depth. *)
Theorem level_is_at_most_depth (fromisoformat : string -> option Z)
  (users : dict pykey User.t) (pages : list Page.t) (st : state) :
  enrich_pages fromisoformat users (index_refs (map Page.id pages))
    (combine (seq 0 (List.length pages)) pages) (pages, []) = Ok st ->
  Forall fresh pages ->
  forall c d,
    depth (parent_of pages) (group pages KNone (List.length pages)) c d ->
    exists l w,
      level_of (fst st) c = Some l
      /\ l <= d
      /\ ((forall x p, parent_of pages x = Some p -> p < x) -> l = d)
      /\ page_view (fst st) c = Some w
      /\ EPage._level w = l
      /\ forall index,
           wikiindexproducer (index ++ [w])
           = wikiindexproducer index
             +s+ string_of_list_ascii (repeat " "%char (2 * l))
             +s+ "* [[" +s+ EPage.page_name w +s+ "]]"
             +s+ String "010"%char EmptyString.
Proof.
  intros Hrun Hfresh c d Hd.
  assert (Hlevel : exists l,
            level_of (fst st) c = Some l
            /\ l <= d
            /\ ((forall x p, parent_of pages x = Some p -> p < x) -> l = d)).
  { induction Hd as [c Hc|v c d Hv IH Hpar].
    - apply group_In in Hc. destruct Hc as [_ [vc [Hvc Hnone]]].
      destruct (level_rule fromisoformat users pages st Hrun Hfresh c vc Hvc)
        as [H0 _].
      exists 0. split; [apply H0; now rewrite Hnone|].
      split; [lia | reflexivity].
    - destruct IH as [lv [Hlv [Hle Heq]]].
      assert (Hvc : exists vc, nth_error pages c = Some vc
                               /\ truthy (Page.parent_id vc) = true).
      { unfold parent_of in Hpar.
        destruct (nth_error pages c) as [vc|]; [|discriminate].
        destruct (truthy (Page.parent_id vc)) eqn:Et; [|discriminate].
        eauto. }
      destruct Hvc as [vc [Hvc Ht]].
      destruct (level_rule fromisoformat users pages st Hrun Hfresh c vc Hvc)
        as [_ H1].
      destruct (H1 Ht) as [p [Hp [Hlt Hge]]].
      assert (p = v) by congruence. subst p.
      destruct (Nat.lt_ge_cases v c) as [Hvc'|Hvc'].
      + destruct (Hlt Hvc') as [l [Hl Hc]].
        assert (l = lv) by congruence. subst l.
        exists (lv + 1). split; [exact Hc|]. split; [lia|].
        intros Hfirst. rewrite (Heq Hfirst). lia.
      + exists 1. split; [now apply Hge|]. split; [lia|].
        intros Hfirst. pose proof (Hfirst c v Hpar). lia. }
  destruct Hlevel as [l [Hl [Hle Heq]]].
  assert (Hc : c < List.length pages).
  { destruct Hd as [c Hc|v c d _ Hpar].
    - now apply group_In in Hc.
    - now apply (WikiSpec.parent_of_bound pages c v). }
  pose proof (WikiEnriched.pages_enriched fromisoformat users pages st Hrun
                c Hc) as Hview.
  destruct (page_view (fst st) c) as [w|] eqn:Ew; [|congruence].
  assert (Hw : EPage._level w = l).
  { unfold page_view in Ew. unfold level_of in Hl.
    destruct (nth_error (fst st) c) as [p|]; [|discriminate].
    destruct (Page._created_at p); [|discriminate].
    destruct (Page._level p) as [l'|]; [|discriminate].
    injection Ew as <-. simpl. congruence. }
  exists l, w. repeat split; auto.
  intros index. unfold wikiindexproducer.
  rewrite fold_left_app. cbn [fold_left].
  rewrite ReplaySpec.index_line_spec. unfold spec_line. now rewrite Hw.
Qed.

Lemma level_is_at_most_depth_witness :
  exists st w,
    enrich_pages Iso.fromisoformat sample_users
      (index_refs (map Page.id parent_first))
      (combine (seq 0 (List.length parent_first)) parent_first)
      (parent_first, []) = Ok st
    /\ level_of (fst st) 2 = Some 2
    /\ page_view (fst st) 2 = Some w
    /\ wikiindexproducer [w]
       = "**PortAudio**"
         +s+ String "010"%char
               ("    * [[Title]]" +s+ String "010"%char EmptyString).
Proof.
  destruct (enrich_pages Iso.fromisoformat sample_users
              (index_refs (map Page.id parent_first))
              (combine (seq 0 (List.length parent_first)) parent_first)
              (parent_first, [])) as [st|e] eqn:E;
    [|vm_compute in E; discriminate].
  destruct (level_is_at_most_depth Iso.fromisoformat sample_users parent_first
              st E ltac:(repeat constructor) 2 2)
    as [l [w [Hl [_ [Heq [Hview [_ Hline]]]]]]].
  - apply (depth_kid _ _ 1); [|reflexivity].
    apply (depth_kid _ _ 0); [|reflexivity].
    apply depth_root. vm_compute. auto.
  - assert (Hl2 : l = 2).
    { apply Heq. intros x p Hp. destruct x as [|[|[|x]]].
      - vm_compute in Hp. discriminate.
      - vm_compute in Hp. injection Hp as <-. lia.
      - vm_compute in Hp. injection Hp as <-. lia.
      - unfold parent_of in Hp. simpl in Hp. destruct x; discriminate. }
    subst l. exists st, w. split; [reflexivity|]. split; [exact Hl|].
    split; [exact Hview|].
    change (wikiindexproducer [w]) with (wikiindexproducer ([] ++ [w])).
    rewrite (Hline []). vm_compute in E. injection E as <-.
    vm_compute in Hview. injection Hview as <-. reflexivity.
Defined.

End WikiMore.

(** ** The replay, commit by commit *)

Module ReplayMore.

(** X27. The files of a commit are keyed by name: no name comes twice,
    and the body of the page is always there under the name of the page.
    So for a page titled [_Sidebar] the page body takes the place of the
    index, and the commit has that one file. *)
Theorem commit_files_by_name (datetime_str : Z -> string)
  (wikiversions : list EVersion.t) (order : list EPage.t) (c : Commit.t) :
  In c (wikicommitgenerator datetime_str wikiversions order) ->
  exists v,
    In v wikiversions
    /\ NoDup (map fst (Commit.files c))
    /\ dict_get (EPage.page_name (EVersion._wiki_page_id v) +s+ ".md")
         (Commit.files c)
       = Some (getwikiblob datetime_str v)
    /\ (EPage.page_name (EVersion._wiki_page_id v) = "_Sidebar"%string ->
        Commit.files c = [("_Sidebar.md"%string, getwikiblob datetime_str v)]).
Proof.
  intros Hin. unfold wikicommitgenerator in Hin.
  apply in_map_iff in Hin. destruct Hin as [v [<- Hv]].
  apply sorted_In in Hv. exists v. split; [exact Hv|].
  unfold commit_of, dict_of_pairs. cbn [Commit.files fold_left fst snd dict_set].
  destruct (eq_dec (EPage.page_name (EVersion._wiki_page_id v) +s+ ".md")
              "_Sidebar.md"%string) as [E|E].
  - split; [repeat constructor; simpl; tauto|]. split.
    + rewrite E. cbn [dict_get].
      now destruct (eq_dec "_Sidebar.md"%string "_Sidebar.md"%string).
    + reflexivity.
  - split; [|split].
    + repeat constructor; simpl; [|tauto]. intros [H|[]]. congruence.
    + cbn [dict_get]. destruct (eq_dec _ "_Sidebar.md"%string) as [E'|_];
        [contradiction|].
      now destruct (eq_dec (EPage.page_name (EVersion._wiki_page_id v) +s+ ".md")
                      (EPage.page_name (EVersion._wiki_page_id v) +s+ ".md")).
    + intros Hname. exfalso. apply E. now rewrite Hname.
Qed.

Lemma commit_files_by_name_witness :
  exists v,
    In v [rev_of {| EPage.page_name := "_Sidebar"; EPage.status := KInt 1;
                    EPage._created_at := 100; EPage._level := 0 |} 1 100]
    /\ Commit.files
         (commit_of Iso.datetime_str sample_order
            (rev_of {| EPage.page_name := "_Sidebar"; EPage.status := KInt 1;
                       EPage._created_at := 100; EPage._level := 0 |} 1 100))
       = [("_Sidebar.md"%string, getwikiblob Iso.datetime_str v)].
Proof.
  destruct (commit_files_by_name Iso.datetime_str
              [rev_of {| EPage.page_name := "_Sidebar"; EPage.status := KInt 1;
                         EPage._created_at := 100; EPage._level := 0 |} 1 100]
              sample_order
              (commit_of Iso.datetime_str sample_order
                 (rev_of {| EPage.page_name := "_Sidebar";
                            EPage.status := KInt 1;
                            EPage._created_at := 100;
                            EPage._level := 0 |} 1 100)))
    as [v [Hin [_ [_ Hfiles]]]]; [now left|].
  exists v. split; [exact Hin|]. apply Hfiles.
  destruct Hin as [<-|[]]. reflexivity.
Defined.

Lemma StronglySorted_nth_le (l : list Z) (i j : nat) (a b : Z) :
  StronglySorted Z.le l -> i <= j ->
  nth_error l i = Some a -> nth_error l j = Some b -> (a <= b)%Z.
Proof.
  intros Hs. revert i j. induction Hs as [|x l Hs IH Hall]; intros i j Hij Ha Hb.
  - destruct i; discriminate.
  - destruct i as [|i], j as [|j]; simpl in *; try lia.
    + injection Ha as <-. injection Hb as <-. lia.
    + injection Ha as <-. rewrite Forall_forall in Hall. apply Hall.
      now apply nth_error_In in Hb.
    + apply (IH i j); [lia | exact Ha | exact Hb].
Qed.

Lemma filter_absorbs {A} (f g : A -> bool) (l : list A) :
  (forall x, f x = true -> g x = true) ->
  filter f (filter g l) = filter f l.
Proof.
  intros Hfg. induction l as [|x l IH]; simpl; [reflexivity|].
  destruct (g x) eqn:Eg; simpl.
  - now rewrite IH.
  - destruct (f x) eqn:Ef; [|exact IH].
    apply Hfg in Ef. congruence.
Qed.

(** X28. Along the replay the index only grows: of two commits the later
    one is dated no earlier, and the pages the earlier one lists are the
    pages the later one lists that existed at the date of the earlier one,
    in the same order. *)
Theorem sidebar_only_grows (datetime_str : Z -> string)
  (wikiversions : list EVersion.t) (order : list EPage.t) (i j : nat)
  (ci cj : Commit.t) :
  i <= j ->
  nth_error (wikicommitgenerator datetime_str wikiversions order) i = Some ci ->
  nth_error (wikicommitgenerator datetime_str wikiversions order) j = Some cj ->
  (Commit.date ci <= Commit.date cj)%Z
  /\ filter (present_at (Commit.date ci)) order
     = filter (present_at (Commit.date ci))
         (filter (present_at (Commit.date cj)) order).
Proof.
  intros Hij Hi Hj.
  assert (Hle : (Commit.date ci <= Commit.date cj)%Z).
  { apply (StronglySorted_nth_le
             (map Commit.date
                (wikicommitgenerator datetime_str wikiversions order)) i j);
      [| exact Hij | | ].
    - unfold wikicommitgenerator. rewrite map_map. simpl.
      apply StronglySorted_map.
      apply (sorted_ordered EVersion._updated_at).
    - rewrite nth_error_map, Hi. reflexivity.
    - rewrite nth_error_map, Hj. reflexivity. }
  split; [exact Hle|]. symmetry. apply filter_absorbs.
  intros w Hw. unfold present_at in *.
  apply andb_true_iff in Hw. destruct Hw as [Hc Hs].
  apply andb_true_iff. split; [|exact Hs].
  apply Z.leb_le in Hc. apply Z.leb_le. lia.
Qed.

Lemma sidebar_only_grows_witness :
  filter (present_at 100) sample_order
  = filter (present_at 100) (filter (present_at 200) sample_order).
Proof.
  destruct (sidebar_only_grows Iso.datetime_str sample_versions sample_order
              0 2
              (commit_of Iso.datetime_str sample_order (rev_of home 1 100))
              (commit_of Iso.datetime_str sample_order (rev_of home 2 200)))
    as [_ H]; [lia | reflexivity | reflexivity |].
  exact H.
Defined.

(** *** Authors that are not configured *)

Section Bare.
Variable B : pykey -> Prop.

Local Abbreviation bare := (bare_unless B).

Lemma scrape_row_bare (table : string) (users users' : dict pykey scraped)
  (v : Row) :
  scrape_row table users v = Ok users' -> bare users -> bare users'.
Proof.
  unfold scrape_row. intros Hrow Hbare.
  destruct (dict_get (KStr "user_id") v) as [uid|];
    [|injection Hrow as <-; exact Hbare].
  destruct (json_truthy uid); [|injection Hrow as <-; exact Hbare].
  destruct (key_of_json uid) as [k0|]; [|discriminate].
  injection Hrow as <-. intros k u Hk. rewrite dict_get_set in Hk.
  destruct (eq_dec k0 k) as [->|Hne]; [|now apply Hbare].
  injection Hk as <-. simpl.
  destruct (dict_get k users) as [u0|] eqn:E0.
  - destruct (Hbare k u0 E0) as [Hb|[Hu _]]; [now left|].
    right. split; [|discriminate]. rewrite Hu. reflexivity.
  - right. split; [reflexivity | discriminate].
Qed.

Lemma scrape_rows_bare (table : string) (entries : list Row)
  (users users' : dict pykey scraped) :
  scrape_rows table users entries = Ok users' -> bare users -> bare users'.
Proof.
  revert users. induction entries as [|v entries IH]; intros users Hrun Hbare;
    simpl in Hrun.
  - now injection Hrun as <-.
  - destruct (scrape_row table users v) as [users1|] eqn:E1; [|discriminate].
    simpl in Hrun. apply (IH users1 Hrun).
    now apply (scrape_row_bare table users users1 v).
Qed.

Lemma scrape_tables_bare (data : dict string (list Row))
  (users users' : dict pykey scraped) :
  scrape_tables users data = Ok users' -> bare users -> bare users'.
Proof.
  revert users. induction data as [|[t entries] data IH];
    intros users Hrun Hbare; simpl in Hrun.
  - now injection Hrun as <-.
  - destruct (startswith t "_"); [now apply (IH users)|].
    destruct (scrape_rows t users entries) as [users1|] eqn:E1;
      [|discriminate].
    simpl in Hrun. apply (IH users1 Hrun).
    now apply (scrape_rows_bare t entries users users1).
Qed.

End Bare.

(** X29. A user [scrapeusers] finds in the tables and that is not
    configured has an [id], its key, and neither name nor email; a commit
    of a version by that user is authored by the raw id at
    [none@localhost]. *)
Theorem unconfigured_author_is_raw_id (datetime_str : Z -> string)
  (base : dict pykey User.t) (rows : dict string (list Row))
  (users : dict pykey scraped) (k : pykey) (u : scraped)
  (order : list EPage.t) (v : EVersion.t) :
  scrapeusers base rows = Ok users ->
  dict_get k users = Some u ->
  dict_get k base = None ->
  EVersion._user_id v = user u ->
  user u = {| User.id := Some k; User.name := None; User.email := None |}
  /\ tables u <> None
  /\ Commit.author_name (commit_of datetime_str order v) = k
  /\ Commit.author_email (commit_of datetime_str order v)
     = KStr "none@localhost".
Proof.
  intros Hrun Hk Hbase Hauthor. unfold scrapeusers in Hrun.
  assert (Hu : user u = {| User.id := Some k; User.name := None;
                           User.email := None |} /\ tables u <> None).
  { pose proof (scrape_tables_bare (fun k => dict_get k base <> None) rows
                  _ _ Hrun) as Hb.
    destruct (Hb) with (k := k) (u := u) as [Hc|Hu];
      [| exact Hk | contradiction | exact Hu].
    intros k0 u0 H0. left.
    rewrite (PipelineMore.dict_get_map_snd
               (fun b => {| user := b; tables := None |})) in H0.
    destruct (dict_get k0 base); discriminate. }
  destruct Hu as [Hu Ht]. split; [exact Hu|]. split; [exact Ht|].
  unfold commit_of. cbn [Commit.author_name Commit.author_email].
  rewrite Hauthor, Hu. split; reflexivity.
Qed.

Lemma unconfigured_author_is_raw_id_witness :
  exists users u,
    scrapeusers [] scrape_data = Ok users
    /\ dict_get (KStr "u2") users = Some u
    /\ user u = {| User.id := Some (KStr "u2"); User.name := None;
                   User.email := None |}.
Proof.
  destruct (scrapeusers [] scrape_data) as [users|e] eqn:E;
    [|vm_compute in E; discriminate].
  destruct (dict_get (KStr "u2") users) as [u|] eqn:Eu;
    [|vm_compute in E; injection E as <-; discriminate].
  destruct (unconfigured_author_is_raw_id Iso.datetime_str [] scrape_data
              users (KStr "u2") u sample_order
              {| EVersion.version := KInt 1; EVersion.change_comment := KNone;
                 EVersion._updated_at := 100; EVersion._wiki_page_id := home;
                 EVersion._user_id := user u |} E Eu eq_refl eq_refl)
    as [Hu _].
  exists users, u. auto.
Defined.

End ReplayMore.

(** ** Siblings of equal position *)

Module WikiTies.

Lemma before_trans (position : nat -> Z) (a b c : nat) :
  before position a b -> before position b c -> before position a c.
Proof. unfold before. lia. Qed.

Lemma insert_sorted_before (position : nat -> Z) (x : nat) (l : list nat) :
  StronglySorted (before position) l ->
  (forall z, In z l -> x < z) ->
  StronglySorted (before position) (insert_sorted position x l).
Proof.
  induction 1 as [|y l Hs IH Hall]; intros Hx; simpl.
  - repeat constructor.
  - assert (Hxy : x < y) by (apply Hx; now left).
    destruct (Z.leb_spec (position x) (position y)) as [Hle|Hgt].
    + assert (Hb : before position x y) by (unfold before; lia).
      constructor; [now constructor|]. constructor; [exact Hb|].
      rewrite Forall_forall in *. intros z Hz.
      apply (before_trans position x y z Hb). now apply Hall.
    + constructor; [apply IH; intros z Hz; apply Hx; now right|].
      rewrite Forall_forall in *. intros z Hz.
      apply (Permutation_in _ (insert_sorted_perm position x l)) in Hz.
      destruct Hz as [<-|Hz]; [unfold before; lia | now apply Hall].
Qed.

Lemma sorted_before (position : nat -> Z) (l : list nat) :
  StronglySorted lt l -> StronglySorted (before position) (sorted position l).
Proof.
  induction 1 as [|x l Hs IH Hall]; simpl; [constructor|].
  apply insert_sorted_before; [exact IH|].
  intros z Hz. apply sorted_In in Hz. rewrite Forall_forall in Hall.
  now apply Hall.
Qed.

Lemma filter_increasing (f : nat -> bool) (l : list nat) :
  StronglySorted lt l -> StronglySorted lt (filter f l).
Proof.
  induction 1 as [|x l Hs IH Hall]; simpl; [constructor|].
  destruct (f x); [|exact IH]. constructor; [exact IH|].
  rewrite Forall_forall in *. intros z Hz. apply filter_In in Hz.
  now apply Hall.
Qed.

Lemma seq_increasing (a n : nat) : StronglySorted lt (seq a n).
Proof.
  revert a. induction n as [|n IH]; intros a; simpl; constructor; [apply IH|].
  rewrite Forall_forall. intros z Hz. apply in_seq in Hz. lia.
Qed.

Lemma group_increasing (pages : list Page.t) (k : pykey) (m : nat) :
  StronglySorted lt (group pages k m).
Proof. apply filter_increasing, seq_increasing. Qed.

Section Ties.
Variable position : nat -> Z.
Variable children : nat -> option (list nat).
Variable parent : nat -> option nat.
Variable roots : list nat.

Local Abbreviation Lay := (WikiWords.Lay position children).
Local Abbreviation kids := (WikiWords.kids children).
Local Abbreviation descendant := (WikiWords.descendant parent).
Local Abbreviation depth := (WikiWords.depth parent roots).

Hypothesis roots_parent : forall c, In c roots -> parent c = None.
Hypothesis kids_parent : forall v c, In c (kids v) <-> parent c = Some v.
Hypothesis kids_nodup : forall v, NoDup (kids v).
Hypothesis kids_increasing : forall v, StronglySorted lt (kids v).

(** Siblings are laid out by position, and in file order where the
    positions are equal. *)
Lemma Lay_siblings_before (vs out : list nat) :
  Lay vs out ->
  forall d, StronglySorted (before position) vs -> NoDup vs ->
    (forall v, In v vs -> depth v d) ->
    forall a u b w c, out = a ++ u :: b ++ w :: c ->
      parent u = parent w -> before position u w.
Proof.
  induction 1 as [|v vs sub rest Hsub IHsub Hrest IHrest];
    intros d Hsorted Hnd Hd a u b w c Hout Hp.
  - destruct a; discriminate.
  - inversion Hnd as [|v0 vs0 Hv Hvs]; subst.
    apply StronglySorted_inv in Hsorted. destruct Hsorted as [Hsvs Hall].
    assert (Hdv : depth v d) by (apply Hd; now left).
    assert (Hdvs : forall v', In v' vs -> depth v' d).
    { intros v' Hv'. apply Hd. now right. }
    assert (Hsubd : forall x, In x sub -> descendant v x).
    { intros x Hx.
      apply (WikiForest.Lay_members position children parent kids_parent
               _ _ Hsub) in Hx.
      destruct Hx as [k [Hk Hx]]. apply sorted_In, kids_parent in Hk.
      destruct Hx as [<-|Hx]; [now apply descendant_child|].
      now apply (descendant_step _ v k). }
    assert (Hrestd : forall x, In x rest -> depth x d -> In x vs).
    { intros x Hx Hdx.
      apply (WikiForest.Lay_members position children parent kids_parent
               _ _ Hrest) in Hx.
      destruct Hx as [v' [Hv' [<-|Hx]]]; [exact Hv'|].
      destruct (WikiForest.depth_descendant parent roots v' x d
                  (Hdvs v' Hv') Hx) as [k Hk].
      pose proof (WikiForest.depth_unique parent roots roots_parent
                    _ _ _ Hdx Hk). lia. }
    assert (Hcross : forall x y, In x sub -> In y rest ->
              parent x = parent y -> False).
    { intros x y Hx Hy Hxy. pose proof (Hsubd x Hx) as Hvx.
      destruct (WikiForest.depth_descendant parent roots v x d Hdv Hvx)
        as [k Hk].
      apply (WikiForest.Lay_members position children parent kids_parent
               _ _ Hrest) in Hy.
      destruct Hy as [v' [Hv' Hy]].
      inversion Hk as [|p x0 d0 Hdp Hpx]; subst.
      destruct Hy as [<-|Hy].
      - pose proof (WikiForest.depth_same_parent parent roots roots_parent
                      _ _ _ _ Hk (Hdvs v' Hv') Hxy).
        lia.
      - assert (Hpy : parent y = Some p) by congruence.
        assert (v = v'); [|subst v'; contradiction].
        apply (WikiForest.ancestor_unique parent roots roots_parent
                 v v' p d); auto.
        + now apply (WikiForest.descendant_parent parent v x p).
        + now apply (WikiForest.descendant_parent parent v' y p). }
    change (v :: sub ++ rest) with ([v] ++ (sub ++ rest)) in Hout.
    apply WikiForest.split_two in Hout.
    destruct Hout as [[c' Hc']|[[Hu Hw]|[a' Ha']]].
    + destruct a as [|x [|y a]]; simpl in Hc'; try discriminate.
      * destruct b; discriminate.
    + destruct Hu as [<-|[]]. apply in_app_or in Hw. destruct Hw as [Hw|Hw].
      * exfalso.
        destruct (WikiForest.depth_descendant parent roots v w d Hdv
                    (Hsubd w Hw)) as [k Hk].
        pose proof (WikiForest.depth_same_parent parent roots roots_parent
                      _ _ _ _ Hdv Hk Hp). lia.
      * assert (Hdw : depth w d).
        { apply (WikiForest.Lay_members position children parent kids_parent
                   _ _ Hrest) in Hw.
          destruct Hw as [v' [Hv' [<-|Hw]]]; [now apply Hdvs|].
          destruct (WikiForest.depth_descendant parent roots v' w d
                      (Hdvs v' Hv') Hw) as [k Hk].
          pose proof (WikiForest.depth_same_parent parent roots roots_parent
                        _ _ _ _ Hdv Hk Hp). lia. }
        rewrite Forall_forall in Hall. apply Hall. now apply Hrestd.
    + apply WikiForest.split_two in Ha'.
      destruct Ha' as [[c' Hc']|[[Hu Hw]|[a'' Ha'']]].
      * apply (IHsub (S d)) with (a := a') (b := b) (c := c'); auto.
        -- apply sorted_before, kids_increasing.
        -- apply (Permutation_NoDup (Permutation_sym (sorted_perm position _))).
           apply kids_nodup.
        -- intros k Hk. apply sorted_In, kids_parent in Hk.
           now apply (depth_kid _ _ v).
      * exfalso. now apply (Hcross u w).
      * apply (IHrest d) with (a := a'') (b := b) (c := c); auto.
Qed.

End Ties.

(** X30. The order [wikiparser] returns is determined by the table: of
    two pages with the same parent the one of smaller position comes
    first, and of two with the same position the one whose row comes
    first in the file. *)
Theorem ties_keep_file_order (fromisoformat : string -> option Z)
  (data : Data) (pages store : list Page.t) (versions : list Version.t)
  (order : list nat) :
  wikiparser fromisoformat data = Ok (store, versions, order) ->
  wiki_pages data = Some pages ->
  Forall fresh pages ->
  forall a u b w c, order = a ++ u :: b ++ w :: c ->
    parent_of pages u = parent_of pages w ->
    before (position_of pages) u w.
Proof.
  intros Hrun Hpages Hfresh a u b w c Hsplit Hp.
  destruct (WikiMore.wikiparser_Ok_inv _ _ _ _ _ Hrun)
    as [pages' [st [vs [roots0 [Hp' [Hloop [-> [_ [_ [Hroots Horder]]]]]]]]]].
  assert (pages' = pages) by congruence. subst pages'.
  pose proof (WikiMore.roots_are_group _ _ _ _ _ Hloop Hroots) as Hr0.
  subst roots0.
  set (n := List.length pages) in *.
  set (roots := group pages KNone n) in *.
  pose proof (WikiSpec.root_no_parent pages) as RP.
  pose proof (WikiSpec.kids_final_parent fromisoformat (_users data) pages st
                Hloop Hfresh) as KP.
  pose proof (WikiSpec.kids_final_nodup fromisoformat (_users data) pages st
                Hloop) as KN.
  fold n in RP. fold roots in RP.
  assert (KI : forall v, StronglySorted lt (kids (children_of st) v)).
  { intros v.
    destruct (WikiSpec.kids_final fromisoformat (_users data) pages st
                Hloop v) as [->|[k [_ ->]]];
      [constructor | apply group_increasing]. }
  assert (Hsrc : map source (fst st) = map source pages).
  { apply (enrich_pages_invariant fromisoformat (_users data) pages
             (fun _ _ => True)); auto. }
  pose proof (WikiForest.traverse_Lay _ _ _ _ _ Horder) as Hlay.
  assert (Hb : before (position_of (fst st)) u w).
  { apply (Lay_siblings_before (position_of (fst st)) (children_of st)
             (parent_of pages) roots RP KP KN KI _ _ Hlay 0)
      with (a := a) (b := b) (c := c); auto.
    - apply sorted_before, group_increasing.
    - apply (Permutation_NoDup (Permutation_sym (sorted_perm _ _))).
      apply group_NoDup.
    - intros v Hv. constructor. now apply sorted_In in Hv. }
  unfold before in *.
  now rewrite <- !(WikiSpec.position_of_source (fst st) pages) by exact Hsrc.
Qed.

Lemma ties_keep_file_order_witness :
  exists store versions,
    wikiparser Iso.fromisoformat (data_of tied) = Ok (store, versions, [1; 0; 2])
    /\ before (position_of tied) 0 2.
Proof.
  destruct (wikiparser Iso.fromisoformat (data_of tied))
    as [[[store versions] order]|e] eqn:E; [|vm_compute in E; discriminate].
  assert (Horder : order = [1; 0; 2]).
  { vm_compute in E. now injection E as _ _ <-. }
  subst order. exists store, versions. split; [reflexivity|].
  apply (ties_keep_file_order Iso.fromisoformat (data_of tied) tied store
           versions [1; 0; 2] E eq_refl ltac:(repeat constructor)
           [1] 0 [] 2 []); reflexivity.
Defined.

End WikiTies.
